(** * CHATLI backend: chat delivery, presence and unread-count reconciliation

    A shallow embedding of the Mongoose models [models/Chat.js] and
    [models/Message.js] and of the Socket.IO connection handler of
    [server.js], followed by the properties the specification states
    about them.

    Conventions of the embedding.
    - An [ObjectId] is identified with its [toString()] rendering; every
      comparison in the source goes through [toString()], so equality of
      identifiers is equality of strings.
    - A Mongoose [Number] holding a counter is an integer ([Z]); the
      counters are only ever set to 0 or 1, incremented and decremented.
    - A string is the sequence of its characters as JavaScript counts
      them: [String.length] stands for the [length] property.
    - The store answers every request.  A socket handler is modelled
      twice: [Server.handle] runs it from the arrival of its event to its
      end with nothing in between, and [Server.exec] runs the handlers
      cut at every [await], their pieces interleaved in any order. *)

From stdpp Require Import base strings list gmap.
From Stdlib Require Import ZArith.

Definition ObjectId : Type := string.

(** ** JavaScript array helpers *)

(** [Array.prototype.findIndex]: index of the first match, [-1] if none. *)
Definition findIndex {A} (P : A → Prop) `{∀ x, Decision (P x)} (l : list A) : Z :=
  match list_find P l with
  | Some (i, _) => Z.of_nat i
  | None => (-1)%Z
  end.

(** [Array.prototype.find]: the first match, [undefined] if none. *)
Definition find {A} (P : A → Prop) `{∀ x, Decision (P x)} (l : list A) : option A :=
  snd <$> list_find P l.

(** [Array.prototype.some]. *)
Definition some {A} (P : A → Prop) `{∀ x, Decision (P x)} (l : list A) : bool :=
  bool_decide (Exists P l).

(** [Array.prototype.push]. *)
Definition push {A} (l : list A) (x : A) : list A := l ++ [x].

(** ** The persistence layer *)

Record User := mkUser {
  user_name : string;
  user_status : string;
  user_lastSeen : Z
}.

Record UnreadCount := mkUnread {
  user : ObjectId;
  count : Z
}.

Record LastMessage := mkLast {
  lm_id : option ObjectId;
  lm_text : option string;
  lm_sender : option ObjectId;
  lm_timestamp : Z;
  lm_isRead : bool
}.

Record ChatDoc := mkChat {
  chat_id : ObjectId;
  participants : list ObjectId;
  lastMessage : LastMessage;
  unreadCounts : list UnreadCount;
  deletedBy : list ObjectId
}.

Record Reaction := mkReaction {
  r_user : ObjectId;
  emoji : string
}.

Record MessageDoc := mkMessage {
  msg_id : ObjectId;
  chat : ObjectId;
  sender : ObjectId;
  content_text : option string;
  reactions : list Reaction;
  isDeleted : bool;
  deletedAt : option Z;
  createdAt : Z;
  isNew : bool
}.

(** The collections, and the number of write commands issued so far.
    [chats] and [messages] hold their documents in insertion order. *)
Record Store := mkStore {
  users : gmap ObjectId User;
  chats : list ChatDoc;
  messages : list MessageDoc;
  writes : nat
}.

(** [updateOne]: apply [f] to the first document that matches [P]. *)
Fixpoint updateOne {A} (P : A → Prop) `{∀ x, Decision (P x)} (f : A → A)
    (l : list A) : list A :=
  match l with
  | [] => []
  | x :: l' => if decide (P x) then f x :: l' else x :: updateOne P f l'
  end.

(** A store action returning an [A]. *)
Definition Db (A : Type) : Type := Store → A * Store.

Definition ret {A} (a : A) : Db A := λ db, (a, db).
Definition bind {A B} (m : Db A) (k : A → Db B) : Db B :=
  λ db, let '(a, db') := m db in k a db'.

Notation "'do' x <- m ; k" := (bind m (λ x, k))
  (at level 10, x name, m at level 100, k at level 200).

(** What [await doc.save()] comes to when [save] validates: the promise
    resolves to the document, or it rejects with an error and nothing is
    written.  Either way the caller's document is the one in memory, with
    the changes made to it before the call. *)
Inductive Saved (A : Type) :=
| Resolved (doc : A)
| Rejected (doc : A).
Arguments Resolved {A} doc.
Arguments Rejected {A} doc.

Definition saved_doc {A} (outcome : Saved A) : A :=
  match outcome with Resolved doc | Rejected doc => doc end.

Definition saved_map {A B} (f : A → B) (outcome : Saved A) : Saved B :=
  match outcome with
  | Resolved doc => Resolved (f doc)
  | Rejected doc => Rejected (f doc)
  end.

(** [const y = await first; ... await next(y)]: a rejection ends the
    sequence. *)
Definition and_then {A} (first : Db (Saved A)) (next : A → Db (Saved A))
    : Db (Saved A) :=
  λ db, match first db with
        | (Resolved doc, db') => next doc db'
        | (Rejected doc, db') => (Rejected doc, db')
        end.

(** [for (const x of l) { s = await body(s, x) }]. *)
Fixpoint forOf {A S} (l : list A) (body : S → A → Db S) (s : S) : Db S :=
  match l with
  | [] => ret s
  | x :: l' => do s' <- body s x; forOf l' body s'
  end.

Definition set_unreadCounts (c : ChatDoc) (l : list UnreadCount) : ChatDoc :=
  mkChat (chat_id c) (participants c) (lastMessage c) l (deletedBy c).
Definition set_deletedBy (c : ChatDoc) (l : list ObjectId) : ChatDoc :=
  mkChat (chat_id c) (participants c) (lastMessage c) (unreadCounts c) l.
Definition set_lastMessage (c : ChatDoc) (lm : LastMessage) : ChatDoc :=
  mkChat (chat_id c) (participants c) lm (unreadCounts c) (deletedBy c).
Definition set_count (e : UnreadCount) (n : Z) : UnreadCount :=
  mkUnread (user e) n.

(** ** models/Chat.js *)
Module Chat.

(** [Chat.findById]. *)
Definition findById (id : ObjectId) : Db (option ChatDoc) :=
  λ db, (find (λ c, chat_id c = id) (chats db), db).

(** [this.save()] on a document that was loaded from the store.
    Mongoose keeps track of the paths that were assigned a new value since
    then, and [modified] says whether there is one.  A modified document
    is written back, one write after which the stored document is [this];
    a document with no modified path issues no write command. *)
Definition save (modified : bool) (this : ChatDoc) : Db ChatDoc :=
  if modified then
    λ db, (this,
           mkStore (users db)
                   (updateOne (λ c, chat_id c = chat_id this) (λ _, this) (chats db))
                   (messages db) (S (writes db)))
  else ret this.

(** The virtual [getUnreadCount]. *)
Definition getUnreadCount (this : ChatDoc) (userId : ObjectId) : Z :=
  match find (λ item, user item = userId) (unreadCounts this) with
  | Some unreadData => count unreadData
  | None => 0%Z
  end.

(** The in-memory effect of [updateUnreadCount] on [this.unreadCounts]. *)
Definition bumpUnread (userId : ObjectId) (increment : bool)
    (l : list UnreadCount) : list UnreadCount :=
  let unreadIndex := findIndex (λ item, user item = userId) l in
  if (unreadIndex >? -1)%Z then
    alter (λ item,
             let n := (count item + (if increment then 1 else -1))%Z in
             set_count item (if (n <? 0)%Z then 0%Z else n))
          (Z.to_nat unreadIndex) l
  else if increment then push l (mkUnread userId 1)
  else l.

(** The document is modified when an entry was assigned to or pushed. *)
Definition updateUnreadCount (this : ChatDoc) (userId : ObjectId)
    (increment : bool) : Db ChatDoc :=
  let unreadIndex := findIndex (λ item, user item = userId) (unreadCounts this) in
  save ((unreadIndex >? -1)%Z || increment)
       (set_unreadCounts this (bumpUnread userId increment (unreadCounts this))).

(** Assigning 0 to a count that is 0 already modifies nothing. *)
Definition markAsRead (this : ChatDoc) (userId : ObjectId) : Db ChatDoc :=
  let unreadIndex := findIndex (λ item, user item = userId) (unreadCounts this) in
  if (unreadIndex >? -1)%Z then
    save (bool_decide (count <$> unreadCounts this !! Z.to_nat unreadIndex
                       ≠ Some 0%Z))
         (set_unreadCounts this
            (alter (λ item, set_count item 0) (Z.to_nat unreadIndex)
                   (unreadCounts this)))
  else ret this.

Definition deleteForUser (this : ChatDoc) (userId : ObjectId) : Db ChatDoc :=
  let isAlreadyDeleted := some (λ id, id = userId) (deletedBy this) in
  if negb isAlreadyDeleted then
    save true (set_deletedBy this (push (deletedBy this) userId))
  else ret this.

Definition restoreForUser (this : ChatDoc) (userId : ObjectId) : Db ChatDoc :=
  let wasDeleted := some (λ id, id = userId) (deletedBy this) in
  if wasDeleted then
    save true (set_deletedBy this (filter (λ id, id ≠ userId) (deletedBy this)))
  else ret this.

Definition isDeletedForUser (this : ChatDoc) (userId : ObjectId) : bool :=
  if bool_decide (length (deletedBy this) = 0) then false
  else some (λ id, id = userId) (deletedBy this).

(** What [save()] sends to the store after [updateUnreadCount]: Mongoose
    sends the changes, not the document.  A pushed entry goes out as a
    [$push] to [unreadCounts], an assigned count as a [$set] of
    [unreadCounts.<index>.count]. *)
Inductive Update :=
| push_entry (item : UnreadCount)
| set_entry_count (index : nat) (n : Z).

(** The update command for the change [updateUnreadCount] makes to a
    document whose entries are [l]; none when it changes nothing. *)
Definition unreadUpdate (userId : ObjectId) (increment : bool)
    (l : list UnreadCount) : option Update :=
  let unreadIndex := findIndex (λ item, user item = userId) l in
  if (unreadIndex >? -1)%Z then
    match l !! Z.to_nat unreadIndex with
    | Some item =>
        let n := (count item + (if increment then 1 else -1))%Z in
        Some (set_entry_count (Z.to_nat unreadIndex) (if (n <? 0)%Z then 0%Z else n))
    | None => None
    end
  else if increment then Some (push_entry (mkUnread userId 1))
  else None.

(** The store carries the command out on the chat [id] as it is stored
    at that time. *)
Definition applyUpdate (id : ObjectId) (update : option Update) : Db unit :=
  match update with
  | None => ret tt
  | Some command =>
      λ db, (tt,
             mkStore (users db)
               (updateOne (λ c, chat_id c = id)
                  (λ c, set_unreadCounts c
                          match command with
                          | push_entry item => push (unreadCounts c) item
                          | set_entry_count index n =>
                              alter (λ item, set_count item n) index (unreadCounts c)
                          end)
                  (chats db))
               (messages db) (S (writes db)))
  end.

End Chat.

(** ** models/Message.js *)
Module Message.

Definition set_reactions (m : MessageDoc) (l : list Reaction) : MessageDoc :=
  mkMessage (msg_id m) (chat m) (sender m) (content_text m) l
            (isDeleted m) (deletedAt m) (createdAt m) (isNew m).
Definition set_deleted (m : MessageDoc) (now : Z) : MessageDoc :=
  mkMessage (msg_id m) (chat m) (sender m) (content_text m) (reactions m)
            true (Some now) (createdAt m) (isNew m).
Definition set_isNew (m : MessageDoc) (b : bool) : MessageDoc :=
  mkMessage (msg_id m) (chat m) (sender m) (content_text m) (reactions m)
            (isDeleted m) (deletedAt m) (createdAt m) b.

(** [Message.findById]: a document loaded by a query is not new. *)
Definition findById (id : ObjectId) : Db (option MessageDoc) :=
  λ db, ((λ m, set_isNew m false) <$> find (λ m, msg_id m = id) (messages db), db).

(** [Chat.findByIdAndUpdate(id, {'lastMessage.id': ..., ...})]: one
    atomic update of the stored chat, nothing if the chat is absent. *)
Definition updateLastMessage (id : ObjectId) (lm : LastMessage) : Db unit :=
  λ db, (tt, mkStore (users db)
                     (updateOne (λ c, chat_id c = id) (λ c, set_lastMessage c lm)
                              (chats db))
                     (messages db) (S (writes db))).

(** [messageSchema.pre('save')]. *)
Definition preSave (this : MessageDoc) : Db unit :=
  if isNew this && negb (isDeleted this) then
    updateLastMessage (chat this)
      (mkLast (Some (msg_id this))
              (Some (default EmptyString (content_text this)))
              (Some (sender this))
              (createdAt this)
              false)
  else ret tt.

(** The paths of the schema that carry a validator: [content.text] has
    [maxlength] 2000, and the [emoji] of every reaction is [required],
    which an empty string fails. *)
Inductive Path := path_content_text | path_reactions.

Definition validPath (this : MessageDoc) (path : Path) : bool :=
  match path with
  | path_content_text =>
      match content_text this with
      | Some text => bool_decide (String.length text ≤ 2000)
      | None => true
      end
  | path_reactions =>
      forallb (λ reaction, negb (bool_decide (emoji reaction = EmptyString)))
              (reactions this)
  end.

(** The document satisfies the schema. *)
Definition valid (this : MessageDoc) : bool :=
  validPath this path_content_text && validPath this path_reactions.

(** The validation [save()] starts with.  A new document is checked on
    every path.  A loaded document holds what an earlier [save] has
    stored, which passed this check, so that the paths assigned since,
    [modified], decide. *)
Definition validate (modified : list Path) (this : MessageDoc) : bool :=
  if isNew this then valid this else forallb (validPath this) modified.

(** The write that follows the hooks: an insert for a new document
    (refused when the identifier is taken), an update of the stored
    document otherwise.  No part of the code removes a message, so a
    document that was loaded is in the store. *)
Definition store (this : MessageDoc) : Db (Saved MessageDoc) :=
  λ db,
    let saved := set_isNew this false in
    if isNew this then
      if some (λ m, msg_id m = msg_id this) (messages db) then (Rejected this, db)
      else (Resolved saved,
            mkStore (users db) (chats db)
                    (push (messages db) saved) (S (writes db)))
    else
      (Resolved saved,
       mkStore (users db) (chats db)
         (updateOne (λ m, msg_id m = msg_id this) (λ _, saved) (messages db))
         (S (writes db))).

(** [this.save()] after assignments to the paths [modified]: validation
    first, and when it fails neither the hook runs nor anything is
    written. *)
Definition save (modified : list Path) (this : MessageDoc)
    : Db (Saved MessageDoc) :=
  if validate modified this then do _ <- preSave this; store this
  else ret (Rejected this).

Definition addReaction (this : MessageDoc) (userId : ObjectId) (e : string)
    : Db (Saved MessageDoc) :=
  let existingReaction :=
    find (λ reaction, r_user reaction = userId ∧ emoji reaction = e)
         (reactions this) in
  match existingReaction with
  | Some _ =>
      save [path_reactions]
           (set_reactions this
              (filter (λ reaction, ¬ (r_user reaction = userId ∧ emoji reaction = e))
                      (reactions this)))
  | None =>
      save [path_reactions]
           (set_reactions this
              (push (filter (λ reaction, r_user reaction ≠ userId) (reactions this))
                    (mkReaction userId e)))
  end.

Definition softDelete (this : MessageDoc) (now : Z) : Db (Saved MessageDoc) :=
  save [] (set_deleted this now).

End Message.

(** ** server.js: the Socket.IO connection handler *)
Module Server.

Definition SocketId : Type := string.

(** Events the server emits to clients.  A [new_message] carries the
    [chatId] and the [message] of the payload it relays, [None] for one
    that is [undefined]. *)
Inductive ServerEvent :=
| new_message (chatId : option string) (message : option string)
| user_typing (chatId : string) (userId : option ObjectId) (isTyping : bool)
| user_status_change (userId : ObjectId) (status : string).

(** The payload of [send_message] as [const { chatId, message } = data]
    sees it: [null] or [undefined], on which the destructuring throws
    inside the [try]; or any other value, of which it reads the two
    properties.  A property the value does not have reads [undefined]
    ([None]), as both do for a number or a string; a [chatId] that is
    there is a string, and the message is kept as a string. *)
Inductive Payload :=
| nullish
| fields (chatId : option string) (message : option string).

(** Events a client emits, with what the handler reads from its
    environment: [new Date()] for the handlers that stamp [lastSeen]. *)
Inductive ClientEvent :=
| connection
| authenticate (token : string) (now : Z)
| join_chat (chatId : string)
| leave_chat (chatId : string)
| send_message (data : Payload)
| typing_start (chatId : string)
| typing_stop (chatId : string)
| disconnect (now : Z).

(** A live socket: [socket.userId] ([None] for [undefined]), the rooms it
    has joined, and the events delivered to its client so far. *)
Record Socket := mkSocket {
  sock_userId : option ObjectId;
  sock_rooms : gset string;
  sock_received : list ServerEvent
}.

Record State := mkState {
  sockets : gmap SocketId Socket;
  connectedUsers : gmap ObjectId SocketId;
  connectionCount : Z;
  db : Store
}.

Definition set_userId (u : ObjectId) (s : Socket) : Socket :=
  mkSocket (Some u) (sock_rooms s) (sock_received s).
Definition join (room : string) (s : Socket) : Socket :=
  mkSocket (sock_userId s) ({[room]} ∪ sock_rooms s) (sock_received s).
Definition leave (room : string) (s : Socket) : Socket :=
  mkSocket (sock_userId s) (sock_rooms s ∖ {[room]}) (sock_received s).
Definition deliver (ev : ServerEvent) (s : Socket) : Socket :=
  mkSocket (sock_userId s) (sock_rooms s) (push (sock_received s) ev).

(** [socket.broadcast.emit(ev)]: every connected socket but [sid]. *)
Definition broadcast_emit (sid : SocketId) (ev : ServerEvent)
    (ss : gmap SocketId Socket) : gmap SocketId Socket :=
  map_imap (λ k s, Some (if bool_decide (k = sid) then s else deliver ev s)) ss.

(** [socket.to(room).emit(ev)]: every socket in [room] but [sid]. *)
Definition to_emit (sid : SocketId) (room : string) (ev : ServerEvent)
    (ss : gmap SocketId Socket) : gmap SocketId Socket :=
  map_imap (λ k s, Some (if bool_decide (k ≠ sid ∧ room ∈ sock_rooms s)
                         then deliver ev s else s)) ss.

(** [User.findByIdAndUpdate(id, {status, lastSeen})]. *)
Definition updateUserStatus (id : ObjectId) (status : string) (now : Z) : Db unit :=
  λ db, (tt, mkStore (alter (λ u, mkUser (user_name u) status now) id (users db))
                     (chats db) (messages db) (S (writes db))).

(** A value inside a template literal: [undefined] renders as the word. *)
Definition template (value : option string) : string :=
  default "undefined" value.

(** [Chat.findById(chatId)]; [findById(undefined)] matches no document. *)
Definition findChat (chatId : option string) : Db (option ChatDoc) :=
  match chatId with
  | Some id => Chat.findById id
  | None => ret None
  end.

(** The participants the [send_message] handler updates: those that are
    not [socket.userId]. *)
Definition otherParticipants (userId : option ObjectId) (chat : ChatDoc)
    : list ObjectId :=
  filter (λ participant, Some participant ≠ userId) (participants chat).

Section Handlers.

(** [jwt.verify(token, JWT_SECRET).userId]; [None] when [verify] throws. *)
Variable jwt_verify : string → option ObjectId.

Definition on_connection (sid : SocketId) (σ : State) : State :=
  mkState (<[sid := mkSocket None ∅ []]> (sockets σ))
          (connectedUsers σ) (connectionCount σ + 1)%Z (db σ).

Definition on_authenticate (sid : SocketId) (token : string) (now : Z)
    (σ : State) : State :=
  match jwt_verify token with
  | None => σ
  | Some decodedUserId =>
      match users (db σ) !! decodedUserId with
      | None => σ
      | Some _ =>
          let id := decodedUserId in
          let ss1 := alter (set_userId id) sid (sockets σ) in
          let cu := <[id := sid]> (connectedUsers σ) in
          let '(_, db1) := updateUserStatus id "online" now (db σ) in
          let ss2 := alter (join ("user_" +:+ id)) sid ss1 in
          let ss3 := broadcast_emit sid (user_status_change id "online") ss2 in
          mkState ss3 cu (connectionCount σ) db1
      end
  end.

Definition on_join_chat (sid : SocketId) (chatId : string) (σ : State) : State :=
  mkState (alter (join ("chat_" +:+ chatId)) sid (sockets σ))
          (connectedUsers σ) (connectionCount σ) (db σ).

Definition on_leave_chat (sid : SocketId) (chatId : string) (σ : State) : State :=
  mkState (alter (leave ("chat_" +:+ chatId)) sid (sockets σ))
          (connectedUsers σ) (connectionCount σ) (db σ).

Definition on_send_message (sid : SocketId) (socket : Socket)
    (data : Payload) (σ : State) : State :=
  match data with
  | nullish => σ
  | fields chatId message =>
      let ss := to_emit sid ("chat_" +:+ template chatId)
                        (new_message chatId message) (sockets σ) in
      let action :=
        do found <- findChat chatId;
        match found with
        | Some chat =>
            do _ <- forOf (otherParticipants (sock_userId socket) chat)
                          (λ chat participantId,
                             Chat.updateUnreadCount chat participantId true)
                          chat;
            ret tt
        | None => ret tt
        end in
      mkState ss (connectedUsers σ) (connectionCount σ) (snd (action (db σ)))
  end.

Definition on_typing (sid : SocketId) (socket : Socket) (chatId : string)
    (isTyping : bool) (σ : State) : State :=
  mkState (to_emit sid ("chat_" +:+ chatId)
                   (user_typing chatId (sock_userId socket) isTyping) (sockets σ))
          (connectedUsers σ) (connectionCount σ) (db σ).

(** The transport has already removed the socket from the server when
    the [disconnect] handler runs. *)
Definition on_disconnect (sid : SocketId) (socket : Socket) (now : Z)
    (σ : State) : State :=
  let ss := delete sid (sockets σ) in
  let n := (connectionCount σ - 1)%Z in
  match sock_userId socket with
  | Some userId =>
      let cu := delete userId (connectedUsers σ) in
      let '(_, db1) := updateUserStatus userId "offline" now (db σ) in
      mkState (broadcast_emit sid (user_status_change userId "offline") ss) cu n db1
  | None => mkState ss (connectedUsers σ) n (db σ)
  end.

(** Dispatch of one client event of socket [sid].  Handlers exist only
    between the socket's [connection] and its [disconnect]; socket
    identifiers are fresh, so a [connection] for a live identifier does
    not occur and is ignored. *)
Definition handle (sid : SocketId) (ev : ClientEvent) (σ : State) : State :=
  match sockets σ !! sid, ev with
  | None, connection => on_connection sid σ
  | None, _ => σ
  | Some _, connection => σ
  | Some _, authenticate token now => on_authenticate sid token now σ
  | Some _, join_chat chatId => on_join_chat sid chatId σ
  | Some _, leave_chat chatId => on_leave_chat sid chatId σ
  | Some socket, send_message data => on_send_message sid socket data σ
  | Some socket, typing_start chatId => on_typing sid socket chatId true σ
  | Some socket, typing_stop chatId => on_typing sid socket chatId false σ
  | Some socket, disconnect now => on_disconnect sid socket now σ
  end.

(** A serial run of the server: the handler of each event runs to its
    end before the next event is handled. *)
Definition run (evs : list (SocketId * ClientEvent)) (σ : State) : State :=
  foldl (λ σ e, handle e.1 e.2 σ) σ evs.

(** *** The handlers cut at their awaits

    The handlers of [authenticate], [send_message] and [disconnect] are
    [async].  Each runs until its next [await], where it has handed a
    request to the store and is suspended; the store carries the request
    out at some later point, and the handler is resumed with the answer
    at a later point still.  Events may arrive and other handlers may
    move in between.  A [Task] is a suspended handler with what it
    holds: for each [await] one state in which the request is on its way
    and one in which the answer is there and the handler not yet
    resumed. *)
Inductive Task :=
| auth_finding (sid : SocketId) (userId : ObjectId) (now : Z)
| auth_found (sid : SocketId) (userId : ObjectId) (user : option User) (now : Z)
| auth_updating (sid : SocketId) (userId : ObjectId) (now : Z)
| auth_updated (sid : SocketId) (userId : ObjectId)
| send_finding (sid : SocketId) (chatId : option string)
| send_found (sid : SocketId) (found : option ChatDoc)
| send_saving (chat : ChatDoc) (update : option Chat.Update) (rest : list ObjectId)
| send_saved (chat : ChatDoc) (rest : list ObjectId)
| disc_updating (sid : SocketId) (userId : ObjectId) (now : Z)
| disc_updated (sid : SocketId) (userId : ObjectId).

(** The server with its suspended handlers.  A handler keeps its
    [socket] object after the socket has disconnected: [closed] holds the
    [userId] of the sockets that are gone. *)
Record Config := mkConfig {
  server : State;
  closed : gmap SocketId (option ObjectId);
  pending : list Task
}.

(** [socket.userId] as a handler of the socket [sid] reads it. *)
Definition userId_of (κ : Config) (sid : SocketId) : option ObjectId :=
  match sockets (server κ) !! sid with
  | Some socket => sock_userId socket
  | None => closed κ !! sid ≫= id
  end.

(** The arrival of a client event: the handler runs up to its first
    [await], or to its end if it has none. *)
Definition arrival (sid : SocketId) (ev : ClientEvent) (κ : Config) : Config :=
  let σ := server κ in
  match sockets σ !! sid, ev with
  | None, connection =>
      mkConfig (on_connection sid σ) (delete sid (closed κ)) (pending κ)
  | None, _ => κ
  | Some _, connection => κ
  | Some _, authenticate token now =>
      match jwt_verify token with
      | None => κ
      | Some decodedUserId =>
          mkConfig σ (closed κ)
                   (push (pending κ) (auth_finding sid decodedUserId now))
      end
  | Some _, join_chat chatId =>
      mkConfig (on_join_chat sid chatId σ) (closed κ) (pending κ)
  | Some _, leave_chat chatId =>
      mkConfig (on_leave_chat sid chatId σ) (closed κ) (pending κ)
  | Some _, send_message nullish => κ
  | Some _, send_message (fields chatId message) =>
      mkConfig (mkState (to_emit sid ("chat_" +:+ template chatId)
                                 (new_message chatId message) (sockets σ))
                        (connectedUsers σ) (connectionCount σ) (db σ))
               (closed κ)
               (push (pending κ) (send_finding sid chatId))
  | Some socket, typing_start chatId =>
      mkConfig (on_typing sid socket chatId true σ) (closed κ) (pending κ)
  | Some socket, typing_stop chatId =>
      mkConfig (on_typing sid socket chatId false σ) (closed κ) (pending κ)
  | Some socket, disconnect now =>
      let ss := delete sid (sockets σ) in
      let n := (connectionCount σ - 1)%Z in
      let gone := <[sid := sock_userId socket]> (closed κ) in
      match sock_userId socket with
      | Some userId =>
          mkConfig (mkState ss (delete userId (connectedUsers σ)) n (db σ)) gone
                   (push (pending κ) (disc_updating sid userId now))
      | None => mkConfig (mkState ss (connectedUsers σ) n (db σ)) gone (pending κ)
      end
  end.

(** One turn of [for (const participantId of otherParticipants)
    await chat.updateUnreadCount(participantId, true)]: the document is
    changed in memory and the update is on its way. *)
Definition send_loop (chat : ChatDoc) (rest : list ObjectId) : option Task :=
  match rest with
  | [] => None
  | participantId :: rest' =>
      Some (send_saving
              (set_unreadCounts chat
                 (Chat.bumpUnread participantId true (unreadCounts chat)))
              (Chat.unreadUpdate participantId true (unreadCounts chat))
              rest')
  end.

(** A suspended handler moves on: the store carries its request out, or
    the handler is resumed with the answer and runs to its next [await]
    or to its end ([None]). *)
Definition advance (task : Task) (κ : Config) : Config * option Task :=
  let σ := server κ in
  let with_db (d : Store) :=
    mkConfig (mkState (sockets σ) (connectedUsers σ) (connectionCount σ) d)
             (closed κ) (pending κ) in
  match task with
  | auth_finding sid userId now =>
      (κ, Some (auth_found sid userId (users (db σ) !! userId) now))
  | auth_found sid userId user now =>
      match user with
      | Some _ =>
          (mkConfig (mkState (alter (set_userId userId) sid (sockets σ))
                             (<[userId := sid]> (connectedUsers σ))
                             (connectionCount σ) (db σ))
                    (alter (λ _, Some userId) sid (closed κ)) (pending κ),
           Some (auth_updating sid userId now))
      | None => (κ, None)
      end
  | auth_updating sid userId now =>
      (with_db (updateUserStatus userId "online" now (db σ)).2,
       Some (auth_updated sid userId))
  | auth_updated sid userId =>
      (mkConfig (mkState (broadcast_emit sid (user_status_change userId "online")
                            (alter (join ("user_" +:+ userId)) sid (sockets σ)))
                         (connectedUsers σ) (connectionCount σ) (db σ))
                (closed κ) (pending κ),
       None)
  | send_finding sid chatId =>
      (κ, Some (send_found sid (findChat chatId (db σ)).1))
  | send_found sid found =>
      match found with
      | Some chat => (κ, send_loop chat (otherParticipants (userId_of κ sid) chat))
      | None => (κ, None)
      end
  | send_saving chat update rest =>
      (with_db (Chat.applyUpdate (chat_id chat) update (db σ)).2,
       Some (send_saved chat rest))
  | send_saved chat rest => (κ, send_loop chat rest)
  | disc_updating sid userId now =>
      (with_db (updateUserStatus userId "offline" now (db σ)).2,
       Some (disc_updated sid userId))
  | disc_updated sid userId =>
      (mkConfig (mkState (broadcast_emit sid
                            (user_status_change (default userId (userId_of κ sid))
                                                "offline")
                            (sockets σ))
                         (connectedUsers σ) (connectionCount σ) (db σ))
                (closed κ) (pending κ),
       None)
  end.

(** The suspended handler at position [i] moves on. *)
Definition advance_task (i : nat) (κ : Config) : Config :=
  match pending κ !! i with
  | Some task =>
      let '(κ', next) := advance task κ in
      mkConfig (server κ') (closed κ')
               match next with
               | Some task' => <[i := task']> (pending κ)
               | None => delete i (pending κ)
               end
  | None => κ
  end.

(** The store turns down the update of the handler at position [i].
    Mongoose sends the version of the document as it was loaded along
    with an update of an entry by its index, and the store refuses it
    when the array has changed since; the [catch] of the handler logs
    the error and the handler is over. *)
Definition refuse_task (i : nat) (κ : Config) : Config :=
  match pending κ !! i with
  | Some (send_saving _ (Some (Chat.set_entry_count _ _)) _) =>
      mkConfig (server κ) (closed κ) (delete i (pending κ))
  | _ => κ
  end.

(** What happens next on the server. *)
Inductive Action :=
| arrive (sid : SocketId) (ev : ClientEvent)
| move (i : nat)
| refuse (i : nat).

Definition perform (action : Action) (κ : Config) : Config :=
  match action with
  | arrive sid ev => arrival sid ev κ
  | move i => advance_task i κ
  | refuse i => refuse_task i κ
  end.

(** A run of the server under a schedule. *)
Definition exec (schedule : list Action) (κ : Config) : Config :=
  foldl (λ κ action, perform action κ) κ schedule.

(** The first suspended handler moves on until none is suspended, at most
    [fuel] times. *)
Fixpoint settle (fuel : nat) (κ : Config) : Config :=
  match fuel with
  | 0 => κ
  | S fuel' =>
      match pending κ with
      | [] => κ
      | _ :: _ => settle fuel' (advance_task 0 κ)
      end
  end.

End Handlers.

End Server.

(** ** models/Message.js: read receipts, edits

    The fields of a message document that the reaction and last-message
    code above does not touch, next to the ones it does. *)

Record ReadReceipt := mkReadReceipt {
  rr_user : ObjectId;
  readAt : Z
}.

Record MessageFull := mkMessageFull {
  base : MessageDoc;
  readBy : list ReadReceipt;
  isEdited : bool;
  editedAt : option Z
}.

Module MessageFull.

Definition set_text (m : MessageDoc) (text : string) : MessageDoc :=
  mkMessage (msg_id m) (chat m) (sender m) (Some text) (reactions m)
            (isDeleted m) (deletedAt m) (createdAt m) (isNew m).

(** [this.save()]: the validation, the hooks and the write of
    [Message.save]. *)
Definition save (modified : list Message.Path) (this : MessageFull)
    : Db (Saved MessageFull) :=
  do outcome <- Message.save modified (base this);
  ret (saved_map (λ saved, mkMessageFull saved (readBy this) (isEdited this)
                                         (editedAt this))
                 outcome).

(** [markAsRead]; [now] is the [Date.now] default of [readAt]. *)
Definition markAsRead (this : MessageFull) (userId : ObjectId) (now : Z)
    : Db (Saved MessageFull) :=
  let existingRead := find (λ read, rr_user read = userId) (readBy this) in
  match existingRead with
  | None =>
      save [] (mkMessageFull (base this)
                 (push (readBy this) (mkReadReceipt userId now))
                 (isEdited this) (editedAt this))
  | Some _ => ret (Resolved this)
  end.

Definition softDelete (this : MessageFull) (now : Z) : Db (Saved MessageFull) :=
  save [] (mkMessageFull (Message.set_deleted (base this) now)
             (readBy this) (isEdited this) (editedAt this)).

Definition editMessage (this : MessageFull) (newText : string) (now : Z)
    : Db (Saved MessageFull) :=
  save [Message.path_content_text]
       (mkMessageFull (set_text (base this) newText)
          (readBy this) true (Some now)).

End MessageFull.

(** ** models/Admin.js and the login route of routes/admin.js

    One call reads the clock once: [now] is [Date.now()] at every place
    of the call. *)

Record AdminDoc := mkAdmin {
  admin_id : ObjectId;
  username : string;
  password : string;
  email : string;
  role : string;
  isActive : bool;
  lastLogin : option Z;
  loginAttempts : Z;
  lockUntil : option Z
}.

(** The admins collection and the number of writes issued to it. *)
Record AdminStore := mkAdminStore {
  admins : list AdminDoc;
  admin_writes : nat
}.

(** What a call that may throw gives back. *)
Inductive Outcome (A : Type) :=
| Returns (a : A)
| Throws (message : string).
Arguments Returns {A} a.
Arguments Throws {A} message.

(** The responses of [POST /login], with what their bodies carry. *)
Inductive LoginResponse :=
| BadRequest
| InvalidCredentials (attemptsRemaining : option Z)
| AccountLocked (lockTimeRemaining : option Z)
| LoginSuccessful (token : string) (admin : AdminDoc)
| LoginFailed.

Definition status (r : LoginResponse) : Z :=
  match r with
  | BadRequest => 400
  | InvalidCredentials _ => 401
  | AccountLocked _ => 423
  | LoginSuccessful _ _ => 200
  | LoginFailed => 500
  end.

(** [!s] for a body field that is a string when present. *)
Definition falsy (s : option string) : bool :=
  match s with
  | None => true
  | Some EmptyString => true
  | Some _ => false
  end.

Module Admin.

Definition set_attempts (a : AdminDoc) (n : Z) (lock : option Z) : AdminDoc :=
  mkAdmin (admin_id a) (username a) (password a) (email a) (role a)
          (isActive a) (lastLogin a) n lock.
Definition set_lastLogin (a : AdminDoc) (t : Z) : AdminDoc :=
  mkAdmin (admin_id a) (username a) (password a) (email a) (role a)
          (isActive a) (Some t) (loginAttempts a) (lockUntil a).

(** [this.save()] with the password unmodified, so that the hashing hook
    passes: one write replacing the stored document. *)
Definition save (this : AdminDoc) (db : AdminStore) : AdminDoc * AdminStore :=
  (this,
   mkAdminStore (updateOne (λ a, admin_id a = admin_id this) (λ _, this) (admins db))
                (S (admin_writes db))).

(** [Admin.findOne({ username })]. *)
Definition findOne (name : string) (db : AdminStore) : option AdminDoc :=
  find (λ a, username a = name) (admins db).

(** The virtual [isLocked]. *)
Definition isLocked (this : AdminDoc) (now : Z) : bool :=
  match lockUntil this with
  | Some t => (t >? now)%Z
  | None => false
  end.

Definition updateLastLogin (this : AdminDoc) (now : Z) (db : AdminStore)
    : AdminDoc * AdminStore :=
  save (set_lastLogin this now) db.

Section Crypto.

(** [bcrypt.compare(candidate, hash)]. *)
Variable bcrypt_compare : string → string → bool.
(** [jwt.sign({ adminId, username, role }, JWT_SECRET, { expiresIn: '4h' })]. *)
Variable jwt_sign : ObjectId → string → string → string.
(** [String.prototype.toLowerCase]. *)
Variable toLowerCase : string → string.

(** [comparePassword]: the outcome, the document as the call leaves it,
    and the store. *)
Definition comparePassword (this : AdminDoc) (candidatePassword : string)
    (now : Z) (db : AdminStore) : Outcome bool * AdminDoc * AdminStore :=
  if isLocked this now then
    (Throws "Account is temporarily locked", this, db)
  else
    let isMatch := bcrypt_compare candidatePassword (password this) in
    if isMatch then
      if (loginAttempts this >? 0)%Z then
        let '(this', db') := save (set_attempts this 0 None) db in
        (Returns true, this', db')
      else (Returns true, this, db)
    else
      let n := (loginAttempts this + 1)%Z in
      let lock := if (n >=? 5)%Z then Some (now + 15 * 60 * 1000)%Z
                  else lockUntil this in
      let '(this', db') := save (set_attempts this n lock) db in
      (Returns false, this', db').

(** [router.post('/login', ...)]. *)
Definition login (body_username body_password : option string) (now : Z)
    (db : AdminStore) : LoginResponse * AdminStore :=
  match body_username, body_password with
  | Some name, Some pass =>
      if falsy body_username || falsy body_password then (BadRequest, db)
      else
        match findOne (toLowerCase name) db with
        | None => (InvalidCredentials None, db)
        | Some admin =>
            if negb (isActive admin) then (InvalidCredentials None, db)
            else if isLocked admin now then
              match lockUntil admin with
              | Some t => (AccountLocked (Some (- ((- (t - now)) / (1000 * 60)))%Z), db)
              | None => (AccountLocked None, db)
              end
            else
              match comparePassword admin pass now db with
              | (Throws _, _, db') => (LoginFailed, db')
              | (Returns isValidPassword, admin', db') =>
                  if negb isValidPassword then
                    let attemptsRemaining := (5 - loginAttempts admin')%Z in
                    if (attemptsRemaining <=? 0)%Z then (AccountLocked None, db')
                    else (InvalidCredentials (Some attemptsRemaining), db')
                  else
                    let '(admin'', db'') := updateLastLogin admin' now db' in
                    (LoginSuccessful
                       (jwt_sign (admin_id admin'') (username admin'') (role admin''))
                       admin'',
                     db'')
              end
        end
  | _, _ => (BadRequest, db)
  end.

End Crypto.

End Admin.

(** ** JavaScript string helpers *)

(** The rest of [s] after the prefix [pat], if [s] starts with it. *)
Fixpoint strip_prefix (pat s : string) : option string :=
  match pat, s with
  | EmptyString, _ => Some s
  | String a pat', String b s' =>
      if bool_decide (a = b) then strip_prefix pat' s' else None
  | String _ _, EmptyString => None
  end.

(** [s.replace(pat, '')] for a string pattern: the first occurrence of
    [pat] is removed. *)
Fixpoint replaceFirst (pat s : string) : string :=
  match strip_prefix pat s with
  | Some rest => rest
  | None =>
      match s with
      | EmptyString => EmptyString
      | String c s' => String c (replaceFirst pat s')
      end
  end.

(** [s.endsWith(ext)]. *)
Definition endsWith (s ext : string) : bool :=
  bool_decide (String.list_ascii_of_string ext
                 `suffix_of` String.list_ascii_of_string s).

(** ** middleware/auth.js *)

(** What [jwt.verify] and the cast of [decoded.userId] to an identifier
    give: the identifier, or the [name] of the error thrown on the way
    (by [verify], or by the cast inside [findById]). *)
Inductive Verified :=
| Decoded (userId : ObjectId)
| VerifyError (name : string).

(** What a middleware does with a request: it calls [next()], here with
    the user it has put in [req.user] if any, or it answers. *)
Inductive Handled :=
| Next (user : option (ObjectId * User))
| Respond (status : Z) (message : string).

Module Auth.
Section Middleware.

Variable verify : string → Verified.

(** [req.header('Authorization')?.replace('Bearer ', '')]. *)
Definition tokenOf (authorization : option string) : option string :=
  replaceFirst "Bearer " <$> authorization.

Definition auth (authorization : option string) (db : Store) : Handled :=
  let token := tokenOf authorization in
  match token with
  | None => Respond 401 "Токен оруулна уу"
  | Some token =>
      if falsy (Some token) then Respond 401 "Токен оруулна уу"
      else
        match verify token with
        | Decoded userId =>
            match users db !! userId with
            | None => Respond 401 "Хэрэглэгч олдсонгүй"
            | Some user => Next (Some (userId, user))
            end
        | VerifyError name =>
            if bool_decide (name = "JsonWebTokenError")
            then Respond 401 "Хүчингүй токен"
            else if bool_decide (name = "TokenExpiredError")
            then Respond 401 "Токен хүчингүй болсон"
            else Respond 500 "Серверийн алдаа"
        end
  end.

Definition optionalAuth (authorization : option string) (db : Store) : Handled :=
  let token := tokenOf authorization in
  match token with
  | None => Next None
  | Some token =>
      if falsy (Some token) then Next None
      else
        match verify token with
        | Decoded userId =>
            match users db !! userId with
            | None => Next None
            | Some user => Next (Some (userId, user))
            end
        | VerifyError _ => Next None
        end
  end.

End Middleware.
End Auth.

(** ** middleware/security.js: [validateFileUpload] *)

Record UploadedFile := mkFile {
  file_size : Z;
  mimetype : string;
  originalname : option string
}.

(** [req.files] and [req.file] as the upload middleware leaves them: none,
    an array of files, an object of arrays of files by field, or a single
    file. An entry of an array may be empty. *)
Inductive Upload :=
| NoUpload
| FilesArray (files : list (option UploadedFile))
| FilesByField (fields : list (string * list (option UploadedFile)))
| SingleFile (file : UploadedFile).

Module Security.
Section Validate.

(** [String.prototype.toLowerCase]. *)
Variable toLowerCase : string → string.
(** [parseInt(process.env.MAX_FILE_SIZE)]; [None] for [NaN]. *)
Variable envMaxFileSize : option Z.

Definition allowedMimeTypes : list string :=
  ["image/jpeg"; "image/png"; "image/webp"; "image/gif";
   "video/mp4"; "video/webm"; "video/quicktime"].

Definition dangerousExtensions : list string :=
  [".exe"; ".bat"; ".cmd"; ".scr"; ".pif"; ".jar"; ".js"; ".vbs"].

(** [parseInt(...) || 50 * 1024 * 1024]. *)
Definition maxFileSize : Z :=
  match envMaxFileSize with
  | None => 50 * 1024 * 1024
  | Some n => if bool_decide (n = 0) then 50 * 1024 * 1024 else n
  end%Z.

(** The body of the loop for one entry: [None] to go on to the next. *)
Definition checkFile (file : option UploadedFile) : option Handled :=
  match file with
  | None => None
  | Some file =>
      if (file_size file >? maxFileSize)%Z then
        Some (Respond 400 "Файлын хэмжээ хэт том байна")
      else if negb (bool_decide (mimetype file ∈ allowedMimeTypes)) then
        Some (Respond 400 "Зөвшөөрөгдөөгүй файлын төрөл")
      else if negb (falsy (originalname file)) then
        let fileExt := toLowerCase (default EmptyString (originalname file)) in
        if some (λ ext, endsWith fileExt ext = true) dangerousExtensions then
          Some (Respond 400 "Аюултай файлын төрөл илрүүлэгдлээ")
        else None
      else None
  end.

Fixpoint checkFiles (files : list (option UploadedFile)) : Handled :=
  match files with
  | [] => Next None
  | file :: rest =>
      match checkFile file with
      | Some response => response
      | None => checkFiles rest
      end
  end.

Definition validateFileUpload (upload : Upload) : Handled :=
  match upload with
  | NoUpload => Next None
  | FilesArray files => checkFiles files
  | FilesByField fields => checkFiles (concat (snd <$> fields))
  | SingleFile file => checkFiles [Some file]
  end.

End Validate.
End Security.

(** * Vocabulary of the specification *)


(** The entries of [l] that belong to users other than [userId]. *)
Definition entries_of_others (userId : ObjectId) (l : list UnreadCount)
    : list UnreadCount :=
  filter (λ item, user item ≠ userId) l.

(** [await chat.deleteForUser(A)] followed by [await chat.restoreForUser(A)]
    on the same document. *)
Definition deleteThenRestore (this : ChatDoc) (A : ObjectId) : Db ChatDoc :=
  do c <- Chat.deleteForUser this A; Chat.restoreForUser c A.

(** The reactions user [u] holds in [l]. *)
Definition reactions_of (u : ObjectId) (l : list Reaction) : list Reaction :=
  filter (λ reaction, r_user reaction = u) l.

(** At most one reaction per user. *)
Definition one_reaction_each (l : list Reaction) : Prop :=
  ∀ u, length (reactions_of u l) ≤ 1.

(** [await message.addReaction(u, e)] twice on the same document. *)
Definition addReactionTwice (this : MessageDoc) (u : ObjectId) (e : string)
    : Db (Saved MessageDoc) :=
  and_then (Message.addReaction this u e) (λ m, Message.addReaction m u e).

(** A sequence of [addReaction] calls on the same document. *)
Fixpoint addReactions (calls : list (ObjectId * string)) (this : MessageDoc)
    : Db (Saved MessageDoc) :=
  match calls with
  | [] => ret (Resolved this)
  | call :: calls' =>
      and_then (Message.addReaction this call.1 call.2) (addReactions calls')
  end.

(** The list [addReaction] leaves in [this.reactions]. *)
Definition toggled (u : ObjectId) (e : string) (l : list Reaction) : list Reaction :=
  if some (λ reaction, r_user reaction = u ∧ emoji reaction = e) l
  then filter (λ reaction, ¬ (r_user reaction = u ∧ emoji reaction = e)) l
  else filter (λ reaction, r_user reaction ≠ u) l ++ [mkReaction u e].

(** The stored document after an [addReaction] that resolves. *)
Definition reacted (this : MessageDoc) (u : ObjectId) (e : string) : MessageDoc :=
  Message.set_isNew (Message.set_reactions this (toggled u e (reactions this)))
                    false.

(** What callers do to the messages of the store: create one
    ([new Message(doc).save()]) or soft-delete a stored one
    ([(await Message.findById(id)).softDelete()]). *)
Inductive MessageOp :=
| CreateMessage (doc : MessageDoc)
| SoftDeleteMessage (id : ObjectId) (now : Z).

Definition applyOp (op : MessageOp) : Db unit :=
  match op with
  | CreateMessage doc =>
      do _ <- Message.save [] (Message.set_isNew doc true); ret tt
  | SoftDeleteMessage id now =>
      do found <- Message.findById id;
      match found with
      | Some m => do _ <- Message.softDelete m now; ret tt
      | None => ret tt
      end
  end.

Definition applyOps (ops : list MessageOp) : Db unit :=
  forOf ops (λ _ op, applyOp op) tt.

(** The summary the pre-save hook writes for a message. *)
Definition summary (m : MessageDoc) : LastMessage :=
  mkLast (Some (msg_id m)) (Some (default EmptyString (content_text m)))
         (Some (sender m)) (createdAt m) false.

(** The identifier of the most recently created message of chat [cid]
    that is not deleted, if any. *)
Definition latest_live (cid : ObjectId) (db : Store) : option ObjectId :=
  msg_id <$> last (filter (λ m, chat m = cid ∧ isDeleted m = false) (messages db)).

(** The messages of chat [cid] that [ops] creates (the documents that
    pass validation) and that are not deleted when they are created,
    oldest first. *)
Definition created_live (cid : ObjectId) (ops : list MessageOp) : list MessageDoc :=
  omap (λ op, match op with
              | CreateMessage doc =>
                  if decide (Message.valid doc = true
                             ∧ chat doc = cid ∧ isDeleted doc = false)
                  then Some doc else None
              | SoftDeleteMessage _ _ => None
              end) ops.

(** The counter that [getUnreadCount] reads in a list of entries. *)
Definition unreadOf (l : list UnreadCount) (p : ObjectId) : Z :=
  match find (λ item, user item = p) l with
  | Some unreadData => count unreadData
  | None => 0%Z
  end.

(** [socket.userId] of the socket [sid], if it is connected and set. *)
Definition sender_of (σ : Server.State) (sid : Server.SocketId) : option ObjectId :=
  Server.sockets σ !! sid ≫= Server.sock_userId.

(** The payload of a [send_message] that has both properties. *)
Definition payload (chatId message : string) : Server.Payload :=
  Server.fields (Some chatId) (Some message).

(** [send_message] events for one chat, one per (socket, message) pair. *)
Definition sends_to (chatId : string) (sends : list (Server.SocketId * string))
    : list (Server.SocketId * Server.ClientEvent) :=
  (λ e, (e.1, Server.send_message (payload chatId e.2))) <$> sends.

Definition is_status (ev : Server.ServerEvent) : Prop :=
  match ev with Server.user_status_change _ _ => True | _ => False end.

#[export] Instance is_status_dec ev : Decision (is_status ev).
Proof. destruct ev; cbn; apply _. Defined.




(** [connectionCount] agrees with the number of connected sockets. *)
Definition count_ok (σ : Server.State) : Prop :=
  Server.connectionCount σ = Z.of_nat (size (Server.sockets σ)).

(** What a chat document holds besides its unread counters. *)
Definition chat_frame (c : ChatDoc)
    : ObjectId * list ObjectId * LastMessage * list ObjectId :=
  (chat_id c, participants c, lastMessage c, deletedBy c).

(** What the socket handlers never write: of every chat, in order, all
    but its unread counters; the messages; and who the users are, by
    name. *)
Definition store_frame (db : Store)
    : list (ObjectId * list ObjectId * LastMessage * list ObjectId)
      * list MessageDoc * gmap ObjectId string :=
  (chat_frame <$> chats db, messages db, user_name <$> users db).

(** The client event of a typing indicator. *)
Definition typing_event (chatId : string) (isTyping : bool) : Server.ClientEvent :=
  if isTyping then Server.typing_start chatId else Server.typing_stop chatId.

(** [comparePassword] called once per (candidate, time) pair on the same
    document, with the outcomes in order. *)
Fixpoint tryPasswords (bcrypt_compare : string → string → bool)
    (tries : list (string * Z)) (this : AdminDoc) (db : AdminStore)
    : list (Outcome bool) * AdminDoc * AdminStore :=
  match tries with
  | [] => ([], this, db)
  | (candidate, now) :: rest =>
      let '(outcome, this', db') :=
        Admin.comparePassword bcrypt_compare this candidate now db in
      let '(outcomes, this'', db'') := tryPasswords bcrypt_compare rest this' db' in
      (outcome :: outcomes, this'', db'')
  end.

(** [pat] occurs in [s]. *)
Definition occurs (pat s : string) : Prop :=
  ∃ before after, s = before +:+ pat +:+ after.

(** What [validateFileUpload] accepts of one entry of the list of files. *)
Definition file_ok (toLowerCase : string → string) (envMaxFileSize : option Z)
    (file : option UploadedFile) : Prop :=
  match file with
  | None => True
  | Some f =>
      (file_size f ≤ Security.maxFileSize envMaxFileSize)%Z
      ∧ mimetype f ∈ Security.allowedMimeTypes
      ∧ (falsy (originalname f) = true
         ∨ ∀ ext, ext ∈ Security.dangerousExtensions →
             endsWith (toLowerCase (default EmptyString (originalname f))) ext
               = false)
  end.

(** The files of an upload, in the order they are checked. *)
Definition files_of (upload : Upload) : list (option UploadedFile) :=
  match upload with
  | NoUpload => []
  | FilesArray files => files
  | FilesByField fields => concat (snd <$> fields)
  | SingleFile file => [Some file]
  end.

(** ** Concrete documents and states *)

Definition chat_already_deleted : ChatDoc :=
  mkChat "c1" ["a"; "b"] (mkLast (Some "m1") (Some "hi") (Some "b") 10 false)
         [mkUnread "a" 2] ["a"].

Definition store_already_deleted : Store :=
  mkStore ∅ [chat_already_deleted] [] 0.

Definition message_liked : MessageDoc :=
  mkMessage "m1" "c1" "b" (Some "hello") [mkReaction "a" "like"]
            false None 10 false.

Definition store_liked : Store :=
  mkStore ∅ [] [message_liked] 0.

Definition chat_empty : ChatDoc :=
  mkChat "c1" ["a"; "b"] (mkLast None None None 0 false) [] [].

Definition message_one : MessageDoc :=
  mkMessage "m1" "c1" "a" (Some "first") [] false None 1 true.

Definition message_two : MessageDoc :=
  mkMessage "m2" "c1" "b" (Some "second") [] false None 2 true.

Definition store_one_chat : Store := mkStore ∅ [chat_empty] [] 0.

Definition ops_delete_latest : list MessageOp :=
  [CreateMessage message_one; CreateMessage message_two;
   SoftDeleteMessage "m2" 3].

(** A token is the identifier it carries; the token "bad" does not verify. *)
Definition jwt_example (token : string) : option ObjectId :=
  if bool_decide (token = "bad") then None else Some token.

Definition chat_ab : ChatDoc :=
  mkChat "c1" ["a"; "b"] (mkLast None None None 0 false) [] [].

(** Three connected sessions: "s1" not authenticated, "s2" of user "b" and
    "s3" of user "a", the last two joined to the room of chat "c1". *)
Definition state_three : Server.State :=
  Server.mkState
    (<["s1" := Server.mkSocket None ∅ []]>
       (<["s2" := Server.mkSocket (Some "b") {["chat_c1"]} []]>
          (<["s3" := Server.mkSocket (Some "a") {["chat_c1"]} []]> ∅)))
    (<["b" := "s2"]> (<["a" := "s3"]> ∅))
    3
    (mkStore (<["a" := mkUser "A" "online" 0]> (<["b" := mkUser "B" "online" 0]> ∅))
             [chat_ab] [] 0).

(** Three [send_message] events of the session "s2" for the chat "c1"
    that arrive in a burst: each handler is suspended at
    [Chat.findById], the store answers the three, the handlers resume and
    each sends its update, the store carries the three updates out, and
    the handlers end. *)
Definition burst_schedule : list Server.Action :=
  [Server.arrive "s2" (Server.send_message (payload "c1" "one"));
   Server.arrive "s2" (Server.send_message (payload "c1" "two"));
   Server.arrive "s2" (Server.send_message (payload "c1" "three"));
   Server.move 0; Server.move 1; Server.move 2;
   Server.move 0; Server.move 1; Server.move 2;
   Server.move 0; Server.move 1; Server.move 2;
   Server.move 0; Server.move 0; Server.move 0].

(** The serial schedule for a sequence of events: after each arrival the
    handler moves on, at most [fuel] times, before the next event
    arrives. *)
Definition run_alone (jwt_verify : string → option ObjectId) (fuel : nat)
    (evs : list (Server.SocketId * Server.ClientEvent)) (κ : Server.Config)
    : Server.Config :=
  foldl (λ κ e, Server.settle fuel (Server.arrival jwt_verify e.1 e.2 κ)) κ evs.

(** A stored message of chat "c1" that "b" has read and "a" has liked. *)
Definition message_full : MessageFull :=
  mkMessageFull
    (mkMessage "m1" "c1" "a" (Some "hello") [mkReaction "a" "like"]
               false None 10 false)
    [mkReadReceipt "b" 11] false None.

(** Chat "c1" summarises that message. *)
Definition store_full : Store :=
  mkStore ∅
    [mkChat "c1" ["a"; "b"] (mkLast (Some "m1") (Some "hello") (Some "a") 10 false)
            [] []]
    [base message_full] 0.

(** The hash of a password is the password behind a prefix. *)
Definition bcrypt_example (candidate hash : string) : bool :=
  bool_decide (hash = "hash:" +:+ candidate).

Definition jwt_sign_example (adminId : ObjectId) (name role : string) : string :=
  adminId +:+ "." +:+ name +:+ "." +:+ role.

(** Lower case of the letters A to Z. *)
Definition lower_example (s : string) : string :=
  String.string_of_list_ascii
    ((λ c, let n := Ascii.nat_of_ascii c in
           if bool_decide (65 ≤ n ≤ 90) then Ascii.ascii_of_nat (n + 32) else c)
       <$> String.list_ascii_of_string s).

Definition admin_root : AdminDoc :=
  mkAdmin "ad1" "admin" "hash:secret-pass" "admin@chatli.mn" "super_admin"
          true None 0 None.

Definition admin_store : AdminStore := mkAdminStore [admin_root] 0.

(** * Properties *)

#[local] Arguments find : simpl never.
#[local] Arguments findIndex : simpl never.
#[local] Arguments some : simpl never.

(** ** Store actions *)

Lemma bind_eq {A B} (m : Db A) (k : A → Db B) db :
  bind m k db = k (m db).1 (m db).2.
Proof. unfold bind. by destruct (m db). Qed.

(** ** Array helpers *)
Section ArrayLemmas.
Context {A : Type} (P : A → Prop) `{!∀ x, Decision (P x)}.

Lemma find_cons x l :
  find P (x :: l) = if decide (P x) then Some x else find P l.
Proof.
  unfold find. cbn. destruct (decide (P x)); [done|].
  by destruct (list_find P l) as [[i y]|].
Qed.

Lemma find_Some_holds l x : find P l = Some x → P x ∧ x ∈ l.
Proof.
  induction l as [|y l IH]; [done|]. rewrite find_cons.
  destruct (decide (P y)); intros Hf.
  - inversion Hf; subst. split; [done | left].
  - destruct (IH Hf). split; [done | by right].
Qed.

Lemma find_None_iff l : find P l = None ↔ ¬ Exists P l.
Proof.
  induction l as [|y l IH].
  - split; [|done]. intros _ Hex. inversion Hex.
  - rewrite find_cons, Exists_cons. destruct (decide (P y)) as [Hy|Hy].
    + split; [done | tauto].
    + rewrite IH. tauto.
Qed.

Lemma some_true_iff l : some P l = true ↔ Exists P l.
Proof. unfold some. apply bool_decide_eq_true. Qed.

Lemma some_false_iff l : some P l = false ↔ ¬ Exists P l.
Proof. unfold some. apply bool_decide_eq_false. Qed.

Lemma findIndex_found l : (findIndex P l >? -1)%Z = some P l.
Proof.
  unfold findIndex, some. symmetry.
  destruct (list_find P l) as [[i z]|] eqn:E.
  - replace (Z.of_nat i >? -1)%Z with true
      by (symmetry; apply Z.gtb_lt; lia).
    apply bool_decide_eq_true. apply list_find_Some in E as (Hi & Hz & _).
    apply Exists_exists. exists z. split; [|done].
    by eapply list_elem_of_lookup_2.
  - apply bool_decide_eq_false. apply list_find_None in E.
    intros (z & Hz & HPz)%Exists_exists. by eapply Forall_forall in E.
Qed.

Lemma alter_findIndex (f : A → A) l :
  Exists P l → alter f (Z.to_nat (findIndex P l)) l = updateOne P f l.
Proof.
  unfold findIndex. induction l as [|y l IH]; intros Hex; [inversion Hex|].
  cbn. destruct (decide (P y)) as [Hy|Hy]; [done|].
  apply Exists_cons in Hex as [?|Hex]; [done|]. specialize (IH Hex).
  destruct (list_find P l) as [[i z]|] eqn:E; cbn [fmap option_fmap option_map prod_map fst snd id].
  - rewrite Nat2Z.id in *. cbn. by rewrite IH.
  - apply list_find_None in E. exfalso.
    apply Exists_exists in Hex as (z & Hz & HPz).
    by eapply Forall_forall in E.
Qed.

Lemma updateOne_absent (f : A → A) l : ¬ Exists P l → updateOne P f l = l.
Proof.
  induction l as [|y l IH]; [done|]. rewrite Exists_cons. intros Hn. cbn [updateOne].
  destruct (decide (P y)); [tauto|]. rewrite IH; tauto.
Qed.

Lemma find_updateOne (f : A → A) l :
  (∀ x, P x → P (f x)) → find P (updateOne P f l) = f <$> find P l.
Proof.
  intros Hf. induction l as [|y l IH]; [done|]. cbn [updateOne].
  destruct (decide (P y)) as [Hy|Hy]; rewrite !find_cons.
  - rewrite !decide_True by auto. done.
  - rewrite !decide_False by auto. done.
Qed.

Lemma fmap_updateOne {B} (g : A → B) (f : A → A) l :
  (∀ x, g (f x) = g x) → g <$> updateOne P f l = g <$> l.
Proof.
  intros Hg. induction l as [|y l IH]; [done|]. cbn [updateOne].
  destruct (decide (P y)); cbn; by rewrite ?Hg, ?IH.
Qed.

Lemma Forall_updateOne (Q : A → Prop) (f : A → A) l :
  (∀ x, Q x → Q (f x)) → Forall Q l → Forall Q (updateOne P f l).
Proof.
  intros Hf. induction 1 as [|y l Hy Hl IH]; [constructor|]. cbn [updateOne].
  destruct (decide (P y)); constructor; auto.
Qed.

End ArrayLemmas.

Lemma find_updateOne_other {A} (P Q : A → Prop) `{!∀ x, Decision (P x)}
    `{!∀ x, Decision (Q x)} (f : A → A) l :
  (∀ x, P x → ¬ Q x ∧ ¬ Q (f x)) → find Q (updateOne P f l) = find Q l.
Proof.
  intros Hf. induction l as [|y l IH]; [done|]. cbn [updateOne].
  destruct (decide (P y)) as [Hy|Hy]; rewrite !find_cons.
  - destruct (Hf y Hy). rewrite !decide_False by auto. done.
  - destruct (decide (Q y)); [done | apply IH].
Qed.

(** ** Unread counters of a chat document *)

(** [save] resolves to the document it was called on. *)
Lemma save_doc modified this db : (Chat.save modified this db).1 = this.
Proof. by destruct modified. Qed.

Lemma set_unreadCounts_same this : set_unreadCounts this (unreadCounts this) = this.
Proof. by destruct this. Qed.

(** The document [updateUnreadCount] resolves to. *)
Lemma updateUnreadCount_doc this userId increment db :
  (Chat.updateUnreadCount this userId increment db).1 =
  set_unreadCounts this (Chat.bumpUnread userId increment (unreadCounts this)).
Proof. unfold Chat.updateUnreadCount. apply save_doc. Qed.

(** An increment always modifies the document. *)
Lemma updateUnreadCount_true this userId db :
  Chat.updateUnreadCount this userId true db =
  Chat.save true
    (set_unreadCounts this (Chat.bumpUnread userId true (unreadCounts this))) db.
Proof. unfold Chat.updateUnreadCount. by rewrite orb_true_r. Qed.

(** What [markAsRead] leaves in [this.unreadCounts]. *)
Lemma markAsRead_unreadCounts this userId db :
  unreadCounts (Chat.markAsRead this userId db).1 =
  updateOne (λ item, user item = userId) (λ item, set_count item 0)
            (unreadCounts this).
Proof.
  unfold Chat.markAsRead. rewrite findIndex_found.
  destruct (some _ (unreadCounts this)) eqn:E; cbn.
  - apply some_true_iff in E. by rewrite save_doc, alter_findIndex.
  - apply some_false_iff in E. by rewrite updateOne_absent.
Qed.

(** An entry whose count is 0 is not changed by setting it to 0. *)
Lemma alter_count_zero (l : list UnreadCount) i :
  count <$> l !! i = Some 0%Z → alter (λ item, set_count item 0) i l = l.
Proof.
  intros Hz. apply list_eq. intros j. destruct (decide (j = i)) as [->|Hne].
  - rewrite list_lookup_alter_eq. destruct (l !! i) as [[u n]|]; [|done].
    cbn in *. by injection Hz as ->.
  - by rewrite list_lookup_alter_ne.
Qed.

Lemma filter_updateOne_others userId (f : UnreadCount → UnreadCount) l :
  (∀ item, user (f item) = user item) →
  entries_of_others userId (updateOne (λ item, user item = userId) f l) =
  entries_of_others userId l.
Proof.
  intros Hf. unfold entries_of_others.
  induction l as [|e l IH]; [done|]. cbn [updateOne].
  destruct (decide (user e = userId)) as [He|He].
  - rewrite !filter_cons. rewrite !decide_False; [done|..]; rewrite ?Hf; auto.
  - rewrite !filter_cons. destruct (decide (user e ≠ userId)); by rewrite IH.
Qed.

(** What [updateUnreadCount] leaves in [this.unreadCounts], case by case. *)
Lemma bumpUnread_cases userId increment l :
  Chat.bumpUnread userId increment l =
  if some (λ item, user item = userId) l then
    updateOne (λ item, user item = userId)
      (λ item,
         let n := (count item + (if increment then 1 else -1))%Z in
         set_count item (if (n <? 0)%Z then 0%Z else n)) l
  else if increment then l ++ [mkUnread userId 1] else l.
Proof.
  unfold Chat.bumpUnread. rewrite findIndex_found.
  destruct (some _ l) eqn:E; [|done].
  apply some_true_iff in E. by rewrite alter_findIndex.
Qed.




(** C2. The explicit read acknowledgment: after [markAsRead] the user's
    unread counter reads exactly 0 whatever it was before, the entries of
    all other users are the same entries in the same order, so every
    other user's counter reads as before; and when [this] is the stored
    document of the chat, the stored document agrees with the result. *)
Theorem markAsRead_resets_only_reader (this : ChatDoc) (userId : ObjectId)
    (db : Store) :
  let this' := (Chat.markAsRead this userId db).1 in
  let db' := (Chat.markAsRead this userId db).2 in
  Chat.getUnreadCount this' userId = 0%Z ∧
  entries_of_others userId (unreadCounts this') =
    entries_of_others userId (unreadCounts this) ∧
  user <$> unreadCounts this' = user <$> unreadCounts this ∧
  (∀ other, other ≠ userId →
     Chat.getUnreadCount this' other = Chat.getUnreadCount this other) ∧
  (Chat.findById (chat_id this) db = (Some this, db) →
   (Chat.findById (chat_id this) db').1 = Some this').
Proof.
  cbn zeta. split_and!.
  - unfold Chat.getUnreadCount. rewrite markAsRead_unreadCounts.
    rewrite find_updateOne by done.
    by destruct (find _ (unreadCounts this)).
  - rewrite markAsRead_unreadCounts. by apply filter_updateOne_others.
  - rewrite markAsRead_unreadCounts. by apply fmap_updateOne.
  - intros other Hne. unfold Chat.getUnreadCount.
    rewrite markAsRead_unreadCounts.
    rewrite find_updateOne_other; [done|]. cbn. intros item ->. auto.
  - unfold Chat.findById, Chat.markAsRead. intros Hst.
    injection Hst as Hst. destruct (_ >? _)%Z; cbn; [|done].
    case_bool_decide as Hm; cbn.
    + rewrite find_updateOne by done. by rewrite Hst.
    + by rewrite alter_count_zero, set_unreadCounts_same.
Qed.

Lemma markAsRead_resets_only_reader_witness :
  let this := mkChat "c1" ["a"; "b"] (mkLast None None None 0 false)
                     [mkUnread "a" 4; mkUnread "b" 7] [] in
  let db := mkStore ∅ [this] [] 0 in
  Chat.getUnreadCount (Chat.markAsRead this "b" db).1 "b" = 0%Z ∧
  Chat.getUnreadCount (Chat.markAsRead this "b" db).1 "a" = 4%Z ∧
  (Chat.findById "c1" (Chat.markAsRead this "b" db).2).1 =
    Some (Chat.markAsRead this "b" db).1.
Proof.
  intros this db.
  destruct (markAsRead_resets_only_reader this "b" db) as (H0 & _ & _ & Ha & Hst).
  split_and!.
  - exact H0.
  - rewrite (Ha "a"); [reflexivity | discriminate].
  - apply Hst. reflexivity.
Defined.



(** C10. When [unreadCounts] has no entry for the user, [markAsRead]
    issues no write and returns the document as it is: the store and the
    document are both unchanged. *)
Theorem markAsRead_absent_is_noop (this : ChatDoc) (userId : ObjectId)
    (db : Store) :
  find (λ item, user item = userId) (unreadCounts this) = None →
  Chat.markAsRead this userId db = (this, db).
Proof.
  intros Hnone. unfold Chat.markAsRead. rewrite findIndex_found.
  apply find_None_iff in Hnone.
  by rewrite (proj2 (some_false_iff (λ item, user item = userId) _) Hnone).
Qed.

Lemma markAsRead_absent_is_noop_witness :
  let this := mkChat "c1" ["a"; "b"] (mkLast None None None 0 false)
                     [mkUnread "a" 4] [] in
  let db := mkStore ∅ [this] [] 3 in
  Chat.markAsRead this "b" db = (this, db).
Proof.
  intros this db. apply (markAsRead_absent_is_noop this "b" db). reflexivity.
Defined.

(** ** Soft delete and restore of a chat *)

Lemma set_deletedBy_same this : set_deletedBy this (deletedBy this) = this.
Proof. by destruct this. Qed.

Lemma deleteForUser_doc this A db :
  (Chat.deleteForUser this A db).1 =
  set_deletedBy this
    (if some (λ id, id = A) (deletedBy this) then deletedBy this
     else deletedBy this ++ [A]).
Proof.
  unfold Chat.deleteForUser.
  destruct (some _ (deletedBy this)); cbn; [by rewrite set_deletedBy_same | done].
Qed.

Lemma filter_ne_absent (A : ObjectId) (l : list ObjectId) :
  ¬ Exists (λ id, id = A) l → filter (λ id, id ≠ A) l = l.
Proof.
  induction l as [|x l IH]; [done|]. rewrite Exists_cons. intros Hn.
  rewrite filter_cons. rewrite decide_True by tauto. rewrite IH; tauto.
Qed.

Lemma restoreForUser_doc this A db :
  (Chat.restoreForUser this A db).1 =
  set_deletedBy this (filter (λ id, id ≠ A) (deletedBy this)).
Proof.
  unfold Chat.restoreForUser.
  destruct (some _ (deletedBy this)) eqn:E; cbn; [done|].
  apply some_false_iff in E. rewrite filter_ne_absent by done.
  by rewrite set_deletedBy_same.
Qed.

Lemma deleteThenRestore_doc this A db :
  (deleteThenRestore this A db).1 =
  set_deletedBy this (filter (λ id, id ≠ A) (deletedBy this)).
Proof.
  unfold deleteThenRestore. rewrite bind_eq, restoreForUser_doc.
  rewrite deleteForUser_doc. unfold set_deletedBy. cbn. f_equal.
  destruct (some _ (deletedBy this)); [done|].
  rewrite filter_app, filter_cons, decide_False by (intros H; by apply H).
  by rewrite filter_nil, app_nil_r.
Qed.

(** C7, as stated, fails for a chat that user A had already soft-deleted:
    [deleteForUser] then finds A in [deletedBy] and changes nothing, and
    [restoreForUser] removes A, so [deletedBy] does not come back to its
    prior value. *)
Lemma deleteThenRestore_not_prior_value :
  deletedBy (deleteThenRestore chat_already_deleted "a"
               store_already_deleted).1 = []
  ∧ deletedBy chat_already_deleted = ["a"]
  ∧ deletedBy (deleteThenRestore chat_already_deleted "a"
                 store_already_deleted).1
    ≠ deletedBy chat_already_deleted.
Proof. split_and!; [reflexivity | reflexivity | discriminate]. Qed.

(** C7, amended. Across [deleteForUser] then [restoreForUser] for user A
    the participants, the last-message summary and every unread counter
    entry stay as they were, after the delete and after the restore; only
    [deletedBy] changes, and it ends as the prior list without A. It is
    back to its prior value exactly when A had not soft-deleted the chat
    before, and then the whole document is as before the cycle. *)
Theorem deleteThenRestore_frame (this : ChatDoc) (A : ObjectId) (db : Store) :
  let mid := (Chat.deleteForUser this A db).1 in
  let this' := (deleteThenRestore this A db).1 in
  (chat_id mid = chat_id this ∧ participants mid = participants this ∧
   lastMessage mid = lastMessage this ∧ unreadCounts mid = unreadCounts this) ∧
  (chat_id this' = chat_id this ∧ participants this' = participants this ∧
   lastMessage this' = lastMessage this ∧ unreadCounts this' = unreadCounts this) ∧
  deletedBy this' = filter (λ id, id ≠ A) (deletedBy this) ∧
  (A ∉ deletedBy this → this' = this) ∧
  (A ∈ deletedBy this → deletedBy this' ≠ deletedBy this).
Proof.
  cbn zeta. rewrite deleteThenRestore_doc, deleteForUser_doc.
  split_and!; try done.
  - intros Hn. rewrite filter_ne_absent; [apply set_deletedBy_same|].
    intros (x & Hx & ->)%Exists_exists. done.
  - intros Hin Heq. cbn in Heq. rewrite <- Heq in Hin.
    apply list_elem_of_filter in Hin as [Hne _]. by apply Hne.
Qed.

Lemma deleteThenRestore_frame_witness :
  let this := mkChat "c1" ["a"; "b"]
                (mkLast (Some "m1") (Some "hi") (Some "b") 10 false)
                [mkUnread "a" 2] ["b"] in
  let db := mkStore ∅ [this] [] 0 in
  (deleteThenRestore this "a" db).1 = this.
Proof.
  intros this db.
  destruct (deleteThenRestore_frame this "a" db) as (_ & _ & _ & Hback & _).
  apply Hback. apply (bool_decide_unpack _). by vm_compute.
Defined.

(** ** Saving a message *)

(** [save] of a loaded document whose modified paths pass validation:
    the hook does nothing and the stored document is replaced. *)
Lemma message_save_stored modified m db :
  isNew m = false →
  forallb (Message.validPath m) modified = true →
  Message.save modified m db =
  (Resolved (Message.set_isNew m false),
   mkStore (users db) (chats db)
     (updateOne (λ m', msg_id m' = msg_id m) (λ _, Message.set_isNew m false)
                (messages db))
     (S (writes db))).
Proof.
  intros Hn Hv. unfold Message.save, Message.validate.
  rewrite Hn, Hv, bind_eq. unfold Message.preSave, Message.store. by rewrite Hn.
Qed.

(** [save] of a document that fails validation. *)
Lemma message_save_refused modified m db :
  Message.validate modified m = false →
  Message.save modified m db = (Rejected m, db).
Proof. intros Hv. unfold Message.save. by rewrite Hv. Qed.

(** Whatever [save] comes to, the document in memory keeps its fields. *)
Lemma message_save_doc modified m db :
  Message.set_isNew (saved_doc (Message.save modified m db).1) (isNew m) = m.
Proof.
  unfold Message.save. destruct (Message.validate modified m); [|by destruct m].
  rewrite bind_eq. unfold Message.store.
  destruct (isNew m) eqn:Hn; [destruct (some _ _)|]; cbn;
    destruct m; cbn in *; by subst.
Qed.

Lemma validPath_reactions m :
  Message.validPath m Message.path_reactions = true ↔
  Forall (λ reaction, emoji reaction ≠ EmptyString) (reactions m).
Proof.
  cbn. induction (reactions m) as [|r l IH]; [done|]. cbn.
  rewrite andb_true_iff, Forall_cons, IH, negb_true_iff, bool_decide_eq_false.
  done.
Qed.

(** ** Reactions of a message *)

Lemma addReaction_eq this u e db :
  Message.addReaction this u e db =
  Message.save [Message.path_reactions]
    (Message.set_reactions this (toggled u e (reactions this))) db.
Proof.
  unfold Message.addReaction, toggled.
  destruct (find _ (reactions this)) as [r|] eqn:E.
  - apply find_Some_holds in E as [Hr Hin].
    assert (Exists (λ r, r_user r = u ∧ emoji r = e) (reactions this)) as Hex
      by (apply Exists_exists; eauto).
    by rewrite (proj2 (some_true_iff (λ r, r_user r = u ∧ emoji r = e) _) Hex).
  - apply find_None_iff in E.
    by rewrite (proj2 (some_false_iff (λ r, r_user r = u ∧ emoji r = e) _) E).
Qed.

Lemma reactions_of_drop_user u l :
  reactions_of u (filter (λ reaction, r_user reaction ≠ u) l) = [].
Proof.
  unfold reactions_of. induction l as [|r l IH]; [done|].
  rewrite filter_cons. destruct (decide (r_user r ≠ u)); [|done].
  rewrite filter_cons. by rewrite decide_False by done.
Qed.

Lemma reactions_of_drop_other u v l :
  v ≠ u →
  reactions_of v (filter (λ reaction, r_user reaction ≠ u) l) = reactions_of v l.
Proof.
  intros Hne. unfold reactions_of. induction l as [|r l IH]; [done|].
  rewrite !filter_cons. destruct (decide (r_user r ≠ u)) as [H1|H1].
  - rewrite filter_cons. by rewrite IH.
  - rewrite decide_False; [done|]. intros Hv. apply H1. congruence.
Qed.

Lemma reactions_of_empty_drop u (l : list Reaction) :
  reactions_of u l = [] → filter (λ reaction, r_user reaction ≠ u) l = l.
Proof.
  unfold reactions_of. induction l as [|r l IH]; [done|].
  rewrite !filter_cons. destruct (decide (r_user r = u)) as [H1|H1]; [done|].
  intros ?. rewrite decide_True by done. by rewrite IH.
Qed.

Lemma drop_pair_after_drop_user u e (l : list Reaction) :
  filter (λ reaction, ¬ (r_user reaction = u ∧ emoji reaction = e))
         (filter (λ reaction, r_user reaction ≠ u) l)
  = filter (λ reaction, r_user reaction ≠ u) l.
Proof.
  induction l as [|r l IH]; [done|].
  rewrite (filter_cons (λ reaction, r_user reaction ≠ u)).
  destruct (decide (r_user r ≠ u)) as [H1|H1]; [|done].
  rewrite filter_cons, decide_True by tauto. by rewrite IH.
Qed.

Lemma some_pair_after_drop_pair u e (l : list Reaction) :
  some (λ reaction, r_user reaction = u ∧ emoji reaction = e)
       (filter (λ reaction, ¬ (r_user reaction = u ∧ emoji reaction = e)) l)
  = false.
Proof.
  apply some_false_iff. intros (r & Hin & Hr)%Exists_exists.
  apply list_elem_of_filter in Hin as [Hn _]. by apply Hn.
Qed.

Lemma some_pair_after_push u e (l : list Reaction) :
  some (λ reaction, r_user reaction = u ∧ emoji reaction = e)
       (l ++ [mkReaction u e]) = true.
Proof.
  apply some_true_iff, Exists_app. right. by left.
Qed.

Lemma reactions_of_push u e l :
  reactions_of u (filter (λ reaction, r_user reaction ≠ u) l ++ [mkReaction u e])
  = [mkReaction u e].
Proof.
  unfold reactions_of. rewrite filter_app.
  fold (reactions_of u (filter (λ reaction, r_user reaction ≠ u) l)).
  rewrite reactions_of_drop_user, app_nil_l, filter_cons.
  by rewrite decide_True by done.
Qed.

Lemma toggled_twice_absent u e l :
  some (λ reaction, r_user reaction = u ∧ emoji reaction = e) l = false →
  toggled u e (toggled u e l) = filter (λ reaction, r_user reaction ≠ u) l.
Proof.
  intros Habs. unfold toggled at 2. rewrite Habs.
  unfold toggled. rewrite some_pair_after_push.
  rewrite filter_app, drop_pair_after_drop_user.
  rewrite filter_cons, decide_False by (cbn; tauto).
  by rewrite filter_nil, app_nil_r.
Qed.

Lemma toggled_twice_present u e l :
  some (λ reaction, r_user reaction = u ∧ emoji reaction = e) l = true →
  reactions_of u (toggled u e (toggled u e l)) = [mkReaction u e].
Proof.
  intros Hpre. unfold toggled at 2. rewrite Hpre.
  unfold toggled. rewrite some_pair_after_drop_pair.
  apply reactions_of_push.
Qed.

Lemma reactions_of_filter_comm v (Q : Reaction → Prop) `{!∀ x, Decision (Q x)}
    (l : list Reaction) :
  reactions_of v (filter Q l) = filter Q (reactions_of v l).
Proof.
  unfold reactions_of. rewrite !list_filter_filter.
  apply list_filter_iff. tauto.
Qed.

Lemma one_reaction_each_toggled u e l :
  one_reaction_each l → one_reaction_each (toggled u e l).
Proof.
  intros Hl v. unfold toggled.
  destruct (some _ l).
  - rewrite reactions_of_filter_comm.
    etrans; [apply length_filter | apply (Hl v)].
  - destruct (decide (v = u)) as [->|Hne].
    + by rewrite reactions_of_push.
    + unfold reactions_of. rewrite filter_app.
      fold (reactions_of v (filter (λ reaction, r_user reaction ≠ u) l)).
      rewrite reactions_of_drop_other by done.
      rewrite filter_cons, decide_False by (cbn; congruence).
      rewrite filter_nil, app_nil_r. apply (Hl v).
Qed.

Lemma toggled_emojis u e l :
  e ≠ EmptyString →
  Forall (λ reaction, emoji reaction ≠ EmptyString) l →
  Forall (λ reaction, emoji reaction ≠ EmptyString) (toggled u e l).
Proof.
  intros He Hl. unfold toggled. destruct (some _ l).
  - apply Forall_forall. intros r [_ Hin]%list_elem_of_filter.
    by eapply Forall_forall in Hl.
  - apply Forall_app. split; [|by repeat constructor].
    apply Forall_forall. intros r [_ Hin]%list_elem_of_filter.
    by eapply Forall_forall in Hl.
Qed.

(** [addReaction] on a loaded message that satisfies the schema, with an
    emoji that is not empty: the call resolves to the stored document,
    which is again loaded and valid. *)
Lemma addReaction_resolves this u e db :
  isNew this = false → Message.valid this = true → e ≠ EmptyString →
  Message.addReaction this u e db =
  (Resolved (reacted this u e),
   mkStore (users db) (chats db)
     (updateOne (λ m', msg_id m' = msg_id this) (λ _, reacted this u e)
                (messages db))
     (S (writes db)))
  ∧ isNew (reacted this u e) = false ∧ Message.valid (reacted this u e) = true.
Proof.
  intros Hn Hv He. unfold Message.valid in Hv.
  apply andb_true_iff in Hv as [Htext Hreact].
  assert (Message.validPath
            (Message.set_reactions this (toggled u e (reactions this)))
            Message.path_reactions = true) as Hok.
  { apply validPath_reactions. cbn [reactions Message.set_reactions].
    apply toggled_emojis; [done|]. by apply validPath_reactions. }
  split_and!.
  - rewrite addReaction_eq, message_save_stored; [done | done |].
    cbn [forallb]. by rewrite Hok.
  - done.
  - unfold Message.valid. apply andb_true_iff. split; [exact Htext | exact Hok].
Qed.

(** An empty emoji that the user does not hold is refused: the reaction
    is in the document in memory and nothing is written. *)
Lemma addReaction_empty_refused this u db :
  isNew this = false →
  some (λ reaction, r_user reaction = u ∧ emoji reaction = EmptyString)
       (reactions this) = false →
  Message.addReaction this u EmptyString db =
  (Rejected (Message.set_reactions this
               (filter (λ reaction, r_user reaction ≠ u) (reactions this)
                ++ [mkReaction u EmptyString])),
   db).
Proof.
  intros Hn Hheld. rewrite addReaction_eq. unfold toggled. rewrite Hheld.
  apply message_save_refused. unfold Message.validate.
  cbn [isNew Message.set_reactions]. rewrite Hn. cbn [forallb].
  apply andb_false_iff. left. apply not_true_iff_false.
  rewrite validPath_reactions. cbn [reactions Message.set_reactions].
  rewrite Forall_app, Forall_singleton. intros [_ Hne]. by apply Hne.
Qed.

Lemma addReactionTwice_resolves this u e db :
  isNew this = false → Message.valid this = true → e ≠ EmptyString →
  ∃ db', addReactionTwice this u e db
         = (Resolved (reacted (reacted this u e) u e), db').
Proof.
  intros Hn Hv He. unfold addReactionTwice, and_then.
  destruct (addReaction_resolves this u e db Hn Hv He) as (-> & Hn1 & Hv1).
  destruct (addReaction_resolves (reacted this u e) u e
              (mkStore (users db) (chats db)
                 (updateOne (λ m', msg_id m' = msg_id this) (λ _, reacted this u e)
                            (messages db))
                 (S (writes db))) Hn1 Hv1 He) as (-> & _).
  eauto.
Qed.

Lemma addReactions_resolves calls : ∀ this db,
  isNew this = false → Message.valid this = true →
  Forall (λ call : ObjectId * string, call.2 ≠ EmptyString) calls →
  ∃ after, (addReactions calls this db).1 = Resolved after
    ∧ (one_reaction_each (reactions this) → one_reaction_each (reactions after)).
Proof.
  induction calls as [|[u e] calls IH]; intros this db Hn Hv Hall.
  - exists this. by split.
  - apply Forall_cons in Hall as [He Hall]. cbn [addReactions fst snd].
    unfold and_then.
    destruct (addReaction_resolves this u e db Hn Hv He) as (-> & Hn1 & Hv1).
    destruct (IH (reacted this u e)
                 (mkStore (users db) (chats db)
                    (updateOne (λ m', msg_id m' = msg_id this)
                               (λ _, reacted this u e) (messages db))
                    (S (writes db))) Hn1 Hv1 Hall) as (after & Hafter & Hone).
    exists after. split; [exact Hafter|]. intros Hok. apply Hone.
    cbn. by apply one_reaction_each_toggled.
Qed.

(** C6, as stated, fails for a participant who already holds the emoji:
    the first [addReaction] toggles it off and the second puts it back,
    so the participant ends with one reaction, not zero. *)
Lemma addReactionTwice_not_zero :
  saved_map (λ m, reactions_of "a" (reactions m))
            (addReactionTwice message_liked "a" "like" store_liked).1
  = Resolved [mkReaction "a" "like"]
  ∧ [mkReaction "a" "like"] ≠ [].
Proof. split; [reflexivity | discriminate]. Qed.

(** C6, amended. For every message that is in the store and satisfies
    its schema, every participant and every emoji that is not the empty
    string, the [addReaction] calls below resolve, and:
    - if the participant does not hold that emoji on the message, two
      [addReaction] calls with it leave the participant with zero
      reactions, and the reactions of the message are the prior ones of
      the other participants (the prior list itself when the participant
      held none);
    - if the participant does hold that emoji, the two calls toggle it
      off and on again and the participant ends with exactly that one;
    - one [addReaction] with an emoji the participant does not hold
      replaces whatever the participant held by that single reaction;
    - so a message with at most one reaction per participant (an empty
      list in particular) still has at most one per participant after
      any sequence of [addReaction] calls with such emojis. *)
Theorem addReaction_toggle_replace (this : MessageDoc) (u : ObjectId)
    (e : string) (db : Store) (calls : list (ObjectId * string)) :
  isNew this = false →
  is_Some (Message.findById (msg_id this) db).1 →
  Message.valid this = true →
  e ≠ EmptyString →
  Forall (λ call : ObjectId * string, call.2 ≠ EmptyString) calls →
  let held := some (λ reaction, r_user reaction = u ∧ emoji reaction = e)
                   (reactions this) in
  ∃ once twice after,
    (Message.addReaction this u e db).1 = Resolved once
    ∧ (addReactionTwice this u e db).1 = Resolved twice
    ∧ (addReactions calls this db).1 = Resolved after
    ∧ (held = false →
       reactions_of u (reactions twice) = [] ∧
       reactions twice = filter (λ reaction, r_user reaction ≠ u) (reactions this) ∧
       (reactions_of u (reactions this) = [] → reactions twice = reactions this))
    ∧ (held = true → reactions_of u (reactions twice) = [mkReaction u e])
    ∧ (held = false →
       reactions_of u (reactions once) = [mkReaction u e] ∧
       ∀ v, v ≠ u → reactions_of v (reactions once) = reactions_of v (reactions this))
    ∧ (one_reaction_each (reactions this) → one_reaction_each (reactions after))
    ∧ one_reaction_each [].
Proof.
  intros Hn _ Hv He Hall. cbn zeta.
  destruct (addReaction_resolves this u e db Hn Hv He) as (Honce & _).
  destruct (addReactionTwice_resolves this u e db Hn Hv He) as (db2 & Htwice).
  destruct (addReactions_resolves calls this db Hn Hv Hall) as (after & Hafter & Hone).
  exists (reacted this u e), (reacted (reacted this u e) u e), after.
  rewrite Honce, Htwice. cbn [fst reactions reacted Message.set_reactions
                               Message.set_isNew].
  split_and!; try done.
  - intros Habs. rewrite toggled_twice_absent by done. split_and!.
    + apply reactions_of_drop_user.
    + done.
    + apply reactions_of_empty_drop.
  - apply toggled_twice_present.
  - intros Habs. unfold toggled. rewrite Habs. split.
    + apply reactions_of_push.
    + intros v Hne. unfold reactions_of. rewrite filter_app.
      fold (reactions_of v (filter (λ reaction, r_user reaction ≠ u)
                                   (reactions this))).
      rewrite reactions_of_drop_other by done.
      rewrite filter_cons, decide_False by (cbn; congruence).
      by rewrite filter_nil, app_nil_r.
  - intros v. cbn. lia.
Qed.

Lemma addReaction_toggle_replace_witness :
  let this := mkMessage "m1" "c1" "b" (Some "hello")
                [mkReaction "a" "like"; mkReaction "b" "wow"]
                false None 10 false in
  let db := mkStore ∅ [] [this] 0 in
  saved_map (λ m, reactions_of "a" (reactions m))
            (addReactionTwice this "a" "heart" db).1 = Resolved []
  ∧ saved_map (λ m, reactions_of "a" (reactions m))
              (Message.addReaction this "a" "heart" db).1
    = Resolved [mkReaction "a" "heart"]
  ∧ ∃ after,
      (addReactions [("a", "heart"); ("b", "wow"); ("a", "like")] this db).1
        = Resolved after
      ∧ one_reaction_each (reactions after).
Proof.
  intros this db.
  destruct (addReaction_toggle_replace this "a" "heart" db
              [("a", "heart"); ("b", "wow"); ("a", "like")])
    as (once & twice & after & Honce & Htwice & Hafter & Habs & _ & Hrep & Hone & _).
  - reflexivity.
  - eexists. reflexivity.
  - reflexivity.
  - discriminate.
  - repeat constructor; discriminate.
  - split_and!.
    + rewrite Htwice. cbn [saved_map]. f_equal. apply Habs. reflexivity.
    + rewrite Honce. cbn [saved_map]. f_equal. apply Hrep. reflexivity.
    + exists after. split; [exact Hafter|]. apply Hone.
      intros v. unfold reactions_of, this. cbn [reactions].
      rewrite !filter_cons, filter_nil. cbn [r_user].
      repeat case_decide; try congruence; cbn; lia.
Defined.

(** ** The last-message summary of a chat *)

(** C5, as stated, fails once the latest message is soft-deleted: the
    summary keeps naming the deleted message while the most recently
    created message that is not deleted is the one before it. *)
Lemma lastMessage_names_deleted_message :
  let db' := (applyOps ops_delete_latest store_one_chat).2 in
  (lm_id ∘ lastMessage <$> (Chat.findById "c1" db').1) = Some (Some "m2")
  ∧ latest_live "c1" db' = Some "m1"
  ∧ (isDeleted <$> (Message.findById "m2" db').1) = Some true.
Proof. split_and!; reflexivity. Qed.

Lemma message_save_chats modified m db :
  chats (Message.save modified m db).2 =
  if Message.validate modified m && isNew m && negb (isDeleted m)
  then updateOne (λ c, chat_id c = chat m) (λ c, set_lastMessage c (summary m))
                 (chats db)
  else chats db.
Proof.
  unfold Message.save. destruct (Message.validate modified m); [|done].
  rewrite bind_eq. unfold Message.preSave, Message.store.
  destruct (isNew m) eqn:En; destruct (isDeleted m) eqn:Ed; cbn;
    rewrite ?En; try done; by destruct (some _ _).
Qed.

Lemma applyOp_chats op db :
  chats (applyOp op db).2 =
  match op with
  | CreateMessage doc =>
      if Message.valid doc && negb (isDeleted doc)
      then updateOne (λ c, chat_id c = chat doc)
                     (λ c, set_lastMessage c (summary doc)) (chats db)
      else chats db
  | SoftDeleteMessage _ _ => chats db
  end.
Proof.
  destruct op as [doc|id now]; unfold applyOp; rewrite bind_eq.
  - cbn [ret snd]. rewrite message_save_chats. unfold Message.validate.
    cbn [isNew Message.set_isNew isDeleted].
    assert (Message.valid (Message.set_isNew doc true) = Message.valid doc) as ->
      by done.
    by rewrite andb_true_r.
  - unfold Message.findById at 1. cbn [fst snd].
    destruct (find _ (messages db)) as [m|]; [|done].
    cbn [fmap option_fmap option_map]. rewrite bind_eq. cbn [ret snd].
    unfold Message.softDelete. rewrite message_save_chats.
    cbn [isNew Message.set_isNew Message.set_deleted]. by rewrite andb_false_r.
Qed.

Lemma set_lastMessage_same c : set_lastMessage c (lastMessage c) = c.
Proof. by destruct c. Qed.

Lemma applyOp_findChat op cid db c :
  (Chat.findById cid db).1 = Some c →
  (Chat.findById cid (applyOp op db).2).1 =
    Some (set_lastMessage c
            (match created_live cid [op] with
             | m :: _ => summary m
             | [] => lastMessage c
             end)).
Proof.
  unfold Chat.findById. cbn [fst]. intros Hc. rewrite applyOp_chats.
  destruct op as [doc|id now]; cbn [created_live omap list_omap].
  - destruct (decide (Message.valid doc = true
                      ∧ chat doc = cid ∧ isDeleted doc = false))
      as [(Hv & Hcid & Hd)|Hn].
    + rewrite Hv, Hd. cbn [negb andb]. subst cid.
      rewrite find_updateOne by done. by rewrite Hc.
    + destruct (Message.valid doc) eqn:Hv; cbn [andb];
        [|by rewrite Hc, set_lastMessage_same].
      destruct (isDeleted doc) eqn:Hd; cbn [negb].
      * by rewrite Hc, set_lastMessage_same.
      * rewrite find_updateOne_other.
        -- by rewrite Hc, set_lastMessage_same.
        -- cbn. intros x Hx. split; intros Hq; apply Hn; split_and!; congruence.
  - by rewrite Hc, set_lastMessage_same.
Qed.

Lemma applyOps_cons op ops db :
  applyOps (op :: ops) db = applyOps ops (applyOp op db).2.
Proof.
  unfold applyOps. cbn [forOf]. rewrite bind_eq. by destruct (applyOp op db).1.
Qed.

Lemma created_live_single cid op :
  created_live cid [op] = [] ∨ ∃ m, created_live cid [op] = [m].
Proof.
  destruct op as [doc|id now]; cbn; [|by left].
  destruct (decide _); [right; by exists doc | by left].
Qed.

(** C5, amended. After any sequence of message creations and soft-deletes
    the chat's [lastMessage] is the summary of the most recently created
    message of that chat that was not deleted when it was created (the
    prior summary if there is none), and the rest of the chat document is
    as before; a soft-delete leaves every chat document as it is.  A
    creation that the validators of the schema refuse creates no message
    and leaves [lastMessage] as it is. *)
Theorem lastMessage_tracks_creations (ops : list MessageOp) (cid : ObjectId)
    (db : Store) (c : ChatDoc) :
  (Chat.findById cid db).1 = Some c →
  (Chat.findById cid (applyOps ops db).2).1 =
    Some (set_lastMessage c
            (match last (created_live cid ops) with
             | Some m => summary m
             | None => lastMessage c
             end))
  ∧ (∀ id now, chats (applyOp (SoftDeleteMessage id now) db).2 = chats db)
  ∧ (∀ doc, Message.valid doc = false → (applyOp (CreateMessage doc) db).2 = db).
Proof.
  intros Hc. split_and!; [|intros; apply applyOp_chats|].
  2:{ intros doc Hv. unfold applyOp. rewrite bind_eq.
      by rewrite message_save_refused. }
  revert db c Hc. induction ops as [|op ops IH]; intros db c Hc.
  - cbn. by rewrite set_lastMessage_same.
  - rewrite applyOps_cons.
    rewrite (IH _ _ (applyOp_findChat op cid db c Hc)).
    change (op :: ops) with ([op] ++ ops). unfold created_live.
    rewrite omap_app. fold (created_live cid [op]) (created_live cid ops).
    destruct (created_live_single cid op) as [->|[m ->]].
    + by rewrite set_lastMessage_same.
    + cbn [app]. rewrite last_cons.
      by destruct (last (created_live cid ops)).
Qed.

Lemma lastMessage_tracks_creations_witness :
  (Chat.findById "c1" (applyOps ops_delete_latest store_one_chat).2).1 =
    Some (set_lastMessage chat_empty (summary message_two)).
Proof.
  destruct (lastMessage_tracks_creations ops_delete_latest "c1"
              store_one_chat chat_empty) as (H & _); [reflexivity | exact H].
Defined.

(** ** The socket handlers *)
Section ServerProps.
Import Server.
Variable jwt_verify : string → option ObjectId.

Lemma lookup_broadcast_emit sid ev (ss : gmap SocketId Socket) t :
  broadcast_emit sid ev ss !! t =
  (λ s, if bool_decide (t = sid) then s else deliver ev s) <$> ss !! t.
Proof.
  unfold broadcast_emit. rewrite map_lookup_imap. by destruct (ss !! t).
Qed.

Lemma lookup_to_emit sid room ev (ss : gmap SocketId Socket) t :
  to_emit sid room ev ss !! t =
  (λ s, if bool_decide (t ≠ sid ∧ room ∈ sock_rooms s) then deliver ev s else s)
    <$> ss !! t.
Proof.
  unfold to_emit. rewrite map_lookup_imap. by destruct (ss !! t).
Qed.

(** The chat documents after the loop of the [send_message] handler. *)
Lemma forOf_updateUnreadCount others : ∀ chat db,
  (Chat.findById (chat_id chat) db).1 = Some chat →
  let r := forOf others
             (λ chat participantId, Chat.updateUnreadCount chat participantId true)
             chat db in
  r.1 = set_unreadCounts chat
          (foldl (λ l p, Chat.bumpUnread p true l) (unreadCounts chat) others)
  ∧ (Chat.findById (chat_id chat) r.2).1 = Some r.1
  ∧ users r.2 = users db ∧ messages r.2 = messages db
  ∧ ∀ id, id ≠ chat_id chat →
      (Chat.findById id r.2).1 = (Chat.findById id db).1.
Proof.
  induction others as [|p others IH]; intros chat db Hst; cbn zeta.
  - cbn. split_and!; try done. by destruct chat.
  - cbn [forOf]. rewrite bind_eq.
    rewrite updateUnreadCount_true.
    set (chat1 := set_unreadCounts chat (Chat.bumpUnread p true (unreadCounts chat))).
    assert ((Chat.save true chat1 db).1 = chat1) as -> by done.
    set (db1 := (Chat.save true chat1 db).2).
    assert (chat_id chat1 = chat_id chat) as Hid by done.
    assert ((Chat.findById (chat_id chat1) db1).1 = Some chat1) as Hst1.
    { unfold Chat.findById in *. cbn [fst] in *. subst db1. cbn.
      rewrite find_updateOne by done. by rewrite Hst. }
    destruct (IH chat1 db1 Hst1) as (H1 & H2 & H3 & H4 & H5).
    rewrite Hid in *. split_and!; try done.
    intros id Hne. rewrite H5 by done. unfold Chat.findById. subst db1. cbn.
    apply find_updateOne_other. cbn. intros x ->. auto.
Qed.

Lemma find_app {A} (P : A → Prop) `{!∀ x, Decision (P x)} (l1 l2 : list A) :
  find P (l1 ++ l2) =
  match find P l1 with Some x => Some x | None => find P l2 end.
Proof.
  induction l1 as [|x l1 IH]; [done|]. cbn [app]. rewrite !find_cons.
  by destruct (decide (P x)).
Qed.

Lemma unreadOf_bump_same p l :
  Forall (λ item, (0 ≤ count item)%Z) l →
  unreadOf (Chat.bumpUnread p true l) p = (unreadOf l p + 1)%Z.
Proof.
  intros Hpos. unfold unreadOf. rewrite bumpUnread_cases.
  destruct (some _ l) eqn:E.
  - rewrite find_updateOne by done.
    destruct (find _ l) as [item|] eqn:F.
    + cbn. apply find_Some_holds in F as [_ Hin].
      eapply Forall_forall in Hpos; [|done].
      destruct (_ <? 0)%Z eqn:G; [|done]. apply Z.ltb_lt in G. lia.
    + apply find_None_iff in F. apply some_true_iff in E. done.
  - rewrite find_app. apply some_false_iff in E.
    rewrite (proj2 (find_None_iff (λ item, user item = p) l) E).
    rewrite find_cons. by rewrite decide_True by done.
Qed.

Lemma unreadOf_bump_other p q increment l :
  p ≠ q → unreadOf (Chat.bumpUnread q increment l) p = unreadOf l p.
Proof.
  intros Hne. unfold unreadOf. rewrite bumpUnread_cases.
  destruct (some _ l) eqn:E.
  - rewrite find_updateOne_other; [done|]. cbn. intros x ->. auto.
  - destruct increment; [|done]. rewrite find_app.
    destruct (find _ l); [done|]. rewrite find_cons.
    by rewrite decide_False by (cbn; congruence).
Qed.

Lemma counts_nonneg_bump userId increment l :
  Forall (λ item, (0 ≤ count item)%Z) l →
  Forall (λ item, (0 ≤ count item)%Z) (Chat.bumpUnread userId increment l).
Proof.
  intros Hpos. rewrite bumpUnread_cases. destruct (some _ l).
  - apply Forall_updateOne; [|done]. intros item _. cbn.
    destruct (_ <? 0)%Z eqn:F; cbn; [done|]. by apply Z.ltb_ge in F.
  - destruct increment; [|done]. apply Forall_app. split; [done|].
    by repeat constructor.
Qed.

Lemma unreadOf_bump_all others : ∀ l p,
  NoDup others → Forall (λ item, (0 ≤ count item)%Z) l →
  let l' := foldl (λ l p, Chat.bumpUnread p true l) l others in
  Forall (λ item, (0 ≤ count item)%Z) l' ∧
  unreadOf l' p = (unreadOf l p + if bool_decide (p ∈ others) then 1 else 0)%Z.
Proof.
  induction others as [|q others IH]; intros l p Hnd Hok; cbn zeta.
  - cbn. split; [done|]. rewrite bool_decide_eq_false_2; [lia | set_solver].
  - cbn [foldl]. apply NoDup_cons in Hnd as [Hq Hnd].
    destruct (IH (Chat.bumpUnread q true l) p Hnd (counts_nonneg_bump q true l Hok))
      as [Hok' Hcount].
    split; [done|]. rewrite Hcount.
    destruct (decide (p = q)) as [->|Hne].
    + rewrite unreadOf_bump_same by done.
      rewrite (bool_decide_eq_false_2 (q ∈ others)) by done.
      rewrite bool_decide_eq_true_2 by left. lia.
    + rewrite unreadOf_bump_other by done.
      destruct (decide (p ∈ others)) as [Hin|Hin].
      * rewrite !bool_decide_eq_true_2; [done | by right | done].
      * rewrite !bool_decide_eq_false_2; [done | | done].
        intros [?|?]%elem_of_cons; done.
Qed.

Lemma getUnreadCount_unreadOf c p :
  Chat.getUnreadCount c p = unreadOf (unreadCounts c) p.
Proof. done. Qed.

Lemma on_send_message_db sid socket chatId message σ :
  db (on_send_message sid socket (payload chatId message) σ) =
  match find (λ c, chat_id c = chatId) (chats (db σ)) with
  | Some chat =>
      (forOf (otherParticipants (sock_userId socket) chat)
             (λ chat participantId, Chat.updateUnreadCount chat participantId true)
             chat (db σ)).2
  | None => db σ
  end.
Proof.
  unfold payload, on_send_message. cbn [db]. rewrite bind_eq.
  unfold findChat, Chat.findById. cbn [fst snd].
  destruct (find _ (chats (db σ))); [|done]. by rewrite bind_eq.
Qed.

(** The store after one [send_message] with a well-formed payload, its
    handler running alone: the chat keeps its participants, its counts
    stay non-negative, and the counter of each participant that the
    filter keeps goes up by one. *)
Lemma on_send_message_store sid socket chatId message σ c :
  (Chat.findById chatId (db σ)).1 = Some c →
  NoDup (participants c) →
  Forall (λ item, (0 ≤ count item)%Z) (unreadCounts c) →
  let σ' := on_send_message sid socket (payload chatId message) σ in
  ∃ c', (Chat.findById chatId (db σ')).1 = Some c'
    ∧ participants c' = participants c
    ∧ Forall (λ item, (0 ≤ count item)%Z) (unreadCounts c')
    ∧ users (db σ') = users (db σ)
    ∧ (∀ p, Chat.getUnreadCount c' p =
         (Chat.getUnreadCount c p +
          if bool_decide (p ∈ participants c ∧ Some p ≠ sock_userId socket)
          then 1 else 0)%Z).
Proof.
  intros Hc Hnd Hok. cbn zeta. rewrite on_send_message_db.
  unfold Chat.findById in Hc. cbn [fst] in Hc. rewrite Hc.
  pose proof (find_Some_holds _ _ _ Hc) as [Hid _]. cbn in Hid.
  set (others := otherParticipants (sock_userId socket) c).
  assert ((Chat.findById (chat_id c) (db σ)).1 = Some c) as Hst
    by (unfold Chat.findById; cbn [fst]; by rewrite Hid).
  destruct (forOf_updateUnreadCount others c (db σ) Hst) as (H1 & H2 & H3 & _).
  rewrite Hid in H2. eexists. split; [exact H2|]. rewrite H1.
  assert (NoDup others) as Hnd' by by apply NoDup_filter.
  split_and!.
  - done.
  - apply (unreadOf_bump_all others (unreadCounts c) (chat_id c) Hnd' Hok).
  - exact H3.
  - intros p. rewrite !getUnreadCount_unreadOf. cbn [unreadCounts set_unreadCounts].
    destruct (unreadOf_bump_all others (unreadCounts c) p Hnd' Hok) as [_ ->].
    rewrite (bool_decide_ext (p ∈ others)
               (p ∈ participants c ∧ Some p ≠ sock_userId socket)); [done|].
    subst others. unfold otherParticipants. rewrite list_elem_of_filter. tauto.
Qed.

Lemma unreadOf_nonneg l p :
  Forall (λ item, (0 ≤ count item)%Z) l → (0 ≤ unreadOf l p)%Z.
Proof.
  intros Hpos. unfold unreadOf.
  destruct (find _ l) as [item|] eqn:F; [|done].
  apply find_Some_holds in F as [_ Hin]. by eapply Forall_forall in Hpos.
Qed.

Lemma handle_send_message sid socket data σ :
  sockets σ !! sid = Some socket →
  handle jwt_verify sid (send_message data) σ = on_send_message sid socket data σ.
Proof. intros Hs. unfold handle. by rewrite Hs. Qed.

Lemma on_send_message_sockets sid socket chatId message σ t :
  sockets (on_send_message sid socket (fields chatId message) σ) !! t =
  (λ s, if bool_decide (t ≠ sid ∧ "chat_" +:+ template chatId ∈ sock_rooms s)
        then deliver (new_message chatId message) s else s)
    <$> sockets σ !! t.
Proof. unfold on_send_message. cbn [sockets]. apply lookup_to_emit. Qed.

Lemma sender_of_on_send_message sid socket data σ t :
  sender_of (on_send_message sid socket data σ) t = sender_of σ t.
Proof.
  destruct data as [|chatId message]; [done|].
  unfold sender_of. rewrite on_send_message_sockets.
  destruct (sockets σ !! t) as [s|]; [|done]. cbn. by destruct (bool_decide _).
Qed.

Lemma run_sends_unread chatId p sends : ∀ σ c,
  (Chat.findById chatId (db σ)).1 = Some c →
  NoDup (participants c) →
  Forall (λ item, (0 ≤ count item)%Z) (unreadCounts c) →
  p ∈ participants c →
  Forall (λ e, ∃ v, sender_of σ e.1 = Some v ∧ v ≠ p) sends →
  ∃ c', (Chat.findById chatId (db (run jwt_verify (sends_to chatId sends) σ))).1
          = Some c'
    ∧ Chat.getUnreadCount c' p =
        (Chat.getUnreadCount c p + Z.of_nat (length sends))%Z.
Proof.
  induction sends as [|[sid message] sends IH]; intros σ c Hc Hnd Hok Hp Hall.
  - exists c. split; [done|]. cbn. lia.
  - apply Forall_cons in Hall as [(v & Hv & Hne) Hall].
    unfold sender_of in Hv. cbn [fst] in Hv.
    destruct (sockets σ !! sid) as [socket|] eqn:Hs; [|done]. cbn in Hv.
    unfold run, sends_to. cbn [fmap list_fmap foldl fst snd].
    rewrite (handle_send_message _ socket) by done.
    destruct (on_send_message_store sid socket chatId message σ c Hc Hnd Hok)
      as (c1 & Hc1 & Hpart & Hok1 & _ & Hcount).
    destruct (IH _ c1 Hc1) as (c' & Hc' & Hcount'); try done.
    { by rewrite Hpart. }
    { by rewrite Hpart. }
    { eapply Forall_impl; [exact Hall|]. intros e (w & Hw & ?). exists w.
      by rewrite sender_of_on_send_message. }
    exists c'. split; [exact Hc'|]. rewrite Hcount', Hcount.
    rewrite bool_decide_eq_true_2; [cbn [length]; lia|].
    split; [done|]. rewrite Hv. congruence.
Qed.

(** What a chat keeps when only its unread counters are written. *)
Lemma fmap_updateOne_frame {A B} (P : A → Prop) `{!∀ x, Decision (P x)}
    (g : A → B) (f : A → A) (l : list A) :
  (∀ x, g (f x) = g x) → g <$> updateOne P f l = g <$> l.
Proof.
  intros Hg. induction l as [|x l IH]; [done|]. cbn [updateOne].
  destruct (decide (P x)); cbn; by rewrite ?Hg, ?IH.
Qed.

Lemma chat_save_frame modified this db c :
  find (λ c, chat_id c = chat_id this) (chats db) = Some c →
  chat_frame this = chat_frame c →
  store_frame (Chat.save modified this db).2 = store_frame db.
Proof.
  intros Hc Hf. destruct modified; [|done]. unfold store_frame. cbn.
  f_equal. f_equal. clear -Hc Hf.
  induction (chats db) as [|x l IH]; [done|]. cbn [updateOne].
  rewrite find_cons in Hc. destruct (decide (chat_id x = chat_id this)).
  - injection Hc as ->. cbn. by rewrite Hf.
  - cbn. by rewrite IH.
Qed.

Lemma forOf_store_frame others : ∀ chat db,
  find (λ c, chat_id c = chat_id chat) (chats db) = Some chat →
  store_frame
    (forOf others
       (λ chat participantId, Chat.updateUnreadCount chat participantId true)
       chat db).2 = store_frame db.
Proof.
  induction others as [|p others IH]; intros chat db Hst; [done|].
  cbn [forOf]. rewrite bind_eq, updateUnreadCount_true.
  set (chat1 := set_unreadCounts chat (Chat.bumpUnread p true (unreadCounts chat))).
  assert ((Chat.save true chat1 db).1 = chat1) as -> by done.
  assert (find (λ c, chat_id c = chat_id chat1) (chats (Chat.save true chat1 db).2)
          = Some chat1) as Hst1.
  { cbn. rewrite find_updateOne by done. by rewrite Hst. }
  rewrite (IH chat1 _ Hst1). by apply (chat_save_frame true chat1 db chat).
Qed.

Lemma fmap_name_alter (f : User → User) (id : ObjectId) (m : gmap ObjectId User) :
  (∀ x, user_name (f x) = user_name x) →
  user_name <$> alter f id m = user_name <$> m.
Proof.
  intros Hf. apply map_eq. intros k. rewrite !lookup_fmap.
  destruct (decide (k = id)) as [->|Hne].
  - rewrite lookup_alter_eq. destruct (m !! id); cbn; by rewrite ?Hf.
  - by rewrite lookup_alter_ne.
Qed.

Lemma updateUserStatus_frame id status now db :
  store_frame (updateUserStatus id status now db).2 = store_frame db.
Proof. unfold store_frame. cbn. f_equal. by apply fmap_name_alter. Qed.

Lemma on_send_message_frame sid socket data σ :
  store_frame (db (on_send_message sid socket data σ)) = store_frame (db σ).
Proof.
  destruct data as [|[chatId|] message]; [done| |done].
  unfold on_send_message. cbn [db]. rewrite bind_eq.
  unfold findChat, Chat.findById. cbn [fst snd].
  destruct (find _ (chats (db σ))) as [c|] eqn:Hc; [|done].
  rewrite bind_eq. cbn [ret snd].
  pose proof (find_Some_holds _ _ _ Hc) as [Hid _]. cbn in Hid.
  apply forOf_store_frame. by rewrite Hid.
Qed.

Lemma forOf_updateUnreadCount_users others : ∀ chat d,
  users (forOf others
           (λ chat participantId, Chat.updateUnreadCount chat participantId true)
           chat d).2 = users d.
Proof.
  induction others as [|p others IH]; intros chat d; [done|].
  cbn [forOf]. by rewrite bind_eq, IH, updateUnreadCount_true.
Qed.

Lemma on_send_message_users sid socket data σ :
  users (db (on_send_message sid socket data σ)) = users (db σ).
Proof.
  destruct data as [|[chatId|] message]; [done| |done].
  unfold on_send_message. cbn [db]. rewrite bind_eq.
  unfold findChat, Chat.findById. cbn [fst snd].
  destruct (find _ (chats (db σ))) as [c|]; [|done].
  rewrite bind_eq. cbn [ret snd]. apply forOf_updateUnreadCount_users.
Qed.

(** Every handler, run alone, leaves the frame of the store as it is. *)
Lemma handle_store_frame sid ev σ :
  store_frame (db (handle jwt_verify sid ev σ)) = store_frame (db σ).
Proof.
  unfold handle.
  destruct (sockets σ !! sid) as [socket|] eqn:Hs; [|by destruct ev].
  destruct ev as [|token now|chatId|chatId|data|chatId|chatId|now]; try done.
  - unfold on_authenticate.
    destruct (jwt_verify token) as [u|]; [|done].
    destruct (users (db σ) !! u); [|done]. cbn [db].
    apply updateUserStatus_frame.
  - apply on_send_message_frame.
  - unfold on_disconnect. destruct (sock_userId socket); [|done]. cbn [db].
    apply updateUserStatus_frame.
Qed.

(** C8. A [send_message] with a well-formed payload appends exactly one
    [new_message] event to what every session joined to the chat's room
    other than the sending one has received, and nothing to the sending
    session (joined or not) nor to a session outside the room; no session
    is added, removed or otherwise changed. *)
Theorem send_message_fanout (sid : SocketId) (socket : Socket)
    (chatId message : string) (σ : State) :
  sockets σ !! sid = Some socket →
  let σ' := handle jwt_verify sid (send_message (payload chatId message)) σ in
  let room := "chat_" +:+ chatId in
  sockets σ' !! sid = Some socket
  ∧ (∀ t, is_Some (sockets σ' !! t) ↔ is_Some (sockets σ !! t))
  ∧ ∀ t s, sockets σ !! t = Some s →
      ∃ s', sockets σ' !! t = Some s'
        ∧ sock_userId s' = sock_userId s ∧ sock_rooms s' = sock_rooms s
        ∧ (t ≠ sid → room ∈ sock_rooms s →
           sock_received s' = sock_received s ++ [new_message (Some chatId) (Some message)])
        ∧ (t = sid ∨ room ∉ sock_rooms s → sock_received s' = sock_received s).
Proof.
  intros Hs. cbn zeta. rewrite (handle_send_message _ socket) by done.
  unfold payload. split_and!.
  - rewrite on_send_message_sockets, Hs. cbn.
    rewrite bool_decide_eq_false_2; [done|]. intros [Hne _]. by apply Hne.
  - intros t. rewrite on_send_message_sockets. by rewrite fmap_is_Some.
  - intros t s Ht. rewrite on_send_message_sockets, Ht. cbn.
    eexists. split; [done|].
    destruct (bool_decide _) eqn:E.
    + apply bool_decide_eq_true in E as [Hne Hin].
      split_and!; try done. intros [?|?]; done.
    + apply bool_decide_eq_false in E. split_and!; try done.
      intros ??. exfalso. by apply E.
Qed.

(** C3, amended. While [socket.userId] is unset, [join_chat] and
    [leave_chat] change the rooms of that session and nothing else (no
    store write, no event delivered, the session stays connected); and a
    [send_message] is carried out, not rejected: the session stays
    connected and receives nothing, every other session joined to the
    room receives the [new_message] event, and in the store nothing but
    unread counters can change (every chat keeps its participants, its
    last-message summary and its soft-delete markers, the messages and
    the user documents stay as they are). *)
Theorem unauthenticated_events_are_served (sid : SocketId) (socket : Socket)
    (σ : State) :
  sockets σ !! sid = Some socket →
  sock_userId socket = None →
  (∀ chatId,
     let σ' := handle jwt_verify sid (join_chat chatId) σ in
     db σ' = db σ ∧ connectedUsers σ' = connectedUsers σ
     ∧ sockets σ' = <[sid := join ("chat_" +:+ chatId) socket]> (sockets σ)
     ∧ sock_received (join ("chat_" +:+ chatId) socket) = sock_received socket)
  ∧ (∀ chatId,
     let σ' := handle jwt_verify sid (leave_chat chatId) σ in
     db σ' = db σ ∧ connectedUsers σ' = connectedUsers σ
     ∧ sockets σ' = <[sid := leave ("chat_" +:+ chatId) socket]> (sockets σ)
     ∧ sock_received (leave ("chat_" +:+ chatId) socket) = sock_received socket)
  ∧ (∀ chatId message,
     let σ' := handle jwt_verify sid (send_message (payload chatId message)) σ in
     sockets σ' !! sid = Some socket
     ∧ (∀ t s, t ≠ sid → sockets σ !! t = Some s →
          "chat_" +:+ chatId ∈ sock_rooms s →
          ∃ s', sockets σ' !! t = Some s'
            ∧ sock_received s' =
                sock_received s ++ [new_message (Some chatId) (Some message)])
     ∧ connectedUsers σ' = connectedUsers σ
     ∧ connectionCount σ' = connectionCount σ
     ∧ store_frame (db σ') = store_frame (db σ)
     ∧ users (db σ') = users (db σ)).
Proof.
  intros Hs Hu. split_and!.
  - intros chatId. unfold handle. rewrite Hs. unfold on_join_chat. cbn.
    split_and!; try done. apply map_eq. intros t.
    destruct (decide (t = sid)) as [->|Hne].
    + by rewrite lookup_alter_eq, lookup_insert_eq, Hs.
    + by rewrite lookup_alter_ne, lookup_insert_ne.
  - intros chatId. unfold handle. rewrite Hs. unfold on_leave_chat. cbn.
    split_and!; try done. apply map_eq. intros t.
    destruct (decide (t = sid)) as [->|Hne].
    + by rewrite lookup_alter_eq, lookup_insert_eq, Hs.
    + by rewrite lookup_alter_ne, lookup_insert_ne.
  - intros chatId message. cbn zeta.
    rewrite (handle_send_message _ socket) by done. split_and!.
    + unfold payload. rewrite on_send_message_sockets, Hs. cbn.
      rewrite bool_decide_eq_false_2; [done|]. intros [Hne _]. by apply Hne.
    + intros t s Hne Ht Hin. unfold payload.
      rewrite on_send_message_sockets, Ht. cbn.
      rewrite bool_decide_eq_true_2 by done. eauto.
    + done.
    + done.
    + apply on_send_message_frame.
    + apply on_send_message_users.
Qed.

(** ** Presence broadcasts *)









End ServerProps.

(** ** Concrete runs *)

(** C3, as stated, fails for [send_message]: sent by the session "s1",
    whose [userId] is unset, it is delivered to the sessions joined to
    the room and raises the unread counter of both participants. *)
Lemma unauthenticated_send_message_not_rejected :
  let σ' := Server.handle jwt_example "s1"
              (Server.send_message (payload "c1" "hi")) state_three in
  (Server.sock_userId <$> Server.sockets state_three !! "s1") = Some None
  ∧ (Server.sock_received <$> Server.sockets σ' !! "s2")
    = Some [Server.new_message (Some "c1") (Some "hi")]
  ∧ ((λ c, Chat.getUnreadCount c "a") <$> (Chat.findById "c1" (Server.db σ')).1)
    = Some 1%Z
  ∧ ((λ c, Chat.getUnreadCount c "b") <$> (Chat.findById "c1" (Server.db σ')).1)
    = Some 1%Z
  ∧ ((λ c, Chat.getUnreadCount c "a")
       <$> (Chat.findById "c1" (Server.db state_three)).1) = Some 0%Z
  ∧ Server.db σ' ≠ Server.db state_three.
Proof. cbn zeta. split_and!; [by vm_compute..|]. vm_compute. discriminate. Qed.

(** C1. The count the specification states is lost on a burst.  Three [send_message]
    events of the session "s2" (user "b") for the chat "c1", whose
    participants are "a" and "b" and whose unread list is empty, arrive
    before the store has answered the first handler's [Chat.findById].
    Each handler then holds its own copy of the chat with no entry for
    "a", pushes an entry with count 1 and sends that push: the store ends
    with three entries for "a", each with count 1, and the counter of "a"
    reads 1 where the specification says 3.  The sessions in the room have
    received the three messages all the same; and when each of the three
    handlers runs to its end before the next event arrives the counter
    does read 3. *)
Lemma burst_of_sends_undercounts :
  let κ := Server.exec jwt_example burst_schedule
             (Server.mkConfig state_three ∅ []) in
  Server.pending κ = []
  ∧ (unreadCounts <$> (Chat.findById "c1" (Server.db (Server.server κ))).1)
    = Some [mkUnread "a" 1; mkUnread "a" 1; mkUnread "a" 1]
  ∧ ((λ c, Chat.getUnreadCount c "a")
       <$> (Chat.findById "c1" (Server.db (Server.server κ))).1) = Some 1%Z
  ∧ (Server.sock_received <$> Server.sockets (Server.server κ) !! "s3")
    = Some [Server.new_message (Some "c1") (Some "one");
            Server.new_message (Some "c1") (Some "two");
            Server.new_message (Some "c1") (Some "three")]
  ∧ ((λ c, Chat.getUnreadCount c "a")
       <$> (Chat.findById "c1"
              (Server.db (Server.run jwt_example
                            (sends_to "c1"
                               [("s2", "one"); ("s2", "two"); ("s2", "three")])
                            state_three))).1) = Some 3%Z.
Proof. cbn zeta. split_and!; by vm_compute. Qed.

Lemma send_message_fanout_witness :
  ∃ s2 s1,
    Server.sockets (Server.handle jwt_example "s3"
                      (Server.send_message (payload "c1" "hi")) state_three)
      !! "s2" = Some s2
    ∧ Server.sock_received s2 = [Server.new_message (Some "c1") (Some "hi")]
    ∧ Server.sockets (Server.handle jwt_example "s3"
                        (Server.send_message (payload "c1" "hi")) state_three)
        !! "s1" = Some s1
    ∧ Server.sock_received s1 = []
    ∧ Server.sockets (Server.handle jwt_example "s3"
                        (Server.send_message (payload "c1" "hi")) state_three)
        !! "s3" = Some (Server.mkSocket (Some "a") {["chat_c1"]} []).
Proof.
  destruct (send_message_fanout jwt_example "s3"
              (Server.mkSocket (Some "a") {["chat_c1"]} []) "c1" "hi" state_three)
    as (Hself & _ & Hall); [by vm_compute|].
  destruct (Hall "s2" (Server.mkSocket (Some "b") {["chat_c1"]} []))
    as (s2 & Hs2 & _ & _ & Hin & _); [by vm_compute|].
  destruct (Hall "s1" (Server.mkSocket None ∅ []))
    as (s1 & Hs1 & _ & _ & _ & Hout); [by vm_compute|].
  exists s2, s1. split_and!.
  - exact Hs2.
  - apply Hin; [discriminate|]. apply (bool_decide_unpack _). by vm_compute.
  - exact Hs1.
  - apply Hout. right. apply (bool_decide_unpack _). by vm_compute.
  - exact Hself.
Defined.

Lemma unauthenticated_events_are_served_witness :
  Server.db (Server.handle jwt_example "s1" (Server.join_chat "c1") state_three)
    = Server.db state_three
  ∧ Server.sockets (Server.handle jwt_example "s1"
                      (Server.send_message (payload "c1" "hi")) state_three)
      !! "s1" = Some (Server.mkSocket None ∅ [])
  ∧ (∃ s2, Server.sockets (Server.handle jwt_example "s1"
                             (Server.send_message (payload "c1" "hi")) state_three)
             !! "s2" = Some s2
         ∧ Server.sock_received s2 = [Server.new_message (Some "c1") (Some "hi")])
  ∧ store_frame (Server.db (Server.handle jwt_example "s1"
                              (Server.send_message (payload "c1" "hi"))
                              state_three))
    = store_frame (Server.db state_three).
Proof.
  destruct (unauthenticated_events_are_served jwt_example "s1"
              (Server.mkSocket None ∅ []) state_three)
    as (Hjoin & _ & Hsend); [by vm_compute | reflexivity |].
  destruct (Hjoin "c1") as (Hdb & _).
  destruct (Hsend "c1" "hi") as (Hself & Hothers & _ & _ & Hframe & _).
  destruct (Hothers "s2" (Server.mkSocket (Some "b") {["chat_c1"]} []))
    as (s2 & Hs2 & Hrecv).
  - discriminate.
  - by vm_compute.
  - apply (bool_decide_unpack _). by vm_compute.
  - split_and!; [exact Hdb | exact Hself | | exact Hframe].
    exists s2. split; [exact Hs2 | exact Hrecv].
Defined.


(** * Further properties of the models and handlers *)

#[local] Set Warnings "-clear-no-such-hyp".

(** ** models/Chat.js: the counter under [updateUnreadCount] *)

Lemma unreadOf_bump_self u increment l :
  unreadOf (Chat.bumpUnread u increment l) u =
  Z.max 0 (unreadOf l u + (if increment then 1 else -1)).
Proof.
  unfold unreadOf. rewrite bumpUnread_cases.
  destruct (some _ l) eqn:E.
  - rewrite find_updateOne by done.
    destruct (find _ l) as [item|] eqn:F.
    + cbn. destruct (_ <? 0)%Z eqn:G.
      * apply Z.ltb_lt in G. lia.
      * apply Z.ltb_ge in G. lia.
    + apply find_None_iff in F. apply some_true_iff in E. done.
  - apply some_false_iff in E.
    pose proof (proj2 (find_None_iff (λ item, user item = u) l) E) as F.
    destruct increment.
    + rewrite find_app, F, find_cons. by rewrite decide_True by done.
    + by rewrite F.
Qed.

(** X1. [updateUnreadCount] moves the user's counter by one in the
    direction asked and clamps it at zero: the counter read afterwards is
    [max 0 (before + 1)] for an increment and [max 0 (before - 1)] for a
    decrement, whatever the list held (a missing entry reads 0; a
    decrement never creates one).  The counters of all other users read
    as before.  A decrement for a user without an entry touches nothing:
    the document and the store, its write count included, are as before;
    and whenever the list of entries changes exactly one write is
    issued. *)
Theorem updateUnreadCount_counter (this : ChatDoc) (userId : ObjectId)
    (increment : bool) (db : Store) :
  let r := Chat.updateUnreadCount this userId increment db in
  Chat.getUnreadCount r.1 userId =
    Z.max 0 (Chat.getUnreadCount this userId + (if increment then 1 else -1))
  ∧ (∀ other, other ≠ userId →
       Chat.getUnreadCount r.1 other = Chat.getUnreadCount this other)
  ∧ (increment = false → user <$> unreadCounts r.1 = user <$> unreadCounts this)
  ∧ (find (λ item, user item = userId) (unreadCounts this) = None →
     increment = false → r = (this, db))
  ∧ (unreadCounts r.1 ≠ unreadCounts this → writes r.2 = S (writes db)).
Proof.
  cbn zeta. rewrite !getUnreadCount_unreadOf, updateUnreadCount_doc.
  cbn [unreadCounts set_unreadCounts].
  split_and!.
  - apply unreadOf_bump_self.
  - intros other Hne. by apply unreadOf_bump_other.
  - intros ->. rewrite bumpUnread_cases.
    destruct (some _ (unreadCounts this)); [|done]. by apply fmap_updateOne.
  - intros Hnone ->. unfold Chat.updateUnreadCount.
    rewrite bumpUnread_cases, findIndex_found.
    apply find_None_iff in Hnone.
    rewrite (proj2 (some_false_iff (λ item, user item = userId) _) Hnone).
    cbn. by rewrite set_unreadCounts_same.
  - intros Hchanged. unfold Chat.updateUnreadCount.
    unfold Chat.bumpUnread in Hchanged.
    destruct (findIndex _ (unreadCounts this) >? -1)%Z; [done|].
    by destruct increment.
Qed.

Lemma updateUnreadCount_counter_witness :
  let this := mkChat "c1" ["a"; "b"] (mkLast None None None 0 false)
                     [mkUnread "a" 0] [] in
  let db := mkStore ∅ [this] [] 0 in
  Chat.getUnreadCount (Chat.updateUnreadCount this "a" false db).1 "a" = 0%Z
  ∧ Chat.updateUnreadCount this "b" false db = (this, db)
  ∧ writes (Chat.updateUnreadCount this "b" true db).2 = 1.
Proof.
  intros this db. split_and!.
  - destruct (updateUnreadCount_counter this "a" false db) as (H & _).
    rewrite H. reflexivity.
  - destruct (updateUnreadCount_counter this "b" false db) as (_ & _ & _ & H & _).
    apply H; reflexivity.
  - destruct (updateUnreadCount_counter this "b" true db) as (_ & _ & _ & _ & H).
    apply H. discriminate.
Defined.

(** X2. An increment followed by a decrement for the same user brings the
    counter back to where it was whenever it was not negative, while a
    decrement followed by an increment does so only from 1 upwards: from
    0 it ends at 1. *)
Theorem updateUnreadCount_round_trip (this : ChatDoc) (userId : ObjectId)
    (db : Store) :
  let up := Chat.updateUnreadCount this userId true db in
  let up_down := Chat.updateUnreadCount up.1 userId false up.2 in
  let down := Chat.updateUnreadCount this userId false db in
  let down_up := Chat.updateUnreadCount down.1 userId true down.2 in
  Chat.getUnreadCount up_down.1 userId = Z.max 0 (Chat.getUnreadCount this userId)
  ∧ Chat.getUnreadCount down_up.1 userId = Z.max 1 (Chat.getUnreadCount this userId)
  ∧ ∀ other, other ≠ userId →
      Chat.getUnreadCount up_down.1 other = Chat.getUnreadCount this other
      ∧ Chat.getUnreadCount down_up.1 other = Chat.getUnreadCount this other.
Proof.
  cbn zeta. rewrite !getUnreadCount_unreadOf, !updateUnreadCount_doc.
  cbn [unreadCounts set_unreadCounts].
  split_and!.
  - rewrite !unreadOf_bump_self. lia.
  - rewrite !unreadOf_bump_self. lia.
  - intros other Hne. rewrite !getUnreadCount_unreadOf.
    cbn [unreadCounts set_unreadCounts].
    by rewrite !unreadOf_bump_other.
Qed.

(** ** models/Chat.js: soft delete markers *)

Lemma isDeletedForUser_some this A :
  Chat.isDeletedForUser this A = some (λ id, id = A) (deletedBy this).
Proof.
  unfold Chat.isDeletedForUser. case_bool_decide as Hlen; [|done].
  destruct (deletedBy this); [|done]. symmetry. apply some_false_iff.
  intros Hex. inversion Hex.
Qed.

Lemma some_eq_elem_of (A : ObjectId) (l : list ObjectId) :
  some (λ id, id = A) l = bool_decide (A ∈ l).
Proof.
  unfold some. apply bool_decide_ext. rewrite Exists_exists. split.
  - by intros (x & Hx & ->).
  - intros Hin. by exists A.
Qed.

Lemma isDeletedForUser_elem_of this A :
  Chat.isDeletedForUser this A = bool_decide (A ∈ deletedBy this).
Proof. by rewrite isDeletedForUser_some, some_eq_elem_of. Qed.

Lemma deleteForUser_eq this A db :
  Chat.deleteForUser this A db =
  if bool_decide (A ∈ deletedBy this) then (this, db)
  else Chat.save true (set_deletedBy this (deletedBy this ++ [A])) db.
Proof.
  unfold Chat.deleteForUser. rewrite some_eq_elem_of.
  by destruct (bool_decide _).
Qed.

Lemma restoreForUser_eq this A db :
  Chat.restoreForUser this A db =
  if bool_decide (A ∈ deletedBy this)
  then Chat.save true (set_deletedBy this (filter (λ id, id ≠ A) (deletedBy this))) db
  else (this, db).
Proof.
  unfold Chat.restoreForUser. rewrite some_eq_elem_of.
  by destruct (bool_decide _).
Qed.

(** X3. [deleteForUser] marks the chat as deleted for the user and for
    nobody else; it adds the user to [deletedBy] at most once, so a second
    call, or a call for a user already marked, returns the document as it
    is and issues no write; and nothing but [deletedBy] changes. *)
Theorem deleteForUser_marks_once (this : ChatDoc) (A : ObjectId) (db : Store) :
  let r := Chat.deleteForUser this A db in
  Chat.isDeletedForUser r.1 A = true
  ∧ Chat.deleteForUser r.1 A r.2 = r
  ∧ (Chat.isDeletedForUser this A = true → r = (this, db))
  ∧ (∀ B, B ≠ A → Chat.isDeletedForUser r.1 B = Chat.isDeletedForUser this B)
  ∧ (NoDup (deletedBy this) → NoDup (deletedBy r.1))
  ∧ set_deletedBy r.1 (deletedBy this) = this.
Proof.
  cbn zeta. rewrite !isDeletedForUser_elem_of.
  rewrite (deleteForUser_eq this A db).
  destruct (decide (A ∈ deletedBy this)) as [Hin|Hout].
  - rewrite (bool_decide_eq_true_2 _ Hin). cbn [fst snd].
    rewrite deleteForUser_eq, (bool_decide_eq_true_2 _ Hin).
    split_and!; try done. apply set_deletedBy_same.
  - rewrite (bool_decide_eq_false_2 _ Hout). cbn [Chat.save fst snd].
    rewrite deleteForUser_eq. cbn [deletedBy set_deletedBy].
    split_and!.
    + apply bool_decide_eq_true_2. apply elem_of_app. right. by left.
    + rewrite bool_decide_eq_true_2; [done|]. apply elem_of_app. right. by left.
    + intros Hdel. discriminate.
    + intros B Hne. rewrite !isDeletedForUser_elem_of.
      apply bool_decide_ext. cbn.
      rewrite elem_of_app, list_elem_of_singleton. split; [tauto | auto].
    + intros Hnd. apply NoDup_app. split_and!; [done| |apply NoDup_singleton].
      intros x Hx ->%list_elem_of_singleton. done.
    + by destruct this.
Qed.

Lemma deleteForUser_marks_once_witness :
  let this := mkChat "c1" ["a"; "b"] (mkLast None None None 0 false) [] ["a"] in
  let db := mkStore ∅ [this] [] 4 in
  Chat.deleteForUser this "a" db = (this, db)
  ∧ Chat.isDeletedForUser (Chat.deleteForUser this "b" db).1 "a" = true
  ∧ NoDup (deletedBy (Chat.deleteForUser this "b" db).1).
Proof.
  intros this db. split_and!.
  - destruct (deleteForUser_marks_once this "a" db) as (_ & _ & H & _).
    apply H. reflexivity.
  - destruct (deleteForUser_marks_once this "b" db) as (_ & _ & _ & H & _).
    rewrite (H "a"); [reflexivity | discriminate].
  - destruct (deleteForUser_marks_once this "b" db) as (_ & _ & _ & _ & H & _).
    apply H. apply (bool_decide_unpack _). by vm_compute.
Defined.

(** X4. [restoreForUser] removes every marker of the user, so the chat is
    no longer deleted for that user even when [deletedBy] held the user
    more than once, and it stays deleted or not for everybody else; a
    call for a user who is not marked returns the document as it is and
    issues no write, so a second restore is a no-op; and nothing but
    [deletedBy] changes. *)
Theorem restoreForUser_clears (this : ChatDoc) (A : ObjectId) (db : Store) :
  let r := Chat.restoreForUser this A db in
  Chat.isDeletedForUser r.1 A = false
  ∧ Chat.restoreForUser r.1 A r.2 = r
  ∧ (Chat.isDeletedForUser this A = false → r = (this, db))
  ∧ (∀ B, B ≠ A → Chat.isDeletedForUser r.1 B = Chat.isDeletedForUser this B)
  ∧ set_deletedBy r.1 (deletedBy this) = this.
Proof.
  cbn zeta. rewrite !isDeletedForUser_elem_of.
  rewrite (restoreForUser_eq this A db).
  assert (A ∉ filter (λ id, id ≠ A) (deletedBy this)) as Hgone.
  { intros [Hne _]%list_elem_of_filter. by apply Hne. }
  destruct (decide (A ∈ deletedBy this)) as [Hin|Hout].
  - rewrite (bool_decide_eq_true_2 _ Hin). cbn [Chat.save fst snd].
    rewrite restoreForUser_eq. cbn [deletedBy set_deletedBy].
    rewrite (bool_decide_eq_false_2 _ Hgone).
    split_and!.
    + done.
    + done.
    + intros Hdel. discriminate.
    + intros B Hne. rewrite !isDeletedForUser_elem_of.
      apply bool_decide_ext. cbn.
      rewrite list_elem_of_filter. split; [tauto | auto].
    + by destruct this.
  - rewrite (bool_decide_eq_false_2 _ Hout). cbn [fst snd].
    rewrite restoreForUser_eq, (bool_decide_eq_false_2 _ Hout).
    split_and!; try done. apply set_deletedBy_same.
Qed.

Lemma restoreForUser_clears_witness :
  let this := mkChat "c1" ["a"; "b"] (mkLast None None None 0 false) []
                     ["a"; "b"; "a"] in
  let db := mkStore ∅ [this] [] 4 in
  Chat.restoreForUser this "c" db = (this, db)
  ∧ Chat.isDeletedForUser (Chat.restoreForUser this "a" db).1 "a" = false
  ∧ Chat.isDeletedForUser (Chat.restoreForUser this "a" db).1 "b" = true.
Proof.
  intros this db. split_and!.
  - destruct (restoreForUser_clears this "c" db) as (_ & _ & H & _).
    apply H. reflexivity.
  - destruct (restoreForUser_clears this "a" db) as (H & _). exact H.
  - destruct (restoreForUser_clears this "a" db) as (_ & _ & _ & H & _).
    rewrite (H "b"); [reflexivity | discriminate].
Defined.

Lemma updateUnreadCount_round_trip_witness :
  let this := mkChat "c1" ["a"; "b"] (mkLast None None None 0 false)
                     [mkUnread "a" 0; mkUnread "b" 3] [] in
  let db := mkStore ∅ [this] [] 0 in
  let down := Chat.updateUnreadCount this "a" false db in
  Chat.getUnreadCount (Chat.updateUnreadCount down.1 "a" true down.2).1 "a" = 1%Z
  ∧ Chat.getUnreadCount (Chat.updateUnreadCount down.1 "a" true down.2).1 "b" = 3%Z.
Proof.
  intros this db down.
  destruct (updateUnreadCount_round_trip this "a" db) as (_ & Ha & Hb).
  split.
  - subst down. rewrite Ha. reflexivity.
  - subst down. destruct (Hb "b") as [_ ->]; [discriminate | reflexivity].
Defined.

(** ** server.js: connections, rooms and typing indicators *)
Section ServerMore.
Import Server.
Variable jwt_verify : string → option ObjectId.

Lemma size_imap_Some (g : SocketId → Socket → Socket) (ss : gmap SocketId Socket) :
  size (map_imap (λ k s, Some (g k s)) ss) = size ss.
Proof.
  rewrite <- !size_dom. f_equal. apply set_eq. intros k.
  rewrite !elem_of_dom, map_lookup_imap. by destruct (ss !! k).
Qed.

Lemma size_alter_socket (f : Socket → Socket) sid (ss : gmap SocketId Socket) :
  size (alter f sid ss) = size ss.
Proof. rewrite <- !size_dom. by rewrite dom_alter_L. Qed.

Lemma count_ok_step sid ev σ :
  count_ok σ → count_ok (handle jwt_verify sid ev σ).
Proof.
  unfold count_ok, handle. intros Hok.
  destruct (sockets σ !! sid) as [socket|] eqn:Hs.
  - destruct ev as [|token now|chatId|chatId|data|chatId|chatId|now]; try done.
    + unfold on_authenticate.
      destruct (jwt_verify token) as [u|]; [|done].
      destruct (users (db σ) !! u); [|done]. cbn.
      unfold broadcast_emit. by rewrite size_imap_Some, !size_alter_socket.
    + cbn. by rewrite size_alter_socket.
    + cbn. by rewrite size_alter_socket.
    + destruct data as [|chatId message]; [done|]. cbn.
      unfold to_emit. by rewrite size_imap_Some.
    + cbn. unfold to_emit. by rewrite size_imap_Some.
    + cbn. unfold to_emit. by rewrite size_imap_Some.
    + unfold on_disconnect.
      assert (size (delete sid (sockets σ)) = pred (size (sockets σ))) as Hdel.
      { by rewrite map_size_delete, Hs. }
      assert (size (sockets σ) ≠ 0) as Hpos.
      { intros H0. apply map_size_empty_inv in H0. by rewrite H0 in Hs. }
      destruct (sock_userId socket); cbn;
        unfold broadcast_emit; rewrite ?size_imap_Some, Hdel, Hok; lia.
  - destruct ev; try done. cbn.
    rewrite map_size_insert_None by done. rewrite Hok. lia.
Qed.

(** X5. [connectionCount] stays equal to the number of connected sockets
    over every sequence of client events, of any sockets, once it is
    (as at start-up, with no socket and the count at 0). *)
Theorem connectionCount_tracks_sockets
    (evs : list (SocketId * ClientEvent)) (σ : State) :
  count_ok σ → count_ok (run jwt_verify evs σ).
Proof.
  revert σ. induction evs as [|[sid ev] evs IH]; intros σ Hok; [done|].
  unfold run. cbn [foldl fst snd]. apply IH. by apply count_ok_step.
Qed.

(** X6. A typing indicator is delivered as one [user_typing] event,
    carrying the sender's [userId] (unset for a session that is not
    authenticated), to every other session joined to the chat's room and
    to nobody else; it leaves the store, the presence table, the
    connection count and every session's rooms and identity as they
    were. *)
Theorem typing_is_ephemeral (sid : SocketId) (socket : Socket)
    (chatId : string) (isTyping : bool) (σ : State) :
  sockets σ !! sid = Some socket →
  let σ' := handle jwt_verify sid (typing_event chatId isTyping) σ in
  let room := "chat_" +:+ chatId in
  db σ' = db σ ∧ connectedUsers σ' = connectedUsers σ
  ∧ connectionCount σ' = connectionCount σ
  ∧ sockets σ' !! sid = Some socket
  ∧ ∀ t s, sockets σ !! t = Some s →
      ∃ s', sockets σ' !! t = Some s'
        ∧ sock_userId s' = sock_userId s ∧ sock_rooms s' = sock_rooms s
        ∧ (t ≠ sid → room ∈ sock_rooms s →
           sock_received s' =
             sock_received s ++ [user_typing chatId (sock_userId socket) isTyping])
        ∧ (t = sid ∨ room ∉ sock_rooms s → sock_received s' = sock_received s).
Proof.
  intros Hs. cbn zeta.
  assert (handle jwt_verify sid (typing_event chatId isTyping) σ
          = on_typing sid socket chatId isTyping σ) as ->.
  { unfold handle, typing_event. rewrite Hs. by destruct isTyping. }
  unfold on_typing. cbn [db connectedUsers connectionCount sockets].
  split_and!; try done.
  - rewrite lookup_to_emit, Hs. cbn.
    rewrite bool_decide_eq_false_2; [done|]. intros [Hne _]. by apply Hne.
  - intros t s Ht. rewrite lookup_to_emit, Ht. cbn.
    eexists. split; [done|].
    destruct (bool_decide _) eqn:E.
    + apply bool_decide_eq_true in E as [Hne Hin].
      split_and!; try done. intros [?|?]; done.
    + apply bool_decide_eq_false in E. split_and!; try done.
      intros ??. exfalso. by apply E.
Qed.

(** X7. A [send_message] whose chat is not in the store is still
    delivered to the other sessions joined to the room named after it,
    and leaves the store as it is.  A payload without [chatId] (a number,
    a string, an object that lacks the property) is relayed as well: to
    the sessions joined to the room "chat_undefined", with the [chatId]
    unset, and the store stays as it is.  Only on [null] and [undefined]
    nothing happens at all. *)
Theorem send_message_unknown_chat (sid : SocketId) (socket : Socket)
    (chatId message : string) (σ : State) :
  sockets σ !! sid = Some socket →
  (Chat.findById chatId (db σ)).1 = None →
  let σ' := handle jwt_verify sid (send_message (payload chatId message)) σ in
  db σ' = db σ
  ∧ (∀ t s, t ≠ sid → sockets σ !! t = Some s →
       "chat_" +:+ chatId ∈ sock_rooms s →
       ∃ s', sockets σ' !! t = Some s'
         ∧ sock_received s' =
             sock_received s ++ [new_message (Some chatId) (Some message)])
  ∧ (∀ content,
       let σ'' := handle jwt_verify sid (send_message (fields None content)) σ in
       db σ'' = db σ
       ∧ ∀ t s, t ≠ sid → sockets σ !! t = Some s →
           "chat_undefined" ∈ sock_rooms s →
           ∃ s', sockets σ'' !! t = Some s'
             ∧ sock_received s' = sock_received s ++ [new_message None content])
  ∧ handle jwt_verify sid (send_message nullish) σ = σ.
Proof.
  intros Hs Hnone. cbn zeta. rewrite !(handle_send_message _ _ socket) by done.
  split_and!.
  - rewrite on_send_message_db. unfold Chat.findById in Hnone.
    cbn [fst] in Hnone. by rewrite Hnone.
  - intros t s Hne Ht Hin. unfold payload.
    rewrite on_send_message_sockets, Ht. cbn.
    rewrite bool_decide_eq_true_2 by done. eauto.
  - intros content. rewrite (handle_send_message _ _ socket) by done. split; [done|].
    intros t s Hne Ht Hin. rewrite on_send_message_sockets, Ht. cbn.
    rewrite bool_decide_eq_true_2 by done. eauto.
  - done.
Qed.

End ServerMore.

(** ** server.js: the presence table and the users' status *)
Section ServerPresence.
Import Server.
Variable jwt_verify : string → option ObjectId.

(** X8. A successful [authenticate] sets the session's [userId], points
    the presence table at this session (over whatever session it named
    before), stores the status "online" with the time of the call while
    keeping the user's name, and joins the session to the user's personal
    room; the other users, the other presence entries, the chats and the
    messages are untouched. *)
Theorem authenticate_registers (sid : SocketId) (socket : Socket)
    (token : string) (now : Z) (u : ObjectId) (usr : User) (σ : State) :
  sockets σ !! sid = Some socket →
  jwt_verify token = Some u →
  users (db σ) !! u = Some usr →
  let σ' := handle jwt_verify sid (authenticate token now) σ in
  sockets σ' !! sid =
    Some (mkSocket (Some u) ({["user_" +:+ u]} ∪ sock_rooms socket)
                   (sock_received socket))
  ∧ connectedUsers σ' !! u = Some sid
  ∧ users (db σ') !! u = Some (mkUser (user_name usr) "online" now)
  ∧ (∀ v, v ≠ u →
       connectedUsers σ' !! v = connectedUsers σ !! v
       ∧ users (db σ') !! v = users (db σ) !! v)
  ∧ chats (db σ') = chats (db σ) ∧ messages (db σ') = messages (db σ)
  ∧ connectionCount σ' = connectionCount σ.
Proof.
  intros Hs Hv Hu. cbn zeta. unfold handle. rewrite Hs.
  unfold on_authenticate. rewrite Hv, Hu. cbn.
  split_and!; try done.
  - rewrite lookup_broadcast_emit, !lookup_alter_eq, Hs. cbn.
    by rewrite bool_decide_eq_true_2.
  - by rewrite lookup_insert_eq.
  - by rewrite lookup_alter_eq, Hu.
  - intros v Hne. by rewrite lookup_insert_ne, lookup_alter_ne.
Qed.

(** X9. The [disconnect] of a session whose [userId] is set removes the
    session, deletes the user's presence entry whichever session it names,
    and stores the status "offline": another session of the same user
    that is still connected stays connected and authenticated, but the
    user is no longer in the presence table.  The [disconnect] of a
    session whose [userId] is unset only removes the session. *)
Theorem disconnect_unregisters (sid : SocketId) (socket : Socket) (now : Z)
    (σ : State) :
  sockets σ !! sid = Some socket →
  let σ' := handle jwt_verify sid (disconnect now) σ in
  sockets σ' !! sid = None
  ∧ connectionCount σ' = (connectionCount σ - 1)%Z
  ∧ (∀ t s, t ≠ sid → sockets σ !! t = Some s →
       ∃ s', sockets σ' !! t = Some s'
         ∧ sock_userId s' = sock_userId s ∧ sock_rooms s' = sock_rooms s)
  ∧ (∀ u, sock_userId socket = Some u →
       connectedUsers σ' !! u = None
       ∧ users (db σ') !! u =
           (λ usr, mkUser (user_name usr) "offline" now) <$> users (db σ) !! u
       ∧ ∀ v, v ≠ u →
           connectedUsers σ' !! v = connectedUsers σ !! v
           ∧ users (db σ') !! v = users (db σ) !! v)
  ∧ (sock_userId socket = None →
       connectedUsers σ' = connectedUsers σ ∧ db σ' = db σ
       ∧ ∀ t, t ≠ sid → sockets σ' !! t = sockets σ !! t).
Proof.
  intros Hs. cbn zeta. unfold handle. rewrite Hs. unfold on_disconnect.
  destruct (sock_userId socket) as [u|] eqn:Hu; cbn.
  - split_and!; try done.
    + by rewrite lookup_broadcast_emit, lookup_delete_eq.
    + intros t s Hne Ht.
      rewrite lookup_broadcast_emit, lookup_delete_ne, Ht by done. cbn.
      rewrite bool_decide_eq_false_2 by done. eauto.
    + intros u' [= <-]. split_and!.
      * by rewrite lookup_delete_eq.
      * by rewrite lookup_alter_eq.
      * intros v Hne. by rewrite lookup_delete_ne, lookup_alter_ne.
  - split_and!; try done.
    + by rewrite lookup_delete_eq.
    + intros t s Hne Ht. rewrite lookup_delete_ne, Ht by done. eauto.
    + intros _. split_and!; try done. intros t Hne. by rewrite lookup_delete_ne.
Qed.

End ServerPresence.

Lemma authenticate_registers_witness :
  let σ' := Server.handle jwt_example "s1" (Server.authenticate "b" 9) state_three in
  Server.connectedUsers state_three !! "b" = Some "s2"
  ∧ Server.connectedUsers σ' !! "b" = Some "s1"
  ∧ users (Server.db σ') !! "b" = Some (mkUser "B" "online" 9).
Proof.
  destruct (authenticate_registers jwt_example "s1" (Server.mkSocket None ∅ [])
              "b" 9 "b" (mkUser "B" "online" 0) state_three)
    as (_ & Hcu & Husr & _); [by vm_compute | reflexivity | by vm_compute |].
  split_and!; [by vm_compute | exact Hcu | exact Husr].
Defined.

Lemma disconnect_unregisters_witness :
  let σ1 := Server.handle jwt_example "s1" (Server.authenticate "b" 9) state_three in
  let σ2 := Server.handle jwt_example "s1" (Server.disconnect 10) σ1 in
  Server.connectedUsers σ2 !! "b" = None
  ∧ ∃ s2, Server.sockets σ2 !! "s2" = Some s2 ∧ Server.sock_userId s2 = Some "b".
Proof.
  intros σ1 σ2.
  destruct (disconnect_unregisters jwt_example "s1"
              (Server.mkSocket (Some "b") {["user_b"]} []) 10 σ1)
    as (_ & _ & Hothers & Hauth & _); [by vm_compute|].
  split.
  - destruct (Hauth "b") as (H & _); [reflexivity | exact H].
  - destruct (Hothers "s2"
                (Server.mkSocket (Some "b") {["chat_c1"]}
                   [Server.user_status_change "b" "online"]))
      as (s2 & Hs2 & Hid & _); [discriminate | by vm_compute |].
    exists s2. split; [exact Hs2 | exact Hid].
Defined.

Lemma connectionCount_tracks_sockets_witness :
  count_ok (Server.run jwt_example
              [("s4", Server.connection); ("s1", Server.disconnect 3);
               ("s4", Server.authenticate "a" 4); ("s9", Server.join_chat "c1")]
              state_three).
Proof.
  apply (connectionCount_tracks_sockets jwt_example). by vm_compute.
Defined.

Lemma typing_is_ephemeral_witness :
  let σ' := Server.handle jwt_example "s1" (typing_event "c1" true) state_three in
  Server.db σ' = Server.db state_three
  ∧ ∃ s2, Server.sockets σ' !! "s2" = Some s2
      ∧ Server.sock_received s2 = [Server.user_typing "c1" None true].
Proof.
  destruct (typing_is_ephemeral jwt_example "s1" (Server.mkSocket None ∅ [])
              "c1" true state_three) as (Hdb & _ & _ & _ & Hall);
    [by vm_compute|].
  split; [exact Hdb|].
  destruct (Hall "s2" (Server.mkSocket (Some "b") {["chat_c1"]} []))
    as (s2 & Hs2 & _ & _ & Hin & _); [by vm_compute|].
  exists s2. split; [exact Hs2|].
  apply Hin; [discriminate|]. apply (bool_decide_unpack _). by vm_compute.
Defined.

Lemma send_message_unknown_chat_witness :
  let σ' := Server.handle jwt_example "s3"
              (Server.send_message (payload "c9" "hi")) state_three in
  let σ'' := Server.handle jwt_example "s1"
               (Server.send_message (Server.fields None None))
               (Server.handle jwt_example "s2" (Server.join_chat "undefined")
                  state_three) in
  Server.db σ' = Server.db state_three
  ∧ ∃ s2, Server.sockets σ'' !! "s2" = Some s2
      ∧ Server.sock_received s2 = [Server.new_message None None].
Proof.
  split.
  - destruct (send_message_unknown_chat jwt_example "s3"
                (Server.mkSocket (Some "a") {["chat_c1"]} []) "c9" "hi" state_three)
      as (Hdb & _); [by vm_compute | reflexivity | exact Hdb].
  - destruct (send_message_unknown_chat jwt_example "s1"
                (Server.mkSocket None ∅ []) "c9" "hi"
                (Server.handle jwt_example "s2" (Server.join_chat "undefined")
                   state_three))
      as (_ & _ & Hundef & _); [by vm_compute | reflexivity |].
    destruct (Hundef None) as [_ Hall].
    destruct (Hall "s2" (Server.mkSocket (Some "b")
                           {["chat_undefined"; "chat_c1"]} []))
      as (s2 & Hs2 & Hrecv).
    + discriminate.
    + by vm_compute.
    + apply (bool_decide_unpack _). by vm_compute.
    + exists s2. split; [exact Hs2 | exact Hrecv].
Defined.

(** ** server.js: rooms *)
Section ServerRooms.
Import Server.
Variable jwt_verify : string → option ObjectId.

Lemma handle_join_chat sid chatId σ :
  handle jwt_verify sid (join_chat chatId) σ = on_join_chat sid chatId σ.
Proof.
  unfold handle. destruct (sockets σ !! sid) eqn:Hs; [done|].
  unfold on_join_chat. rewrite alter_id' by done. by destruct σ.
Qed.

Lemma handle_leave_chat sid chatId σ :
  handle jwt_verify sid (leave_chat chatId) σ = on_leave_chat sid chatId σ.
Proof.
  unfold handle. destruct (sockets σ !! sid) eqn:Hs; [done|].
  unfold on_leave_chat. rewrite alter_id' by done. by destruct σ.
Qed.

Lemma alter_twice (f g h : Socket → Socket) sid (ss : gmap SocketId Socket) :
  (∀ s, f (g s) = h s) → alter f sid (alter g sid ss) = alter h sid ss.
Proof.
  intros Hfg. apply map_eq. intros t. destruct (decide (t = sid)) as [->|Hne].
  - rewrite !lookup_alter_eq. destruct (ss !! sid); cbn; by rewrite ?Hfg.
  - by rewrite !lookup_alter_ne.
Qed.

Lemma socket_eq s1 s2 :
  sock_userId s1 = sock_userId s2 → sock_rooms s1 = sock_rooms s2 →
  sock_received s1 = sock_received s2 → s1 = s2.
Proof. destruct s1, s2. cbn. by intros -> -> ->. Qed.

(** X10. Room membership is a set: joining a room twice is joining it
    once, leaving twice is leaving once, leaving after joining is just
    leaving and joining after leaving is just joining; for a session that
    is not in the room, leaving changes nothing and joining then leaving
    gives back the state before.  None of this depends on the session
    being authenticated or even connected (then nothing happens). *)
Theorem join_leave_rooms (sid : SocketId) (chatId : string) (σ : State) :
  let j := handle jwt_verify sid (join_chat chatId) in
  let l := handle jwt_verify sid (leave_chat chatId) in
  j (j σ) = j σ ∧ l (l σ) = l σ ∧ l (j σ) = l σ ∧ j (l σ) = j σ
  ∧ ((∀ socket, sockets σ !! sid = Some socket →
        "chat_" +:+ chatId ∉ sock_rooms socket) →
     l σ = σ ∧ l (j σ) = σ).
Proof.
  cbn zeta. rewrite !handle_join_chat, !handle_leave_chat.
  unfold on_join_chat, on_leave_chat. cbn [sockets connectedUsers connectionCount db].
  split_and!.
  - f_equal. apply alter_twice. intros s. apply socket_eq; cbn; [done| |done].
    set_solver.
  - f_equal. apply alter_twice. intros s. apply socket_eq; cbn; [done| |done].
    set_solver.
  - f_equal. apply alter_twice. intros s. apply socket_eq; cbn; [done| |done].
    set_solver.
  - f_equal. apply alter_twice. intros s. apply socket_eq; cbn; [done| |done].
    apply set_eq. intros x. rewrite !elem_of_union, elem_of_difference.
    destruct (decide (x ∈ ({[ "chat_" +:+ chatId ]} : gset string))); naive_solver.
  - intros Hout.
    assert (alter (leave ("chat_" +:+ chatId)) sid (sockets σ) = sockets σ) as Hl.
    { apply alter_id. intros s Hs. apply socket_eq; cbn; [done| |done].
      specialize (Hout s Hs). set_solver. }
    split.
    + rewrite Hl. by destruct σ.
    + rewrite (alter_twice _ _ (leave ("chat_" +:+ chatId))).
      * rewrite Hl. by destruct σ.
      * intros s. apply socket_eq; cbn; [done| |done]. set_solver.
Qed.

(** X11. Joining a room is all it takes to receive a chat's messages: for
    any connected session, whatever its [userId] and whoever the chat's
    participants are, a [send_message] of another session that follows its
    [join_chat] is delivered to it, and one that follows its [leave_chat]
    is not. *)
Theorem join_chat_decides_delivery (t sid : SocketId) (s socket : Socket)
    (chatId message : string) (σ : State) :
  t ≠ sid →
  sockets σ !! t = Some s →
  sockets σ !! sid = Some socket →
  let send := handle jwt_verify sid (send_message (payload chatId message)) in
  (sock_received <$> sockets (send (handle jwt_verify t (join_chat chatId) σ)) !! t)
    = Some (sock_received s ++ [new_message (Some chatId) (Some message)])
  ∧ (sock_received <$> sockets (send (handle jwt_verify t (leave_chat chatId) σ)) !! t)
    = Some (sock_received s).
Proof.
  intros Hne Ht Hs. cbn zeta. unfold payload.
  rewrite handle_join_chat, handle_leave_chat. split.
  - rewrite (handle_send_message _ _ socket)
      by (cbn; by rewrite lookup_alter_ne).
    rewrite on_send_message_sockets. cbn. rewrite lookup_alter_eq, Ht. cbn.
    rewrite bool_decide_eq_true_2; [done|]. split; [done | set_solver].
  - rewrite (handle_send_message _ _ socket)
      by (cbn; by rewrite lookup_alter_ne).
    rewrite on_send_message_sockets. cbn. rewrite lookup_alter_eq, Ht. cbn.
    rewrite bool_decide_eq_false_2; [done|]. intros [_ Hin]. set_solver.
Qed.

End ServerRooms.

Lemma join_leave_rooms_witness :
  Server.handle jwt_example "s1" (Server.leave_chat "c1")
    (Server.handle jwt_example "s1" (Server.join_chat "c1") state_three)
  = state_three.
Proof.
  destruct (join_leave_rooms jwt_example "s1" "c1" state_three)
    as (_ & _ & _ & _ & H).
  apply H. intros socket Hs.
  assert (Some socket = Some (Server.mkSocket None ∅ [])) as [= ->]
    by (rewrite <- Hs; by vm_compute).
  cbn. apply not_elem_of_empty.
Defined.

Lemma join_chat_decides_delivery_witness :
  (Server.sock_received
     <$> Server.sockets
           (Server.handle jwt_example "s3" (Server.send_message (payload "c1" "hi"))
              (Server.handle jwt_example "s1" (Server.join_chat "c1") state_three))
         !! "s1")
  = Some [Server.new_message (Some "c1") (Some "hi")].
Proof.
  destruct (join_chat_decides_delivery jwt_example "s1" "s3"
              (Server.mkSocket None ∅ [])
              (Server.mkSocket (Some "a") {["chat_c1"]} []) "c1" "hi" state_three)
    as [H _]; [discriminate | by vm_compute | by vm_compute | exact H].
Defined.

(** ** server.js: what the socket events leave alone in the store *)
Section ServerFrame.
Import Server.
Variable jwt_verify : string → option ObjectId.

(** X12. Over every sequence of client events, each handled to its end
    before the next, the store keeps, for every chat and in the same
    order, its identity, participants, last-message summary and
    soft-delete markers, and keeps the messages untouched and the same
    users with the same names: the socket handlers write nothing but
    unread counters and the users' status and last-seen time. *)
Theorem socket_events_keep_store
    (evs : list (SocketId * ClientEvent)) (σ : State) :
  let σ' := run jwt_verify evs σ in
  chat_frame <$> chats (db σ') = chat_frame <$> chats (db σ)
  ∧ messages (db σ') = messages (db σ)
  ∧ user_name <$> users (db σ') = user_name <$> users (db σ).
Proof.
  cbn zeta.
  assert (store_frame (db (run jwt_verify evs σ)) = store_frame (db σ)) as Hf.
  { revert σ. induction evs as [|[sid ev] evs IH]; intros σ; [done|].
    unfold run. cbn [foldl fst snd]. etrans; [apply IH|].
    apply handle_store_frame. }
  unfold store_frame in Hf. by injection Hf.
Qed.

End ServerFrame.

(** ** server.js: the handlers interleaved at their awaits *)
Section ServerAsync.
Import Server.
Variable jwt_verify : string → option ObjectId.

(** X26. A [send_message] of an authenticated session for an existing
    chat, its handler running with no other handler in between: when the
    chat lists each participant once and holds no negative count, the
    unread counter of every participant other than the sender goes up by
    exactly 1, so that an entry exists afterwards, and the sender's
    counter stays as it was.  Hence N such sends by sessions of other
    users, each handled to its end before the next, add exactly N to a
    participant's counter: it reads N when it read 0 before. *)
Theorem serial_sends_increment_others (sid : SocketId) (socket : Socket)
    (u : ObjectId) (chatId message : string) (σ : State) (c : ChatDoc) :
  sockets σ !! sid = Some socket →
  sock_userId socket = Some u →
  (Chat.findById chatId (db σ)).1 = Some c →
  NoDup (participants c) →
  Forall (λ item, (0 ≤ count item)%Z) (unreadCounts c) →
  (∃ c', (Chat.findById chatId
            (db (handle jwt_verify sid (send_message (payload chatId message)) σ))).1
           = Some c'
     ∧ (∀ p, p ∈ participants c → p ≠ u →
          Chat.getUnreadCount c' p = (Chat.getUnreadCount c p + 1)%Z
          ∧ is_Some (find (λ item, user item = p) (unreadCounts c')))
     ∧ Chat.getUnreadCount c' u = Chat.getUnreadCount c u)
  ∧ (∀ (sends : list (SocketId * string)) (p : ObjectId),
       p ∈ participants c →
       Forall (λ e, ∃ v, sender_of σ e.1 = Some v ∧ v ≠ p) sends →
       ∃ c', (Chat.findById chatId
                (db (run jwt_verify (sends_to chatId sends) σ))).1 = Some c'
         ∧ Chat.getUnreadCount c' p =
             (Chat.getUnreadCount c p + Z.of_nat (length sends))%Z
         ∧ (Chat.getUnreadCount c p = 0%Z →
            Chat.getUnreadCount c' p = Z.of_nat (length sends))).
Proof.
  intros Hs Hu Hc Hnd Hok. split.
  - rewrite (handle_send_message _ _ socket) by done.
    destruct (on_send_message_store jwt_verify sid socket chatId message σ c Hc Hnd Hok)
      as (c' & Hc' & _ & _ & _ & Hcount).
    exists c'. split_and!; [exact Hc' | |].
    + intros p Hp Hne.
      assert (Chat.getUnreadCount c' p = (Chat.getUnreadCount c p + 1)%Z) as Hp1.
      { rewrite Hcount, bool_decide_eq_true_2; [done|].
        split; [done|]. rewrite Hu. congruence. }
      split; [exact Hp1|].
      pose proof (unreadOf_nonneg (unreadCounts c) p Hok) as Hge.
      rewrite !getUnreadCount_unreadOf in Hp1. unfold unreadOf in Hp1 at 1.
      destruct (find _ (unreadCounts c')); [done | lia].
    + rewrite Hcount, bool_decide_eq_false_2; [lia|].
      rewrite Hu. intros [_ Hne]. by apply Hne.
  - intros sends p Hp Hall.
    destruct (run_sends_unread jwt_verify chatId p sends σ c Hc Hnd Hok Hp Hall)
      as (c' & Hc' & Hcount).
    exists c'. split_and!; [done | done |]. intros H0. rewrite Hcount. lia.
Qed.

(** The update command and the change in memory are the same change. *)
Lemma unreadUpdate_bumpUnread userId increment l :
  match Chat.unreadUpdate userId increment l with
  | Some (Chat.push_entry item) => push l item
  | Some (Chat.set_entry_count index n) => alter (λ item, set_count item n) index l
  | None => l
  end = Chat.bumpUnread userId increment l.
Proof.
  unfold Chat.unreadUpdate, Chat.bumpUnread.
  destruct (findIndex _ l >? -1)%Z; [|by destruct increment].
  destruct (l !! Z.to_nat (findIndex (λ item, user item = userId) l))
    as [item|] eqn:Hi.
  - apply list_eq. intros j.
    destruct (decide (j = Z.to_nat (findIndex (λ item, user item = userId) l)))
      as [->|Hne].
    + by rewrite !list_lookup_alter_eq, Hi.
    + by rewrite !list_lookup_alter_ne.
  - symmetry. apply list_eq. intros j.
    destruct (decide (j = Z.to_nat (findIndex (λ item, user item = userId) l)))
      as [->|Hne].
    + by rewrite list_lookup_alter_eq, Hi.
    + by rewrite list_lookup_alter_ne.
Qed.

Lemma updateOne_first {A} (P : A → Prop) `{!∀ x, Decision (P x)}
    (f g : A → A) (l : list A) (c : A) :
  find P l = Some c → f c = g c → updateOne P f l = updateOne P g l.
Proof.
  intros Hc Hfg. induction l as [|x l IH]; [done|]. cbn [updateOne].
  rewrite find_cons in Hc. destruct (decide (P x)).
  - injection Hc as ->. by rewrite Hfg.
  - by rewrite IH.
Qed.

(** On the document as it is stored, the update command leaves the store
    as writing the document back does. *)
Lemma applyUpdate_stored chat p d :
  find (λ c, chat_id c = chat_id chat) (chats d) = Some chat →
  (Chat.applyUpdate (chat_id chat)
     (Chat.unreadUpdate p true (unreadCounts chat)) d).2
  = (Chat.updateUnreadCount chat p true d).2.
Proof.
  intros Hst. rewrite updateUnreadCount_true.
  pose proof (unreadUpdate_bumpUnread p true (unreadCounts chat)) as Hcmd.
  unfold Chat.applyUpdate.
  destruct (Chat.unreadUpdate p true (unreadCounts chat)) as [command|] eqn:Hu.
  - cbn. f_equal. apply (updateOne_first _ _ _ _ chat); [done|].
    by rewrite <- Hcmd.
  - exfalso. unfold Chat.unreadUpdate in Hu.
    destruct (findIndex _ (unreadCounts chat) >? -1)%Z eqn:Hf; [|done].
    rewrite findIndex_found in Hf. apply some_true_iff in Hf.
    unfold findIndex in Hu.
    destruct (list_find _ (unreadCounts chat)) as [[i item]|] eqn:Hl.
    + apply list_find_Some in Hl as (Hi & _). rewrite Nat2Z.id, Hi in Hu. done.
    + apply list_find_None in Hl. apply Exists_exists in Hf as (x & Hx & HP).
      by eapply Forall_forall in Hl.
Qed.

Lemma settle_done fuel κ : pending κ = [] → settle fuel κ = κ.
Proof. intros Hp. destruct fuel; [done|]. cbn. by rewrite Hp. Qed.

(** The loop of the [send_message] handler when nothing else moves. *)
Lemma settle_send_loop rest : ∀ chat ss cu n d gone fuel,
  find (λ c, chat_id c = chat_id chat) (chats d) = Some chat →
  2 * length rest ≤ fuel →
  settle fuel (mkConfig (mkState ss cu n d) gone
                        (option_list (send_loop chat rest)))
  = mkConfig
      (mkState ss cu n
         (forOf rest
            (λ chat participantId, Chat.updateUnreadCount chat participantId true)
            chat d).2)
      gone [].
Proof.
  induction rest as [|p rest IH]; intros chat ss cu n d gone fuel Hst Hfuel.
  - by rewrite settle_done.
  - cbn [length] in Hfuel.
    destruct fuel as [|[|fuel]]; [lia | lia |].
    cbn [forOf]. rewrite bind_eq, updateUnreadCount_doc.
    set (chat1 := set_unreadCounts chat (Chat.bumpUnread p true (unreadCounts chat))).
    rewrite <- (applyUpdate_stored chat p d Hst).
    assert (chat_id chat1 = chat_id chat) as Hid by done.
    etrans; [|apply (IH chat1 ss cu n _ gone fuel)]; [done| |lia].
    rewrite (applyUpdate_stored chat p d Hst), updateUnreadCount_true. cbn.
    rewrite find_updateOne by done. by rewrite Hst.
Qed.


(** One move of the only suspended handler. *)
Lemma settle_head fuel σ gone task :
  settle (S fuel) (mkConfig σ gone [task]) =
  settle fuel
    (mkConfig (server (advance task (mkConfig σ gone [task])).1)
              (closed (advance task (mkConfig σ gone [task])).1)
              (option_list (advance task (mkConfig σ gone [task])).2)).
Proof.
  cbn [settle pending]. unfold advance_task. cbn [pending lookup list_lookup].
  destruct (advance task _) as [κ' [task'|]]; done.
Qed.

Ltac alone_step :=
  rewrite settle_head;
  cbn [advance server closed pending fst snd db option_list option_rect
       sockets connectedUsers connectionCount].

(** A handler that runs alone, from the arrival of its event to its end
    with no other handler suspended and nothing arriving meanwhile,
    leaves the server in the state [handle] gives, and it does end. *)
Lemma handler_alone_is_handle (sid : SocketId) (ev : ClientEvent) (σ : State)
    (gone : gmap SocketId (option ObjectId)) :
  ∃ n gone', ∀ fuel, n ≤ fuel →
    settle fuel (arrival jwt_verify sid ev (mkConfig σ gone []))
    = mkConfig (handle jwt_verify sid ev σ) gone' [].
Proof.
  unfold arrival, handle, push. cbn [server closed pending app].
  destruct (sockets σ !! sid) as [socket|] eqn:Hs.
  - destruct ev as [|token now|chatId|chatId|data|chatId|chatId|now].
    + exists 0, gone. intros fuel _. by rewrite settle_done.
    + unfold on_authenticate. destruct (jwt_verify token) as [u|] eqn:Hv.
      * destruct (users (db σ) !! u) as [usr|] eqn:Hu.
        -- exists 4, (alter (λ _, Some u) sid gone). intros fuel Hfuel.
           do 4 (destruct fuel as [|fuel]; [lia|]).
           alone_step. rewrite Hu. do 3 alone_step. by rewrite settle_done.
        -- exists 2, gone. intros fuel Hfuel.
           do 2 (destruct fuel as [|fuel]; [lia|]).
           alone_step. rewrite Hu. alone_step. by rewrite settle_done.
      * exists 0, gone. intros fuel _. by rewrite settle_done.
    + exists 0, gone. intros fuel _. by rewrite settle_done.
    + exists 0, gone. intros fuel _. by rewrite settle_done.
    + destruct data as [|chatId message].
      * exists 0, gone. intros fuel _. by rewrite settle_done.
      * exists (2 + 2 * length (default [] (participants <$> (findChat chatId (db σ)).1))),
               gone.
        intros fuel Hfuel.
        do 2 (destruct fuel as [|fuel]; [lia|]).
        alone_step.
        unfold on_send_message. rewrite bind_eq.
        assert ((findChat chatId (db σ)).2 = db σ) as -> by by destruct chatId.
        destruct (findChat chatId (db σ)).1 as [chat|] eqn:Hfound; alone_step.
        -- rewrite bind_eq. cbn [ret snd].
           assert (userId_of
                     (mkConfig
                        (mkState (to_emit sid ("chat_" +:+ template chatId)
                                    (new_message chatId message) (sockets σ))
                                 (connectedUsers σ) (connectionCount σ) (db σ))
                        gone [send_found sid (Some chat)]) sid
                   = sock_userId socket) as ->.
           { unfold userId_of. cbn [server sockets].
             rewrite lookup_to_emit, Hs. cbn. by destruct (bool_decide _). }
           rewrite settle_send_loop; [done| |].
           ++ unfold findChat, Chat.findById in Hfound.
              destruct chatId as [id|]; [|done]. cbn [fst] in Hfound.
              pose proof (find_Some_holds _ _ _ Hfound) as [Hid _]. cbn in Hid.
              by rewrite Hid.
           ++ cbn [fmap option_fmap option_map default] in Hfuel.
              unfold id in Hfuel. unfold otherParticipants.
              pose proof (length_filter
                            (λ participant, Some participant ≠ sock_userId socket)
                            (participants chat)). lia.
        -- by rewrite settle_done.
    + exists 0, gone. intros fuel _. by rewrite settle_done.
    + exists 0, gone. intros fuel _. by rewrite settle_done.
    + unfold on_disconnect. destruct (sock_userId socket) as [u|] eqn:Hu.
      * exists 2, (<[sid := Some u]> gone). intros fuel Hfuel.
        do 2 (destruct fuel as [|fuel]; [lia|]).
        do 2 alone_step.
        rewrite settle_done by done.
        unfold userId_of. cbn [server sockets closed].
        by rewrite lookup_delete_eq, lookup_insert_eq.
      * exists 0, (<[sid := None]> gone). intros fuel _. by rewrite settle_done.
  - destruct ev; [exists 0, (delete sid gone) | exists 0, gone ..];
      intros fuel _; by rewrite settle_done.
Qed.

(** X27. A serial run is one of the interleaved runs: when every
    handler runs to its end before the next event arrives, with no
    handler suspended at the start, the server goes through the states
    of [run], and every handler does end. *)
Theorem serial_run_is_run (evs : list (SocketId * ClientEvent)) (σ : State)
    (gone : gmap SocketId (option ObjectId)) :
  ∃ n gone', ∀ fuel, n ≤ fuel →
    run_alone jwt_verify fuel evs (mkConfig σ gone [])
    = mkConfig (run jwt_verify evs σ) gone' [].
Proof.
  revert σ gone. induction evs as [|[sid ev] evs IH]; intros σ gone.
  - exists 0, gone. done.
  - destruct (handler_alone_is_handle sid ev σ gone) as (n1 & gone1 & H1).
    destruct (IH (handle jwt_verify sid ev σ) gone1) as (n2 & gone2 & H2).
    exists (n1 `max` n2), gone2. intros fuel Hfuel.
    unfold run_alone, run. cbn [foldl fst snd].
    rewrite H1 by lia. apply H2. lia.
Qed.


Lemma arrival_db sid ev κ :
  db (server (arrival jwt_verify sid ev κ)) = db (server κ).
Proof.
  unfold arrival.
  destruct (sockets (server κ) !! sid) as [socket|]; [|by destruct ev].
  destruct ev as [|token now|chatId|chatId|data|chatId|chatId|now]; try done.
  - by destruct (jwt_verify token).
  - by destruct data.
  - by destruct (sock_userId socket).
Qed.

Lemma applyUpdate_frame id update d :
  store_frame (Chat.applyUpdate id update d).2 = store_frame d.
Proof.
  destruct update as [command|]; [|done]. unfold store_frame. cbn.
  f_equal. f_equal. by apply fmap_updateOne_frame.
Qed.

Lemma advance_frame task κ :
  store_frame (db (server (advance task κ).1)) = store_frame (db (server κ)).
Proof.
  destruct task as [sid u now|sid u [usr|] now|sid u now|sid u|sid chatId
                    |sid [chat|]|chat update rest|chat rest|sid u now|sid u];
    cbn [advance fst server db]; try done.
  - apply updateUserStatus_frame.
  - apply applyUpdate_frame.
  - apply updateUserStatus_frame.
Qed.

Lemma perform_frame action κ :
  store_frame (db (server (perform jwt_verify action κ)))
  = store_frame (db (server κ)).
Proof.
  destruct action as [sid ev|i|i]; cbn [perform].
  - by rewrite arrival_db.
  - unfold advance_task. destruct (pending κ !! i) as [task|]; [|done].
    pose proof (advance_frame task κ) as Hf.
    by destruct (advance task κ) as [κ' next].
  - unfold refuse_task.
    destruct (pending κ !! i) as [[| | | | | |chat [[item|index n]|] rest| | |]|];
      done.
Qed.

(** X28. Whatever the order in which events arrive and suspended handlers
    move, the store keeps, for every chat and in the same order, its
    identity, participants, last-message summary and soft-delete markers,
    and keeps the messages untouched and the same users with the same
    names. *)
Theorem interleaved_handlers_keep_store (schedule : list Action) (κ : Config) :
  let κ' := exec jwt_verify schedule κ in
  chat_frame <$> chats (db (server κ')) = chat_frame <$> chats (db (server κ))
  ∧ messages (db (server κ')) = messages (db (server κ))
  ∧ user_name <$> users (db (server κ')) = user_name <$> users (db (server κ)).
Proof.
  cbn zeta.
  assert (store_frame (db (server (exec jwt_verify schedule κ)))
          = store_frame (db (server κ))) as Hf.
  { revert κ. induction schedule as [|action schedule IH]; intros κ; [done|].
    unfold exec. cbn [foldl]. etrans; [apply IH|]. apply perform_frame. }
  unfold store_frame in Hf. by injection Hf.
Qed.

Lemma arrival_count_ok sid ev κ :
  count_ok (server κ) → count_ok (server (arrival jwt_verify sid ev κ)).
Proof.
  unfold count_ok, arrival. intros Hok.
  destruct (sockets (server κ) !! sid) as [socket|] eqn:Hs.
  - destruct ev as [|token now|chatId|chatId|data|chatId|chatId|now]; try done.
    + by destruct (jwt_verify token).
    + cbn. by rewrite size_alter_socket.
    + cbn. by rewrite size_alter_socket.
    + destruct data as [|chatId message]; [done|]. cbn.
      unfold to_emit. by rewrite size_imap_Some.
    + cbn. unfold to_emit. by rewrite size_imap_Some.
    + cbn. unfold to_emit. by rewrite size_imap_Some.
    + assert (size (delete sid (sockets (server κ)))
              = pred (size (sockets (server κ)))) as Hdel.
      { by rewrite map_size_delete, Hs. }
      assert (size (sockets (server κ)) ≠ 0) as Hpos.
      { intros H0. apply map_size_empty_inv in H0. by rewrite H0 in Hs. }
      destruct (sock_userId socket); cbn; rewrite Hdel, Hok; lia.
  - destruct ev; try done. cbn.
    rewrite map_size_insert_None by done. rewrite Hok. lia.
Qed.

Lemma advance_count_ok task κ :
  count_ok (server κ) → count_ok (server (advance task κ).1).
Proof.
  unfold count_ok. intros Hok.
  destruct task as [sid u now|sid u [usr|] now|sid u now|sid u|sid chatId
                    |sid [chat|]|chat update rest|chat rest|sid u now|sid u];
    cbn [advance fst server sockets connectionCount]; try done.
  - by rewrite size_alter_socket.
  - unfold broadcast_emit. by rewrite size_imap_Some, size_alter_socket.
  - unfold broadcast_emit. by rewrite size_imap_Some.
Qed.

Lemma perform_count_ok action κ :
  count_ok (server κ) → count_ok (server (perform jwt_verify action κ)).
Proof.
  intros Hok. destruct action as [sid ev|i|i]; cbn [perform].
  - by apply arrival_count_ok.
  - unfold advance_task. destruct (pending κ !! i) as [task|]; [|done].
    pose proof (advance_count_ok task κ Hok) as Hf.
    by destruct (advance task κ) as [κ' next].
  - unfold refuse_task.
    destruct (pending κ !! i) as [[| | | | | |chat [[item|index n]|] rest| | |]|];
      done.
Qed.

(** X29. [connectionCount] stays equal to the number of connected sockets
    whatever the order in which events arrive and suspended handlers
    move: only the arrival of [connection] and of [disconnect] changes
    either, and each changes both before its handler is first
    suspended. *)
Theorem connectionCount_tracks_sockets_interleaved
    (schedule : list Action) (κ : Config) :
  count_ok (server κ) → count_ok (server (exec jwt_verify schedule κ)).
Proof.
  revert κ. induction schedule as [|action schedule IH]; intros κ Hok; [done|].
  unfold exec. cbn [foldl]. apply IH. by apply perform_count_ok.
Qed.

End ServerAsync.


(** ** models/Message.js: read receipts, edits and soft delete *)

(** Whatever [save] comes to, the document in memory keeps what the
    method left in it. *)
Lemma messageFull_save_doc modified this db :
  let doc := saved_doc (MessageFull.save modified this db).1 in
  Message.set_isNew (base doc) (isNew (base this)) = base this
  ∧ readBy doc = readBy this
  ∧ isEdited doc = isEdited this
  ∧ editedAt doc = editedAt this.
Proof.
  cbn zeta. unfold MessageFull.save. rewrite bind_eq. cbn [ret fst].
  pose proof (message_save_doc modified (base this) db) as Hdoc.
  by destruct (Message.save modified (base this) db).1.
Qed.

(** [save] of a loaded document whose modified paths pass validation. *)
Lemma messageFull_save_stored modified this db :
  isNew (base this) = false →
  forallb (Message.validPath (base this)) modified = true →
  MessageFull.save modified this db =
  (Resolved (mkMessageFull (Message.set_isNew (base this) false) (readBy this)
                           (isEdited this) (editedAt this)),
   mkStore (users db) (chats db)
     (updateOne (λ m', msg_id m' = msg_id (base this))
                (λ _, Message.set_isNew (base this) false) (messages db))
     (S (writes db))).
Proof.
  intros Hn Hv. unfold MessageFull.save.
  by rewrite bind_eq, message_save_stored.
Qed.

Lemma messageFull_markAsRead_readBy this userId now db :
  readBy (saved_doc (MessageFull.markAsRead this userId now db).1) =
  if some (λ read, rr_user read = userId) (readBy this) then readBy this
  else readBy this ++ [mkReadReceipt userId now].
Proof.
  unfold MessageFull.markAsRead.
  destruct (find _ (readBy this)) as [r|] eqn:E.
  - apply find_Some_holds in E as [Hr Hin].
    assert (Exists (λ read, rr_user read = userId) (readBy this)) as Hex
      by (apply Exists_exists; eauto).
    by rewrite (proj2 (some_true_iff (λ read, rr_user read = userId) _) Hex).
  - apply find_None_iff in E.
    rewrite (proj2 (some_false_iff (λ read, rr_user read = userId) _) E).
    by destruct (messageFull_save_doc []
                   (mkMessageFull (base this)
                      (push (readBy this) (mkReadReceipt userId now))
                      (isEdited this) (editedAt this)) db) as (_ & -> & _).
Qed.

(** X13. [markAsRead] of a message records a user's read once: the
    receipts already there are kept as they are and in order, the user has
    exactly the receipt that was first recorded, a call for a user who
    already has one returns the document as it is and issues no write (so
    the first read time is never overwritten), and a list with at most one
    receipt per user stays so.  On a message that is in the store the
    call resolves. *)
Theorem message_markAsRead_once (this : MessageFull) (userId : ObjectId)
    (now later : Z) (db : Store) :
  let r := MessageFull.markAsRead this userId now db in
  let doc := saved_doc r.1 in
  (∃ receipt, find (λ read, rr_user read = userId) (readBy doc) = Some receipt
     ∧ (find (λ read, rr_user read = userId) (readBy this) = None →
        receipt = mkReadReceipt userId now ∧ readBy doc = readBy this ++ [receipt])
     ∧ (∀ old, find (λ read, rr_user read = userId) (readBy this) = Some old →
        receipt = old ∧ r = (Resolved this, db)))
  ∧ MessageFull.markAsRead doc userId later r.2 = (Resolved doc, r.2)
  ∧ (NoDup (rr_user <$> readBy this) → NoDup (rr_user <$> readBy doc))
  ∧ (isNew (base this) = false →
     is_Some (Message.findById (msg_id (base this)) db).1 →
     r.1 = Resolved doc).
Proof.
  cbn zeta. split_and!.
  - unfold MessageFull.markAsRead.
    destruct (find _ (readBy this)) as [old|] eqn:E.
    + exists old. cbn. split_and!; [done | done |].
      intros old' [= <-]. done.
    + destruct (messageFull_save_doc []
                  (mkMessageFull (base this)
                     (push (readBy this) (mkReadReceipt userId now))
                     (isEdited this) (editedAt this)) db) as (_ & Hrb & _).
      cbn in Hrb. rewrite Hrb. exists (mkReadReceipt userId now).
      split_and!; [|done|done].
      unfold push. rewrite find_app, E, find_cons. by rewrite decide_True.
  - unfold MessageFull.markAsRead at 1.
    assert (is_Some (find (λ read, rr_user read = userId)
                       (readBy (saved_doc
                                  (MessageFull.markAsRead this userId now db).1))))
      as [receipt Hr].
    { rewrite messageFull_markAsRead_readBy.
      destruct (some _ (readBy this)) eqn:E.
      - apply some_true_iff in E.
        destruct (find (λ read, rr_user read = userId) (readBy this)) eqn:F;
          [done|]. by apply find_None_iff in F.
      - rewrite find_app.
        destruct (find (λ read, rr_user read = userId) (readBy this)); [done|].
        rewrite find_cons. by rewrite decide_True. }
    by rewrite Hr.
  - intros Hnd. rewrite messageFull_markAsRead_readBy.
    destruct (some _ (readBy this)) eqn:E; [done|].
    rewrite fmap_app. apply NoDup_app. split_and!; [done| |apply NoDup_singleton].
    intros x Hx ->%list_elem_of_singleton. apply some_false_iff in E. apply E.
    apply list_elem_of_fmap in Hx as (read & Heq & Hin).
    apply Exists_exists. exists read. split; [done | cbn in Heq; congruence].
  - intros Hn _. unfold MessageFull.markAsRead.
    destruct (find _ (readBy this)); [done|].
    by rewrite messageFull_save_stored.
Qed.

Lemma length_updateOne {A} (P : A → Prop) `{!∀ x, Decision (P x)} (f : A → A) l :
  length (updateOne P f l) = length l.
Proof.
  induction l as [|x l IH]; [done|]. cbn [updateOne].
  destruct (decide (P x)); cbn; by rewrite ?IH.
Qed.

(** The store after the write of a loaded message. *)
Lemma findById_after_update m (db : Store) n :
  let db' := mkStore (users db) (chats db)
               (updateOne (λ m', msg_id m' = msg_id m)
                          (λ _, Message.set_isNew m false) (messages db)) n in
  (∀ id, id ≠ msg_id m →
     (Message.findById id db').1 = (Message.findById id db).1)
  ∧ (is_Some (Message.findById (msg_id m) db).1 →
     (Message.findById (msg_id m) db').1 = Some (Message.set_isNew m false)).
Proof.
  cbn zeta. unfold Message.findById. cbn [fst snd messages]. split.
  - intros id Hne. f_equal. apply find_updateOne_other.
    cbn. intros x Hx. split; congruence.
  - intros [found Hf]. rewrite find_updateOne by done.
    destruct (find _ (messages db)); [|done]. by destruct m.
Qed.

(** X14. [editMessage] of a message that is in the store and satisfies
    the schema never touches a chat document, so a [lastMessage] summary of that
    message keeps the old text.  With a text of at most 2000 characters
    it replaces the text, flags the message as edited at the time of the
    call and writes it back in place, keeping the reactions, the read
    receipts and the deleted flag (a deleted message can still be
    edited).  A longer text is refused: the call rejects and the store is
    as before, while the document in memory carries the new text. *)
Theorem editMessage_keeps_summary (this : MessageFull) (newText : string)
    (now : Z) (db : Store) :
  isNew (base this) = false →
  is_Some (Message.findById (msg_id (base this)) db).1 →
  Message.valid (base this) = true →
  let r := MessageFull.editMessage this newText now db in
  chats r.2 = chats db
  ∧ (String.length newText ≤ 2000 →
     ∃ doc, r.1 = Resolved doc
       ∧ base doc = MessageFull.set_text (base this) newText
       ∧ isEdited doc = true ∧ editedAt doc = Some now
       ∧ readBy doc = readBy this
       ∧ length (messages r.2) = length (messages db)
       ∧ (Message.findById (msg_id (base this)) r.2).1 = Some (base doc)
       ∧ (∀ id, id ≠ msg_id (base this) →
            (Message.findById id r.2).1 = (Message.findById id db).1))
  ∧ (2000 < String.length newText →
     r = (Rejected (mkMessageFull (MessageFull.set_text (base this) newText)
                                  (readBy this) true (Some now)),
          db)).
Proof.
  intros Hn Hstored _. cbn zeta. unfold MessageFull.editMessage.
  set (m := MessageFull.set_text (base this) newText).
  assert (isNew m = false) as Hm by done.
  assert (msg_id m = msg_id (base this)) as Hid by done.
  destruct (decide (String.length newText ≤ 2000)) as [Hlen|Hlen].
  - rewrite messageFull_save_stored;
      [|done|cbn; by rewrite bool_decide_eq_true_2].
    cbn [fst snd chats messages base]. split_and!; [done| |lia].
    intros _. eexists. split; [reflexivity|].
    cbn [base isEdited editedAt readBy].
    destruct (findById_after_update m db (S (writes db))) as [Hother Hself].
    rewrite Hid in *. split_and!; try done.
    + subst m. unfold MessageFull.set_text, Message.set_isNew. cbn.
      by rewrite <- Hn.
    + apply length_updateOne.
    + by apply Hself.
  - assert (MessageFull.save [Message.path_content_text]
              (mkMessageFull m (readBy this) true (Some now)) db
            = (Rejected (mkMessageFull m (readBy this) true (Some now)), db)) as ->.
    { unfold MessageFull.save.
      rewrite bind_eq, message_save_refused; [done|].
      unfold Message.validate. cbn [base]. rewrite Hm. cbn.
      by rewrite bool_decide_eq_false_2. }
    split_and!; [done | lia | done].
Qed.

(** X15. [softDelete] of a stored message only flags it: the message
    stays in the store at its place with its text, reactions and read
    receipts, marked deleted at the time of the call (a repeated call
    moves that time forward); no other message and no chat changes.  On
    a message that is in the store the call resolves. *)
Theorem softDelete_only_flags (this : MessageFull) (now : Z) (db : Store) :
  isNew (base this) = false →
  let r := MessageFull.softDelete this now db in
  let doc := saved_doc r.1 in
  base doc = Message.set_deleted (base this) now
  ∧ isDeleted (base doc) = true ∧ deletedAt (base doc) = Some now
  ∧ content_text (base doc) = content_text (base this)
  ∧ reactions (base doc) = reactions (base this)
  ∧ readBy doc = readBy this
  ∧ chats r.2 = chats db
  ∧ length (messages r.2) = length (messages db)
  ∧ (is_Some (Message.findById (msg_id (base this)) db).1 →
     r.1 = Resolved doc
     ∧ (Message.findById (msg_id (base this)) r.2).1 = Some (base doc))
  ∧ (∀ id, id ≠ msg_id (base this) →
       (Message.findById id r.2).1 = (Message.findById id db).1).
Proof.
  intros Hn. cbn zeta. unfold MessageFull.softDelete.
  set (m := Message.set_deleted (base this) now).
  assert (isNew m = false) as Hm by done.
  assert (msg_id m = msg_id (base this)) as Hid by done.
  rewrite messageFull_save_stored by done.
  cbn [fst snd chats messages base saved_doc].
  cbn [base isEdited editedAt readBy].
  destruct (findById_after_update m db (S (writes db))) as [Hother Hself].
  rewrite Hid in *. split_and!; try done.
  - subst m. unfold Message.set_deleted, Message.set_isNew. cbn.
    by rewrite <- Hn.
  - apply length_updateOne.
  - intros Hstored. split; [done | by apply Hself].
Qed.

(** ** models/Admin.js: the lockout of [comparePassword] *)
Section AdminProps.
Variable bcrypt_compare : string → string → bool.
Variable jwt_sign : ObjectId → string → string → string.
Variable toLowerCase : string → string.

Lemma comparePassword_wrong this candidate now db :
  Admin.isLocked this now = false →
  bcrypt_compare candidate (password this) = false →
  Admin.comparePassword bcrypt_compare this candidate now db =
  (Returns false,
   Admin.set_attempts this (loginAttempts this + 1)
     (if (loginAttempts this + 1 >=? 5)%Z then Some (now + 15 * 60 * 1000)%Z
      else lockUntil this),
   (Admin.save
      (Admin.set_attempts this (loginAttempts this + 1)
         (if (loginAttempts this + 1 >=? 5)%Z then Some (now + 15 * 60 * 1000)%Z
          else lockUntil this)) db).2).
Proof.
  intros Hl Hw. unfold Admin.comparePassword. by rewrite Hl, Hw.
Qed.

(** X16. While an account is locked, [comparePassword] throws for every
    candidate, the right password included, and touches neither the
    document nor the store.  A wrong password on an account that is not
    locked counts one more attempt, and from four counted attempts on it
    locks the account for the 15 minutes after the call; the count is not
    reset when a lock runs out, so after that a single wrong password
    locks the account again. *)
Theorem comparePassword_lock (this : AdminDoc) (candidate : string) (now : Z)
    (db : AdminStore) :
  (Admin.isLocked this now = true →
     Admin.comparePassword bcrypt_compare this candidate now db
       = (Throws "Account is temporarily locked", this, db))
  ∧ (Admin.isLocked this now = false →
     bcrypt_compare candidate (password this) = false →
     ∃ this' db',
       Admin.comparePassword bcrypt_compare this candidate now db
         = (Returns false, this', db')
       ∧ loginAttempts this' = (loginAttempts this + 1)%Z
       ∧ password this' = password this
       ∧ admin_writes db' = S (admin_writes db)
       ∧ ((4 ≤ loginAttempts this)%Z →
          ∀ t other, (t < now + 900000)%Z →
            Admin.isLocked this' t = true
            ∧ Admin.comparePassword bcrypt_compare this' other t db'
                = (Throws "Account is temporarily locked", this', db'))
       ∧ ((loginAttempts this < 4)%Z → lockUntil this' = lockUntil this)).
Proof.
  split.
  - intros Hl. unfold Admin.comparePassword. by rewrite Hl.
  - intros Hl Hw. rewrite comparePassword_wrong by done.
    eexists _, _. split; [reflexivity|]. cbn.
    split_and!; try done.
    + intros H4 t other Ht.
      assert (Admin.isLocked
                (Admin.set_attempts this (loginAttempts this + 1)
                   (if (loginAttempts this + 1 >=? 5)%Z
                    then Some (now + 15 * 60 * 1000)%Z else lockUntil this)) t
              = true) as Hlocked.
      { unfold Admin.isLocked. cbn.
        replace (loginAttempts this + 1 >=? 5)%Z with true
          by (symmetry; apply Z.geb_le; lia).
        apply Z.gtb_lt. lia. }
      split; [exact Hlocked|]. unfold Admin.comparePassword. by rewrite Hlocked.
    + intros H4.
      replace (loginAttempts this + 1 >=? 5)%Z with false; [done|].
      symmetry. rewrite Z.geb_leb. apply Z.leb_gt. lia.
Qed.

Lemma tryPasswords_below_limit tries : ∀ this db,
  lockUntil this = None →
  (loginAttempts this + Z.of_nat (length tries) ≤ 4)%Z →
  Forall (λ try, bcrypt_compare try.1 (password this) = false) tries →
  let r := tryPasswords bcrypt_compare tries this db in
  r.1.1 = replicate (length tries) (Returns false)
  ∧ r.1.2 = Admin.set_attempts this
              (loginAttempts this + Z.of_nat (length tries)) None
  ∧ admin_writes r.2 = admin_writes db + length tries.
Proof.
  induction tries as [|[candidate now] tries IH]; intros this db Hnone Hle Hall.
  - cbn. split_and!; [done | | lia].
    rewrite Z.add_0_r. destruct this. cbn in *. by subst.
  - apply Forall_cons in Hall as [Hw Hall]. cbn [fst] in Hw.
    cbn [tryPasswords length] in *.
    rewrite comparePassword_wrong; [|unfold Admin.isLocked; by rewrite Hnone|done].
    replace (loginAttempts this + 1 >=? 5)%Z with false
      by (symmetry; rewrite Z.geb_leb; apply Z.leb_gt; lia).
    rewrite Hnone.
    set (this1 := Admin.set_attempts this (loginAttempts this + 1) None).
    set (db1 := (Admin.save this1 db).2).
    destruct (IH this1 db1) as (Hout & Hdoc & Hwr); [done | cbn; lia | done |].
    destruct (tryPasswords bcrypt_compare tries this1 db1) as [[outs this2] db2].
    cbn in *. split_and!.
    + by rewrite Hout.
    + rewrite Hdoc. unfold Admin.set_attempts. cbn. f_equal. lia.
    + rewrite Hwr. lia.
Qed.

(** X17. On an account with no counted attempt and no lock, wrong
    passwords tried one after the other all return [false] and leave the
    account unlocked as long as they are at most four; the fifth in a row
    returns [false] too and locks the account for the 15 minutes after
    it, whenever the five are tried. *)
Theorem fifth_wrong_password_locks (this : AdminDoc) (db : AdminStore)
    (tries : list (string * Z)) (candidate : string) (now : Z) :
  loginAttempts this = 0%Z →
  lockUntil this = None →
  length tries ≤ 4 →
  Forall (λ try, bcrypt_compare try.1 (password this) = false) tries →
  bcrypt_compare candidate (password this) = false →
  let r := tryPasswords bcrypt_compare tries this db in
  r.1.1 = replicate (length tries) (Returns false)
  ∧ loginAttempts r.1.2 = Z.of_nat (length tries)
  ∧ (∀ t, Admin.isLocked r.1.2 t = false)
  ∧ (length tries = 4 →
     ∃ this' db',
       Admin.comparePassword bcrypt_compare r.1.2 candidate now r.2
         = (Returns false, this', db')
       ∧ loginAttempts this' = 5%Z
       ∧ lockUntil this' = Some (now + 900000)%Z
       ∧ ∀ t, Admin.isLocked this' t = bool_decide (t < now + 900000)%Z).
Proof.
  intros H0 Hnone Hlen Hall Hw. cbn zeta.
  destruct (tryPasswords_below_limit tries this db) as (Hout & Hdoc & _);
    [done | lia | done |].
  rewrite Hout, Hdoc. split_and!.
  - done.
  - cbn. lia.
  - done.
  - intros H4.
    set (this4 := Admin.set_attempts this
                    (loginAttempts this + Z.of_nat (length tries)) None).
    assert (password this4 = password this) as Hpw by done.
    rewrite comparePassword_wrong; [|done|by rewrite Hpw].
    eexists _, _. split; [reflexivity|].
    assert (loginAttempts this4 = 4%Z) as H4' by (cbn; lia).
    rewrite H4'. cbn.
    change (4 + 1 >=? 5)%Z with true. change (15 * 60 * 1000)%Z with 900000%Z.
    change (4 + 1)%Z with 5%Z. split_and!; try done.
    intros t. unfold Admin.isLocked. cbn.
    symmetry. destruct (now + 900000 >? t)%Z eqn:E.
    + apply bool_decide_eq_true_2. apply Z.gtb_lt in E. lia.
    + apply bool_decide_eq_false_2. rewrite Z.gtb_ltb in E.
      apply Z.ltb_ge in E. lia.
Qed.

(** ** routes/admin.js: [POST /login] *)

(** X18. With both fields present and non-empty, the login answers 200
    exactly when the lower-cased username names an admin who is active
    and not locked and the password matches the stored hash; the admin
    in the response then has [lastLogin] at the time of the call and, if
    attempts had been counted, a count of 0 and no lock, and the token is
    signed for that admin's id, username and role. *)
Theorem login_succeeds_iff (name pass : string) (now : Z) (db : AdminStore) :
  falsy (Some name) = false →
  falsy (Some pass) = false →
  let r := Admin.login bcrypt_compare jwt_sign toLowerCase
             (Some name) (Some pass) now db in
  (status r.1 = 200%Z ↔
     ∃ admin, Admin.findOne (toLowerCase name) db = Some admin
       ∧ isActive admin = true ∧ Admin.isLocked admin now = false
       ∧ bcrypt_compare pass (password admin) = true)
  ∧ (∀ admin, Admin.findOne (toLowerCase name) db = Some admin →
       isActive admin = true → Admin.isLocked admin now = false →
       bcrypt_compare pass (password admin) = true →
       ∃ admin', r.1 = LoginSuccessful
                         (jwt_sign (admin_id admin) (username admin) (role admin))
                         admin'
         ∧ lastLogin admin' = Some now
         ∧ password admin' = password admin
         ∧ ((0 < loginAttempts admin)%Z →
            loginAttempts admin' = 0%Z ∧ lockUntil admin' = None)).
Proof.
  intros Hn Hp. cbn zeta. unfold Admin.login. rewrite Hn, Hp. cbn [orb].
  destruct (Admin.findOne (toLowerCase name) db) as [admin|] eqn:Hf.
  2:{ split; [|done]. split; [done|]. by intros (a & [=] & _). }
  destruct (isActive admin) eqn:Ha; cbn [negb].
  2:{ split; [|by intros a [= <-] ?; congruence].
      split; [done|]. intros (a & [= <-] & ? & _). congruence. }
  destruct (Admin.isLocked admin now) eqn:Hl.
  { split.
    - split; [by destruct (lockUntil admin)|].
      intros (a & [= <-] & _ & ? & _). congruence.
    - intros a [= <-] _ ?. congruence. }
  unfold Admin.comparePassword. rewrite Hl.
  destruct (bcrypt_compare pass (password admin)) eqn:Hm.
  - destruct (loginAttempts admin >? 0)%Z eqn:Hg; cbn.
    + split; [split; [eauto 10 | done]|].
      intros a [= <-] _ _ _. eexists. split; [reflexivity|]. by cbn.
    + split; [split; [eauto 10 | done]|].
      intros a [= <-] _ _ _. eexists. split; [reflexivity|]. cbn.
      split_and!; try done. intros Hpos.
      rewrite Z.gtb_ltb in Hg. apply Z.ltb_ge in Hg. lia.
  - cbn. split.
    + split.
      * by destruct (_ <=? 0)%Z.
      * intros (a & [= <-] & _ & _ & ?). congruence.
    + intros a [= <-] _ _ ?. congruence.
Qed.

Lemma ceil_minutes (d : Z) :
  (0 < d)%Z →
  let m := (- ((- d) / (1000 * 60)))%Z in
  (1 ≤ m)%Z ∧ ((m - 1) * 60000 < d)%Z ∧ (d ≤ m * 60000)%Z.
Proof.
  intros Hd. cbn zeta. change (1000 * 60)%Z with 60000%Z.
  pose proof (Z.div_mod (- d) 60000 ltac:(lia)) as Hdm.
  pose proof (Z.mod_pos_bound (- d) 60000 ltac:(lia)) as Hb.
  lia.
Qed.

(** X19. While the admin's lock has not run out, the login answers 423
    whatever the password, the right one included, with the number of
    minutes left rounded up (at least 1), and writes nothing: attempts
    made during a lock are not counted. *)
Theorem login_locked_account (name pass : string) (now until : Z)
    (admin : AdminDoc) (db : AdminStore) :
  falsy (Some name) = false →
  falsy (Some pass) = false →
  Admin.findOne (toLowerCase name) db = Some admin →
  isActive admin = true →
  lockUntil admin = Some until →
  (now < until)%Z →
  ∃ minutes,
    Admin.login bcrypt_compare jwt_sign toLowerCase (Some name) (Some pass) now db
      = (AccountLocked (Some minutes), db)
    ∧ (1 ≤ minutes)%Z
    ∧ ((minutes - 1) * 60000 < until - now)%Z
    ∧ (until - now ≤ minutes * 60000)%Z.
Proof.
  intros Hn Hp Hf Ha Hlock Hlt. unfold Admin.login.
  rewrite Hn, Hp, Hf, Ha. cbn [orb negb]. unfold Admin.isLocked.
  rewrite Hlock. replace (until >? now)%Z with true
    by (symmetry; apply Z.gtb_lt; lia).
  eexists. split; [reflexivity|]. apply ceil_minutes. lia.
Qed.

(** X20. A login that is turned down before the password is looked at
    (a field missing or empty, an unknown username, an inactive admin)
    writes nothing, and an unknown and an inactive account are answered
    alike, by 401 without a count.  A wrong password on an active,
    unlocked account is always counted: the answer is 401 with the
    attempts left, from 4 down to 1, and 423 from the fifth counted
    attempt on. *)
Theorem login_rejections (name pass : option string) (now : Z) (db : AdminStore) :
  let r := Admin.login bcrypt_compare jwt_sign toLowerCase name pass now db in
  (falsy name = true ∨ falsy pass = true → r = (BadRequest, db))
  ∧ (∀ n p, name = Some n → pass = Some p →
       falsy name = false → falsy pass = false →
       (Admin.findOne (toLowerCase n) db = None → r = (InvalidCredentials None, db))
       ∧ ∀ admin, Admin.findOne (toLowerCase n) db = Some admin →
           (isActive admin = false → r = (InvalidCredentials None, db))
           ∧ (isActive admin = true → Admin.isLocked admin now = false →
              bcrypt_compare p (password admin) = false →
              admin_writes r.2 = S (admin_writes db)
              ∧ ((loginAttempts admin < 4)%Z →
                 r.1 = InvalidCredentials (Some (4 - loginAttempts admin)%Z))
              ∧ ((4 ≤ loginAttempts admin)%Z → r.1 = AccountLocked None))).
Proof.
  cbn zeta. split.
  - unfold Admin.login. intros [H|H].
    + destruct name as [n|]; [|by destruct pass].
      destruct pass as [p|]; [|done]. by rewrite H.
    + destruct name as [n|]; [|done]. destruct pass as [p|]; [|done].
      rewrite H. by rewrite orb_true_r.
  - intros n p -> -> Hn Hp. unfold Admin.login. rewrite Hn, Hp. cbn [orb].
    split; [by intros ->|]. intros admin ->. split; [by intros ->|].
    intros -> Hl Hw. cbn [negb]. rewrite Hl.
    rewrite comparePassword_wrong by done. cbn [negb].
    cbn [loginAttempts Admin.set_attempts].
    destruct (5 - (loginAttempts admin + 1) <=? 0)%Z eqn:E; cbn [fst snd].
    + apply Z.leb_le in E. split_and!; [done | lia | done].
    + apply Z.leb_gt in E. split_and!; [done | | lia].
      intros _. f_equal. f_equal. lia.
Qed.

End AdminProps.

(** ** Concrete runs of the further properties *)

Lemma serial_sends_increment_others_witness :
  ∃ c' c'',
    (Chat.findById "c1"
       (Server.db (Server.handle jwt_example "s2"
                     (Server.send_message (payload "c1" "hi")) state_three))).1
      = Some c'
    ∧ Chat.getUnreadCount c' "a" = 1%Z
    ∧ Chat.getUnreadCount c' "b" = 0%Z
    ∧ (Chat.findById "c1"
         (Server.db (Server.run jwt_example
                       (sends_to "c1" [("s2", "one"); ("s2", "two"); ("s2", "three")])
                       state_three))).1
      = Some c''
    ∧ Chat.getUnreadCount c'' "a" = 3%Z.
Proof.
  destruct (serial_sends_increment_others jwt_example "s2"
              (Server.mkSocket (Some "b") {["chat_c1"]} []) "b" "c1" "hi"
              state_three chat_ab)
    as [(c' & Hc' & Hothers & Hself) Hsends].
  - by vm_compute.
  - reflexivity.
  - reflexivity.
  - apply (bool_decide_unpack _). by vm_compute.
  - constructor.
  - destruct (Hsends [("s2", "one"); ("s2", "two"); ("s2", "three")] "a")
      as (c'' & Hc'' & _ & Hcount).
    + apply (bool_decide_unpack _). by vm_compute.
    + repeat constructor; exists "b"; (split; [by vm_compute | discriminate]).
    + exists c', c''. split_and!.
      * exact Hc'.
      * destruct (Hothers "a") as [-> _]; [|discriminate|reflexivity].
        apply (bool_decide_unpack _). by vm_compute.
      * rewrite Hself. reflexivity.
      * exact Hc''.
      * apply Hcount. reflexivity.
Defined.

Lemma connectionCount_tracks_sockets_interleaved_witness :
  count_ok (Server.server (Server.exec jwt_example burst_schedule
                             (Server.mkConfig state_three ∅ []))).
Proof.
  apply (connectionCount_tracks_sockets_interleaved jwt_example). by vm_compute.
Defined.

Lemma message_markAsRead_once_witness :
  MessageFull.markAsRead message_full "b" 50 store_full
    = (Resolved message_full, store_full)
  ∧ NoDup (rr_user <$> readBy (saved_doc
             (MessageFull.markAsRead message_full "a" 50 store_full).1))
  ∧ ∃ doc, (MessageFull.markAsRead message_full "a" 50 store_full).1 = Resolved doc.
Proof.
  split_and!.
  - destruct (message_markAsRead_once message_full "b" 50 60 store_full)
      as ((receipt & _ & _ & Hold) & _).
    destruct (Hold (mkReadReceipt "b" 11)) as [_ H]; [reflexivity | exact H].
  - destruct (message_markAsRead_once message_full "a" 50 60 store_full)
      as (_ & _ & H & _).
    apply H. apply (bool_decide_unpack _). by vm_compute.
  - destruct (message_markAsRead_once message_full "a" 50 60 store_full)
      as (_ & _ & _ & H).
    eexists. apply H; [reflexivity | eexists; reflexivity].
Defined.

Lemma editMessage_keeps_summary_witness :
  let r := MessageFull.editMessage message_full "hello again" 20 store_full in
  (lm_text ∘ lastMessage <$> (Chat.findById "c1" r.2).1) = Some (Some "hello")
  ∧ (content_text <$> (Message.findById "m1" r.2).1) = Some (Some "hello again").
Proof.
  destruct (editMessage_keeps_summary message_full "hello again" 20 store_full)
    as (Hchats & Hshort & _);
    [reflexivity | eexists; reflexivity | reflexivity |].
  destruct Hshort as (doc & _ & Hbase & _ & _ & _ & _ & Hfind & _);
    [cbn; lia|].
  split.
  - unfold Chat.findById. cbn [fst]. rewrite Hchats. reflexivity.
  - change (Message.findById "m1")
      with (Message.findById (msg_id (base message_full))).
    rewrite Hfind, Hbase. reflexivity.
Defined.

Lemma softDelete_only_flags_witness :
  let r := MessageFull.softDelete message_full 30 store_full in
  (∃ doc, r.1 = Resolved doc)
  ∧ (Message.findById "m1" r.2).1
    = Some (mkMessage "m1" "c1" "a" (Some "hello") [mkReaction "a" "like"]
                      true (Some 30%Z) 10 false).
Proof.
  destruct (softDelete_only_flags message_full 30 store_full)
    as (Hbase & _ & _ & _ & _ & _ & _ & _ & Hstored & _); [reflexivity|].
  destruct Hstored as [Hresolved Hfind]; [eexists; reflexivity|].
  cbn zeta. split; [eexists; exact Hresolved|].
  change (Message.findById "m1")
    with (Message.findById (msg_id (base message_full))).
  rewrite Hfind, Hbase. reflexivity.
Defined.

Lemma comparePassword_lock_witness :
  let locked := Admin.set_attempts admin_root 5 (Some 1000%Z) in
  Admin.comparePassword bcrypt_example locked "secret-pass" 999 admin_store
    = (Throws "Account is temporarily locked", locked, admin_store)
  ∧ ∃ this' db',
      Admin.comparePassword bcrypt_example locked "wrong" 1000 admin_store
        = (Returns false, this', db')
      ∧ Admin.isLocked this' 1001 = true.
Proof.
  intros locked.
  destruct (comparePassword_lock bcrypt_example locked "secret-pass" 999 admin_store)
    as [Hthrow _].
  destruct (comparePassword_lock bcrypt_example locked "wrong" 1000 admin_store)
    as [_ Hwrong].
  split; [apply Hthrow; reflexivity|].
  destruct Hwrong as (this' & db' & Heq & _ & _ & _ & Hrelock & _);
    [reflexivity | reflexivity |].
  exists this', db'. split; [exact Heq|].
  destruct (Hrelock ltac:(cbn; lia) 1001%Z "x") as [H _]; [lia | exact H].
Defined.

Lemma fifth_wrong_password_locks_witness :
  ∃ this' db',
    Admin.comparePassword bcrypt_example
      (tryPasswords bcrypt_example [("a", 1); ("b", 2); ("c", 3); ("d", 4)]%Z
         admin_root admin_store).1.2
      "e" 5
      (tryPasswords bcrypt_example [("a", 1); ("b", 2); ("c", 3); ("d", 4)]%Z
         admin_root admin_store).2
    = (Returns false, this', db')
    ∧ lockUntil this' = Some 900005%Z.
Proof.
  destruct (fifth_wrong_password_locks bcrypt_example admin_root admin_store
              [("a", 1); ("b", 2); ("c", 3); ("d", 4)]%Z "e" 5)
    as (_ & _ & _ & H); [reflexivity | reflexivity | cbn; lia | | reflexivity |].
  - repeat constructor.
  - destruct H as (this' & db' & Heq & _ & Hlock & _); [reflexivity|].
    exists this', db'. split; [exact Heq | exact Hlock].
Defined.

Lemma login_succeeds_iff_witness :
  status (Admin.login bcrypt_example jwt_sign_example lower_example
            (Some "Admin") (Some "secret-pass") 77 admin_store).1 = 200%Z.
Proof.
  destruct (login_succeeds_iff bcrypt_example jwt_sign_example lower_example
              "Admin" "secret-pass" 77 admin_store) as [[_ H] _];
    [reflexivity | reflexivity |].
  apply H. exists admin_root. by vm_compute.
Defined.

Lemma login_locked_account_witness :
  ∃ minutes,
    Admin.login bcrypt_example jwt_sign_example lower_example
      (Some "admin") (Some "secret-pass") 100
      (mkAdminStore [Admin.set_attempts admin_root 5 (Some 60101%Z)] 7)
    = (AccountLocked (Some minutes),
       mkAdminStore [Admin.set_attempts admin_root 5 (Some 60101%Z)] 7)
    ∧ ((minutes - 1) * 60000 < 60101 - 100)%Z
    ∧ (60101 - 100 ≤ minutes * 60000)%Z.
Proof.
  destruct (login_locked_account bcrypt_example jwt_sign_example lower_example
              "admin" "secret-pass" 100 60101
              (Admin.set_attempts admin_root 5 (Some 60101%Z))
              (mkAdminStore [Admin.set_attempts admin_root 5 (Some 60101%Z)] 7))
    as (minutes & Heq & _ & Hlo & Hhi);
    [reflexivity | reflexivity | by vm_compute | reflexivity | reflexivity | lia |].
  exists minutes. split_and!; [exact Heq | exact Hlo | exact Hhi].
Defined.

Lemma login_rejections_witness :
  (Admin.login bcrypt_example jwt_sign_example lower_example
     (Some "nobody") (Some "x") 5 admin_store).1 = InvalidCredentials None
  ∧ (Admin.login bcrypt_example jwt_sign_example lower_example
       (Some "admin") (Some "x") 5 admin_store).1 = InvalidCredentials (Some 4%Z)
  ∧ Admin.login bcrypt_example jwt_sign_example lower_example
      (Some "admin") None 5 admin_store = (BadRequest, admin_store).
Proof.
  split_and!.
  - destruct (login_rejections bcrypt_example jwt_sign_example lower_example
                (Some "nobody") (Some "x") 5 admin_store) as [_ H].
    destruct (H "nobody" "x") as [Hnone _]; [reflexivity..|].
    rewrite Hnone; [reflexivity | by vm_compute].
  - destruct (login_rejections bcrypt_example jwt_sign_example lower_example
                (Some "admin") (Some "x") 5 admin_store) as [_ H].
    destruct (H "admin" "x") as [_ Hsome]; [reflexivity..|].
    destruct (Hsome admin_root) as [_ Hwrong]; [by vm_compute|].
    destruct Hwrong as (_ & Hlt & _); [reflexivity..|].
    rewrite Hlt; [reflexivity | cbn; lia].
  - destruct (login_rejections bcrypt_example jwt_sign_example lower_example
                (Some "admin") None 5 admin_store) as [H _].
    apply H. by right.
Defined.

(** ** middleware/auth.js *)

Lemma strip_prefix_app pat t : strip_prefix pat (pat +:+ t) = Some t.
Proof.
  induction pat as [|a pat IH]; [by destruct t|].
  change (String a pat +:+ t) with (String a (pat +:+ t)).
  cbn [strip_prefix]. by rewrite bool_decide_eq_true_2.
Qed.

Lemma strip_prefix_Some pat s rest :
  strip_prefix pat s = Some rest → s = pat +:+ rest.
Proof.
  revert s. induction pat as [|a pat IH]; intros s; cbn.
  - destruct s; intros [=]; subst; reflexivity.
  - destruct s as [|b s]; [done|]. case_bool_decide as Hab; [|done].
    intros Hs. subst b.
    change (String a pat +:+ rest) with (String a (pat +:+ rest)).
    f_equal. by apply IH.
Qed.

Lemma replaceFirst_prefix pat t : replaceFirst pat (pat +:+ t) = t.
Proof.
  destruct (pat +:+ t) eqn:E; cbn; rewrite <- E, strip_prefix_app; done.
Qed.

Lemma replaceFirst_absent pat s : ¬ occurs pat s → replaceFirst pat s = s.
Proof.
  induction s as [|c s IH]; intros Hno.
  - cbn. destruct (strip_prefix pat EmptyString) as [rest|] eqn:E; [|done].
    exfalso. apply Hno. exists EmptyString, rest.
    etrans; [apply (strip_prefix_Some _ _ _ E) | reflexivity].
  - cbn [replaceFirst].
    destruct (strip_prefix pat (String c s)) as [rest|] eqn:E.
    + exfalso. apply Hno. exists EmptyString, rest.
      etrans; [apply (strip_prefix_Some _ _ _ E) | reflexivity].
    + f_equal. apply IH. intros (before & after & ->). apply Hno.
      by exists (String c before), after.
Qed.

Section AuthProps.
Variable verify : string → Verified.

(** X21. [auth] lets a request through exactly when it has an
    [Authorization] header whose token (the header without its first
    "Bearer ") is not empty, verifies, and names a stored user, and it
    then hands on that very user; every other request is answered 401,
    or 500 when the error thrown is neither a [JsonWebTokenError] nor a
    [TokenExpiredError]. *)
Theorem auth_passes_iff (authorization : option string) (db : Store)
    (passed : option (ObjectId * User)) :
  (Auth.auth verify authorization db = Next passed ↔
     ∃ header userId user,
       authorization = Some header
       ∧ falsy (Some (replaceFirst "Bearer " header)) = false
       ∧ verify (replaceFirst "Bearer " header) = Decoded userId
       ∧ users db !! userId = Some user
       ∧ passed = Some (userId, user))
  ∧ (∀ status message,
       Auth.auth verify authorization db = Respond status message →
       status = 401%Z
       ∨ (status = 500%Z
          ∧ ∃ header name,
              authorization = Some header
              ∧ verify (replaceFirst "Bearer " header) = VerifyError name
              ∧ name ≠ "JsonWebTokenError" ∧ name ≠ "TokenExpiredError")).
Proof.
  unfold Auth.auth, Auth.tokenOf.
  destruct authorization as [header|]; cbn [fmap option_fmap option_map].
  2:{ split; [|intros ?? [= <- _]; by left].
      split; [done|]. by intros (? & ? & ? & [=] & _). }
  destruct (falsy (Some (replaceFirst "Bearer " header))) eqn:Hf.
  { split; [|intros ?? [= <- _]; by left].
    split; [done|]. intros (h & ? & ? & [= <-] & ? & _). congruence. }
  destruct (verify (replaceFirst "Bearer " header)) as [userId|name] eqn:Hv.
  - destruct (users db !! userId) as [user|] eqn:Hu.
    + split; [|done]. split.
      * intros [= <-]. by exists header, userId, user.
      * intros (h & i & u & [= <-] & _ & Hv' & Hu' & ->).
        rewrite Hv in Hv'. injection Hv' as <-. rewrite Hu in Hu'.
        by injection Hu' as <-.
    + split; [|intros ?? [= <- _]; by left].
      split; [done|]. intros (h & i & u & [= <-] & _ & Hv' & Hu' & _).
      rewrite Hv in Hv'. injection Hv' as <-. congruence.
  - split.
    { split; [by repeat case_bool_decide|].
      intros (h & i & u & [= <-] & _ & Hv' & _). congruence. }
    intros status message. repeat case_bool_decide; intros [= <- _];
      [by left | by left | right].
    split; [done|]. by exists header, name.
Qed.

(** X22. The "Bearer " scheme is optional for both middlewares: a header
    that is just the token is treated like the header "Bearer " followed
    by the token, provided the token does not itself contain "Bearer ". *)
Theorem bearer_scheme_optional (token : string) (db : Store) :
  ¬ occurs "Bearer " token →
  Auth.tokenOf (Some ("Bearer " +:+ token)) = Some token
  ∧ Auth.tokenOf (Some token) = Some token
  ∧ Auth.auth verify (Some token) db
    = Auth.auth verify (Some ("Bearer " +:+ token)) db
  ∧ Auth.optionalAuth verify (Some token) db
    = Auth.optionalAuth verify (Some ("Bearer " +:+ token)) db.
Proof.
  intros Hno.
  assert (Auth.tokenOf (Some ("Bearer " +:+ token)) = Some token) as H1.
  { unfold Auth.tokenOf. cbn [fmap option_fmap option_map].
    by rewrite replaceFirst_prefix. }
  assert (Auth.tokenOf (Some token) = Some token) as H2.
  { unfold Auth.tokenOf. cbn [fmap option_fmap option_map].
    by rewrite replaceFirst_absent. }
  split_and!; [done | done | |].
  - unfold Auth.auth. by rewrite H1, H2.
  - unfold Auth.optionalAuth. by rewrite H1, H2.
Qed.

(** X23. [optionalAuth] never answers: it always calls [next()], with the
    user that [auth] would have let through when [auth] passes, and with
    no user whenever [auth] would have answered 401 or 500. *)
Theorem optionalAuth_follows_auth (authorization : option string) (db : Store) :
  Auth.optionalAuth verify authorization db =
  match Auth.auth verify authorization db with
  | Next passed => Next passed
  | Respond _ _ => Next None
  end.
Proof.
  unfold Auth.optionalAuth, Auth.auth.
  destruct (Auth.tokenOf authorization) as [token|]; [|done].
  destruct (falsy (Some token)); [done|].
  destruct (verify token) as [userId|name].
  - by destruct (users db !! userId).
  - by repeat case_bool_decide.
Qed.

End AuthProps.

(** ** middleware/security.js: [validateFileUpload] *)
Section UploadProps.
Variable toLowerCase : string → string.
Variable envMaxFileSize : option Z.

Lemma checkFile_None file :
  Security.checkFile toLowerCase envMaxFileSize file = None ↔
  file_ok toLowerCase envMaxFileSize file.
Proof.
  destruct file as [f|]; [|done]. unfold Security.checkFile, file_ok.
  destruct (file_size f >? Security.maxFileSize envMaxFileSize)%Z eqn:Hs.
  { apply Z.gtb_lt in Hs. split; [done|]. intros [? _]. lia. }
  rewrite Z.gtb_ltb in Hs. apply Z.ltb_ge in Hs.
  case_bool_decide as Hm; cbn [negb].
  2:{ split; [done|]. by intros (_ & ? & _). }
  destruct (falsy (originalname f)) eqn:Hf; cbn [negb].
  { split; [|done]. intros _. split_and!; [done | done | by left]. }
  destruct (some _ Security.dangerousExtensions) eqn:Hd.
  - split; [done|]. intros (_ & _ & [?|Hall]); [done|].
    apply some_true_iff, Exists_exists in Hd as (ext & Hin & Hext).
    rewrite (Hall ext Hin) in Hext. done.
  - split; [|done]. intros _. split_and!; [done | done | right].
    intros ext Hin. apply some_false_iff in Hd.
    destruct (endsWith _ ext) eqn:He; [|done].
    exfalso. apply Hd, Exists_exists. by exists ext.
Qed.

Lemma checkFile_status file response :
  Security.checkFile toLowerCase envMaxFileSize file = Some response →
  ∃ message, response = Respond 400 message.
Proof.
  destruct file as [f|]; [|done]. unfold Security.checkFile.
  repeat (case_match; try done); intros [= <-]; eauto.
Qed.

(** X24. [validateFileUpload] calls [next()] exactly when every file of
    the upload, however the files arrive (none, an array, arrays by
    field, a single file), is no larger than the limit, has one of the
    allowed image or video types and has no name, or a name that in lower
    case ends in none of the dangerous extensions; otherwise it answers
    400, with the message of the first check that the first offending
    file fails.  The limit is the configured one, and 50 MB when that is
    missing, not a number, or 0. *)
Theorem validateFileUpload_passes_iff (upload : Upload) :
  (Security.validateFileUpload toLowerCase envMaxFileSize upload = Next None ↔
     Forall (file_ok toLowerCase envMaxFileSize) (files_of upload))
  ∧ (∀ handled,
       Security.validateFileUpload toLowerCase envMaxFileSize upload = handled →
       handled = Next None ∨ ∃ message, handled = Respond 400 message)
  ∧ (∀ before file rest response,
       files_of upload = before ++ file :: rest →
       Forall (file_ok toLowerCase envMaxFileSize) before →
       Security.checkFile toLowerCase envMaxFileSize file = Some response →
       Security.validateFileUpload toLowerCase envMaxFileSize upload = response)
  ∧ (envMaxFileSize = None ∨ envMaxFileSize = Some 0%Z →
     Security.maxFileSize envMaxFileSize = 52428800%Z).
Proof.
  assert (Security.validateFileUpload toLowerCase envMaxFileSize upload
          = Security.checkFiles toLowerCase envMaxFileSize (files_of upload)) as ->
    by by destruct upload.
  generalize (files_of upload) as files. intros files. split_and!.
  - induction files as [|file files IH]; [done|]. cbn [Security.checkFiles].
    rewrite Forall_cons, <- IH, <- checkFile_None.
    destruct (Security.checkFile toLowerCase envMaxFileSize file) as [response|] eqn:E.
    + apply checkFile_status in E as [message ->]. split; [done|]. by intros [? _].
    + tauto.
  - intros handled <-. induction files as [|file files IH]; [by left|].
    cbn [Security.checkFiles].
    destruct (Security.checkFile toLowerCase envMaxFileSize file) as [response|] eqn:E;
      [|done].
    right. by eapply checkFile_status.
  - intros before file rest response -> Hok Hbad.
    induction Hok as [|x before Hx Hok IH]; cbn [app Security.checkFiles].
    + by rewrite Hbad.
    + apply checkFile_None in Hx. by rewrite Hx.
  - intros [->| ->]; reflexivity.
Qed.

End UploadProps.

Lemma auth_passes_iff_witness :
  Auth.auth (λ token, if bool_decide (token = "bad")
                      then VerifyError "JsonWebTokenError" else Decoded token)
    (Some "Bearer a") (Server.db state_three)
  = Next (Some ("a", mkUser "A" "online" 0)).
Proof.
  apply auth_passes_iff. exists "Bearer a", "a", (mkUser "A" "online" 0).
  split_and!; [reflexivity | reflexivity | reflexivity | by vm_compute | reflexivity].
Defined.

Lemma bearer_scheme_optional_witness :
  Auth.auth (λ token, Decoded token) (Some "a") (Server.db state_three)
  = Auth.auth (λ token, Decoded token) (Some "Bearer a") (Server.db state_three).
Proof.
  destruct (bearer_scheme_optional (λ token, Decoded token) "a"
              (Server.db state_three)) as (_ & _ & H & _); [|exact H].
  intros (before & after & Heq).
  destruct before as [|c [|c' before]]; vm_compute in Heq; discriminate.
Defined.

Lemma optionalAuth_follows_auth_witness :
  Auth.optionalAuth (λ token, VerifyError "TokenExpiredError") (Some "Bearer a")
    (Server.db state_three) = Next None.
Proof.
  rewrite (optionalAuth_follows_auth (λ token, VerifyError "TokenExpiredError")).
  reflexivity.
Defined.

Lemma validateFileUpload_passes_iff_witness :
  Security.validateFileUpload lower_example None
    (FilesByField [("avatar", [Some (mkFile 1000 "image/png" (Some "Me.PNG"))]);
                   ("clips", [None; Some (mkFile 2000 "video/mp4" None)])])
  = Next None
  ∧ Security.validateFileUpload lower_example (Some 1500%Z)
      (FilesArray [Some (mkFile 1000 "image/png" (Some "run.EXE"));
                   Some (mkFile 2000 "video/mp4" None)])
    = Respond 400 "Аюултай файлын төрөл илрүүлэгдлээ".
Proof.
  split.
  - apply validateFileUpload_passes_iff. cbn [files_of fmap list_fmap snd concat app].
    apply Forall_cons. split.
    { split_and!; [by vm_compute | apply (bool_decide_unpack _); by vm_compute |].
      right. intros ext Hext.
      repeat (apply elem_of_cons in Hext as [->|Hext]; [by vm_compute|]).
      by apply elem_of_nil in Hext. }
    apply Forall_cons. split; [exact I|].
    apply Forall_cons. split; [|constructor].
    split_and!; [by vm_compute | apply (bool_decide_unpack _); by vm_compute |].
    by left.
  - destruct (validateFileUpload_passes_iff lower_example (Some 1500%Z)
                (FilesArray [Some (mkFile 1000 "image/png" (Some "run.EXE"));
                             Some (mkFile 2000 "video/mp4" None)]))
      as (_ & _ & H & _).
    apply (H [] (Some (mkFile 1000 "image/png" (Some "run.EXE")))
             [Some (mkFile 2000 "video/mp4" None)]);
      [reflexivity | constructor | by vm_compute].
Defined.

(** ** models/Message.js: what [addReaction] leaves alone *)

(** X25. On a message that is in the store and satisfies the schema,
    [addReaction] with an emoji that is not empty resolves and never changes the
    reactions of any other user, whichever way it goes.  For the user it
    either removes the emoji, when the user holds it (any other reaction
    the user holds stays), or makes the emoji the user's only reaction;
    and it changes no chat document.  With the empty string as emoji the
    call is refused: it rejects and nothing is written. *)
Theorem addReaction_frame (this : MessageDoc) (u : ObjectId) (e : string)
    (db : Store) :
  isNew this = false →
  is_Some (Message.findById (msg_id this) db).1 →
  Message.valid this = true →
  (e ≠ EmptyString →
   ∃ m, (Message.addReaction this u e db).1 = Resolved m
     ∧ (∀ v, v ≠ u → reactions_of v (reactions m) = reactions_of v (reactions this))
     ∧ reactions_of u (reactions m) =
         (if some (λ reaction, r_user reaction = u ∧ emoji reaction = e)
                  (reactions this)
          then filter (λ reaction, emoji reaction ≠ e)
                      (reactions_of u (reactions this))
          else [mkReaction u e])
     ∧ chats (Message.addReaction this u e db).2 = chats db)
  ∧ (e = EmptyString →
     ∃ doc, Message.addReaction this u e db = (Rejected doc, db)).
Proof.
  intros Hn _ Hv. split.
  - intros He. destruct (addReaction_resolves this u e db Hn Hv He) as (-> & _).
    exists (reacted this u e). cbn [fst snd chats reactions reacted
                                    Message.set_reactions Message.set_isNew].
    unfold toggled. split_and!; [done| | |done].
    + intros v Hne. destruct (some _ (reactions this)).
      * unfold reactions_of. apply list_filter_filter_l.
        intros x Hx [Hu _]. congruence.
      * unfold reactions_of. rewrite filter_app.
        fold (reactions_of v (filter (λ reaction, r_user reaction ≠ u)
                                     (reactions this))).
        rewrite reactions_of_drop_other by done.
        rewrite filter_cons, decide_False by (cbn; congruence).
        by rewrite filter_nil, app_nil_r.
    + destruct (some _ (reactions this)).
      * unfold reactions_of. rewrite !list_filter_filter.
        apply list_filter_iff. intros x. split.
        -- intros [Hu Hq]. split; [|done]. intros He'. apply Hq. by split.
        -- intros [He' Hu]. split; [done|]. intros [_ He'']. by apply He'.
      * apply reactions_of_push.
  - intros ->. eexists. apply addReaction_empty_refused; [done|].
    apply some_false_iff. intros (r & Hin & _ & Hr)%Exists_exists.
    unfold Message.valid in Hv. apply andb_true_iff in Hv as [_ Hreact].
    apply validPath_reactions in Hreact.
    by eapply Forall_forall in Hreact.
Qed.

Lemma addReaction_frame_witness :
  let this := mkMessage "m1" "c1" "b" (Some "hello")
                [mkReaction "a" "like"; mkReaction "b" "wow"]
                false None 10 false in
  let db := mkStore ∅ [chat_empty] [this] 0 in
  (∃ m, (Message.addReaction this "a" "like" db).1 = Resolved m
     ∧ reactions_of "b" (reactions m) = [mkReaction "b" "wow"])
  ∧ chats (Message.addReaction this "a" "like" db).2 = [chat_empty]
  ∧ ∃ doc, Message.addReaction this "a" EmptyString db = (Rejected doc, db).
Proof.
  intros this db.
  destruct (addReaction_frame this "a" "like" db) as [Hlike _];
    [reflexivity | eexists; reflexivity | reflexivity |].
  destruct (addReaction_frame this "a" EmptyString db) as [_ Hempty];
    [reflexivity | eexists; reflexivity | reflexivity |].
  destruct Hlike as (m & Hm & Hothers & _ & Hchats); [discriminate|].
  split_and!.
  - exists m. split; [exact Hm|]. rewrite (Hothers "b"); [reflexivity | discriminate].
  - exact Hchats.
  - apply Hempty. reflexivity.
Defined.
